(** * RealTimeSpeakingPartner: session counters, turn classification, grammar score

    A shallow embedding of the turn-processing logic of [src/server.ts]
    (the [/api/session/start], [/api/session/chat] and [/api/session/end]
    handlers), of [AIEngine.analyzeAndRespond], of the [SessionController]
    state the handlers consult, and of [FeedbackEngine.evaluateGrammar].
    Around these it covers the rest of [FeedbackEngine] (the fluency score
    and the session report), what the server reads back from the engine
    and the controller, the in-memory accounts ([Database] users and
    [AuthController]) and the tokens of [server.ts] (login, logout and
    the authorization header).  [ChatHandler] follows the chat handler
    also where it ends in its [catch], and splits the three handlers at
    their [await]s.

    Conventions.
    - JavaScript strings are modelled as [string] (one character per byte);
      case mapping and the character classes act on the ASCII range, so the
      model is exact on ASCII texts.
    - JavaScript numbers that only count (the two server counters) are [Z]:
      a number counts exactly up to 2^53, far beyond any session. The two
      places where the code computes with fractions (the score and the
      sentence score) use [Binary64], round-to-nearest-even arithmetic with
      a 53-bit significand.
    - A value that may be [undefined]/[null] is an [option]; JavaScript
      truthiness of a string is [truthy].
    - A JavaScript [Map] is a [gmap] where only lookups matter and a list
      of entries in insertion order where the code iterates over it. *)

From stdpp Require Import gmap list fin_maps.
From Stdlib Require Import ZArith QArith Qround Qpower Qabs Lia Lqa.
From Stdlib Require Import String Ascii List Bool.
From Stdlib Require Import PrimFloat FloatOps SpecFloat Uint63.
Import ListNotations.

Local Open Scope string_scope.
Local Open Scope list_scope.

(** ** Strings as the handlers use them *)

Module Str.

(** The double-quote character. *)
Definition dq : ascii := ascii_of_nat 34.

(** [qt s] is [s] between double quotes. *)
Definition qt (s : string) : string := String dq (s ++ String dq "").

Definition code (c : ascii) : N := N_of_ascii c.

Definition between (lo hi : N) (c : ascii) : bool :=
  (lo <=? code c)%N && (code c <=? hi)%N.

Definition isUpper (c : ascii) : bool := between 65 90 c.
Definition isLower (c : ascii) : bool := between 97 122 c.
Definition isDigit (c : ascii) : bool := between 48 57 c.

Definition lowerChar (c : ascii) : ascii :=
  if isUpper c then ascii_of_N (code c + 32) else c.

Definition upperChar (c : ascii) : ascii :=
  if isLower c then ascii_of_N (code c - 32) else c.

(** [String.prototype.toLowerCase] *)
Fixpoint toLowerCase (s : string) : string :=
  match s with
  | EmptyString => EmptyString
  | String c s' => String (lowerChar c) (toLowerCase s')
  end.

(** [s.startsWith(p)] *)
Fixpoint startsWith (s p : string) : bool :=
  match p, s with
  | EmptyString, _ => true
  | String a p', String b s' => Ascii.eqb a b && startsWith s' p'
  | String _ _, EmptyString => false
  end.

(** [s.includes(p)] *)
Fixpoint includes (s p : string) : bool :=
  startsWith s p ||
  match s with
  | EmptyString => false
  | String _ s' => includes s' p
  end.

Fixpoint rev_onto (s acc : string) : string :=
  match s with
  | EmptyString => acc
  | String c s' => rev_onto s' (String c acc)
  end.

Definition rev (s : string) : string := rev_onto s EmptyString.

(** [s.endsWith(p)] *)
Definition endsWith (s p : string) : bool := startsWith (rev s) (rev p).

(** White space of [\s] and of [trim] (ASCII part). *)
Definition isSpace (c : ascii) : bool :=
  between 9 13 c || (code c =? 32)%N.

(** Word characters of [\w]. *)
Definition isWord (c : ascii) : bool :=
  isUpper c || isLower c || isDigit c || (code c =? 95)%N.

Fixpoint trimStart (s : string) : string :=
  match s with
  | EmptyString => EmptyString
  | String c s' => if isSpace c then trimStart s' else s
  end.

(** [s.trim()] *)
Definition trim (s : string) : string := rev (trimStart (rev (trimStart s))).

(** [s.replace(/\*\*/g, '')] *)
Fixpoint stripBold (s : string) : string :=
  match s with
  | EmptyString => EmptyString
  | String c s' =>
      match s' with
      | String d s'' =>
          if (code c =? 42)%N && (code d =? 42)%N then stripBold s''
          else String c (stripBold s')
      | EmptyString => s
      end
  end.

(** [xs.join(sep)] *)
Fixpoint join (sep : string) (xs : list string) : string :=
  match xs with
  | [] => ""
  | [x] => x
  | x :: rest => x ++ sep ++ join sep rest
  end.

(** [s.substring(0, n)] for [0 <= n]. *)
Fixpoint take (n : nat) (s : string) : string :=
  match n, s with
  | S n', String c s' => String c (take n' s')
  | _, _ => EmptyString
  end.

(** JavaScript truthiness of a string. *)
Definition nonEmpty (s : string) : bool :=
  match s with EmptyString => false | String _ _ => true end.

(** Truthiness of a possibly absent string. *)
Definition truthy (o : option string) : bool :=
  match o with Some s => nonEmpty s | None => false end.

(** [a || d] for a possibly absent string [a] and a string [d]. *)
Definition orElse (a : option string) (d : string) : string :=
  match a with
  | Some s => if nonEmpty s then s else d
  | None => d
  end.

(** [a || b] where both may be absent. *)
Definition orOpt (a b : option string) : option string :=
  if truthy a then a else b.

End Str.

(** ** Regular expressions

    The fragment of JavaScript regular expressions that the handlers and
    the grammar patterns use, with the backtracking semantics of the
    language: alternatives are tried left to right, quantifiers are greedy,
    a search tries every start position from the left. *)

Module Regex.
Import Str.

Inductive item : Type :=
| IChar (c : ascii)
| IRange (lo hi : ascii)
| ISpace
| IWord.

Inductive re : Type :=
| Eps
| Chr (c : ascii)
| Cls (neg : bool) (items : list item)
| WordB
| Seq (a b : re)
| Alt (a b : re)
| Star (a : re)
| Grp (n : nat) (a : re).

Definition Plus (a : re) : re := Seq a (Star a).
Definition Opt (a : re) : re := Alt a Eps.

(** A literal string. *)
Fixpoint Lit (s : string) : re :=
  match s with
  | EmptyString => Eps
  | String c EmptyString => Chr c
  | String c s' => Seq (Chr c) (Lit s')
  end.

Fixpoint Seqs (rs : list re) : re :=
  match rs with
  | [] => Eps
  | [r] => r
  | r :: rest => Seq r (Seqs rest)
  end.

Fixpoint Alts (r : re) (rs : list re) : re :=
  match rs with
  | [] => r
  | r' :: rest => Alt r (Alts r' rest)
  end.

(** Captures: the latest binding of a group number wins. *)
Definition caps : Type := list (nat * string).

Fixpoint cap (n : nat) (cs : caps) : option string :=
  match cs with
  | [] => None
  | (m, s) :: rest => if Nat.eqb m n then Some s else cap n rest
  end.

(** Character comparison, under the [i] flag up to ASCII case. *)
Definition chrEq (ci : bool) (c d : ascii) : bool :=
  if ci then Ascii.eqb (upperChar c) (upperChar d) else Ascii.eqb c d.

Definition inRange (lo hi d : ascii) : bool :=
  (code lo <=? code d)%N && (code d <=? code hi)%N.

Definition itemMatch (ci : bool) (i : item) (d : ascii) : bool :=
  match i with
  | IChar c => chrEq ci c d
  | IRange lo hi =>
      inRange lo hi d ||
      (ci && (inRange lo hi (lowerChar d) || inRange lo hi (upperChar d)))
  | ISpace => isSpace d
  | IWord => isWord d
  end.

Definition clsMatch (ci : bool) (items : list item) (d : ascii) : bool :=
  existsb (fun i => itemMatch ci i d) items.

Definition isWordOpt (o : option ascii) : bool :=
  match o with Some c => isWord c | None => false end.

Definition headChar (s : string) : option ascii :=
  match s with String c _ => Some c | EmptyString => None end.

Section Matcher.
Context {R : Type}.
Variable ci : bool.

(** [run r prev s cs k] matches [r] at the front of [s] ([prev] is the
    character before it) and hands what is left to the continuation
    [k]; [None] makes the matcher backtrack. *)
Fixpoint run (r : re) (prev : option ascii) (s : string) (cs : caps)
    (k : option ascii -> string -> caps -> option R) {struct r}
    : option R :=
  match r with
  | Eps => k prev s cs
  | Chr c =>
      match s with
      | String d s' => if chrEq ci c d then k (Some d) s' cs else None
      | EmptyString => None
      end
  | Cls neg items =>
      match s with
      | String d s' =>
          if xorb neg (clsMatch ci items d) then k (Some d) s' cs else None
      | EmptyString => None
      end
  | WordB =>
      if xorb (isWordOpt prev) (isWordOpt (headChar s))
      then k prev s cs else None
  | Seq a b => run a prev s cs (fun p' s' cs' => run b p' s' cs' k)
  | Alt a b =>
      match run a prev s cs k with
      | Some x => Some x
      | None => run b prev s cs k
      end
  | Star a =>
      (fix loop (fuel : nat) (prev : option ascii) (s : string) (cs : caps)
           {struct fuel} : option R :=
         match fuel with
         | O => k prev s cs
         | S fuel' =>
             match run a prev s cs
                     (fun p' s' cs' =>
                        if (String.length s' <? String.length s)%nat
                        then loop fuel' p' s' cs' else None) with
             | Some x => Some x
             | None => k prev s cs
             end
         end) (S (String.length s)) prev s cs
  | Grp n a =>
      run a prev s cs
        (fun p' s' cs' =>
           k p' s'
             ((n, take (String.length s - String.length s') s) :: cs'))
  end.
End Matcher.

(** One successful match: the matched text, the captures, the character
    before the rest and the rest. *)
Record found : Type := Found {
  whole : string;
  groups : caps;
  lastChar : option ascii;
  rest : string
}.

Definition matchAt (ci : bool) (r : re) (prev : option ascii) (s : string)
    : option found :=
  run ci r prev s []
    (fun p' s' cs' =>
       Some (Found (take (String.length s - String.length s') s) cs' p' s')).

(** Leftmost match from the position in front of [s]. *)
Fixpoint searchFrom (ci : bool) (r : re) (prev : option ascii) (s : string)
    : option found :=
  match matchAt ci r prev s with
  | Some f => Some f
  | None =>
      match s with
      | EmptyString => None
      | String c s' => searchFrom ci r (Some c) s'
      end
  end.

(** [s.match(r)] without the [g] flag. *)
Definition exec (ci : bool) (r : re) (s : string) : option found :=
  searchFrom ci r None s.

(** [r.test(s)] for an expression without the [g] flag. *)
Definition test (ci : bool) (r : re) (s : string) : bool :=
  match exec ci r s with Some _ => true | None => false end.

(** [s.match(r)] with the [g] flag: every match, left to right; an empty
    match moves on by one character. The result is the empty list where
    JavaScript answers [null]. *)
Fixpoint matchAllFrom (fuel : nat) (ci : bool) (r : re)
    (prev : option ascii) (s : string) : list string :=
  match fuel with
  | O => []
  | S fuel' =>
      match searchFrom ci r prev s with
      | None => []
      | Some f =>
          match whole f, rest f with
          | EmptyString, String c s' =>
              whole f :: matchAllFrom fuel' ci r (Some c) s'
          | EmptyString, EmptyString => [whole f]
          | String _ _, _ =>
              whole f :: matchAllFrom fuel' ci r (lastChar f) (rest f)
          end
      end
  end.

Definition matchAll (ci : bool) (r : re) (s : string) : list string :=
  matchAllFrom (S (String.length s)) ci r None s.

End Regex.

(** ** Double-precision arithmetic

    The fractional computations of the code ([a / b], [a * b], [a + b],
    [Math.round]) on JavaScript numbers. A finite number is the rational it
    denotes; every operation rounds its exact result to the nearest number
    with a 53-bit significand, ties to the even significand. The exponent
    range is not bounded: the code computes with counters, with [100] and
    with values in [[0, 100]], far from overflow and underflow. *)

Module Binary64.
Local Open Scope Q_scope.

Definition pow2 (e : Z) : Q := Qpower 2 e.

(** Nearest integer, ties to even. *)
Definition nearestEven (y : Q) : Z :=
  let f := Qfloor y in
  match Qcompare (y - inject_Z f) (1 # 2) with
  | Lt => f
  | Gt => (f + 1)%Z
  | Eq => if Z.even f then f else (f + 1)%Z
  end.

(** The exponent [e] of a positive [x]: [2^52 <= x / 2^e < 2^53]. *)
Definition expo (x : Q) : Z :=
  let e0 := (Z.log2 (Qnum x) - Z.log2 (Zpos (Qden x)) - 52)%Z in
  if Qle_bool (pow2 52) (x * pow2 (- e0)) then e0 else (e0 - 1)%Z.

Definition roundPos (x : Q) : Q :=
  let e := expo x in
  Qred (inject_Z (nearestEven (x * pow2 (- e))) * pow2 e).

(** Rounding of an exact result to a double. *)
Definition round (x : Q) : Q :=
  match Qcompare x 0 with
  | Eq => 0
  | Gt => roundPos x
  | Lt => - roundPos (- x)
  end.

Definition fdiv (a b : Q) : Q := round (a / b).
Definition fmul (a b : Q) : Q := round (a * b).
Definition fadd (a b : Q) : Q := round (a + b).

(** [a < b] *)
Definition ltb (a b : Q) : bool := negb (Qle_bool b a).

(** The numbers a double holds exactly (non-negative ones): an integer
    significand below 2^53 times a power of two. *)
Definition representable (y : Q) : Prop :=
  exists m j, (0 <= m < 2 ^ 53)%Z /\ y == inject_Z m * pow2 j.

(** Half a unit in the last place, relative to the value. *)
Definition eps : Q := pow2 (- 53).

(** [Math.round]: the nearest integer, ties towards plus infinity. *)
Definition Math_round (x : Q) : Z := Qfloor (x + (1 # 2)).

(** The same computations on the primitive binary64 numbers of the
    kernel, to check the model above against. *)
Definition ofPrim (f : float) : Q :=
  match Prim2SF f with
  | S754_finite s m e =>
      let v := inject_Z (Zpos m) * pow2 e in if s then - v else v
  | _ => 0
  end.

Definition primOfZ (z : Z) : float := PrimFloat.of_uint63 (Uint63.of_Z z).

End Binary64.

(** ** The AI collaborator: [AIEngine] *)

Module AIEngine.
Import Str.
Local Open Scope Z_scope.

(** A mistake as the model's JSON carries it; every field may be absent. *)
Record AiMistake : Type := mkAiMistake {
  ai_category : option string;
  ai_grammar_category : option string;
  ai_sub_category : option string;
  ai_original_text : option string;
  ai_corrected_text : option string;
  ai_explanation : option string;
  ai_severity : option string
}.

(** What the chat handler reads from the result of [analyzeAndRespond]. *)
Record Analysis : Type := mkAnalysis {
  an_sentence_status : option string;
  an_mistakes : option (list AiMistake);
  an_feedback : string;
  an_short_feedback : option string;
  an_feedback_type : option string;
  an_grammar_category : option string
}.

(** The JSON object found in the model's answer. *)
Record ParsedJson : Type := mkParsed {
  p_feedback : option string;
  p_sentence_status : option string;
  p_mistakes : option (list AiMistake)
}.

(** Outcome of [chat.sendMessage]: it throws (network, quota, timeout), or
    answers a text in which a JSON object may have been found and parsed. *)
Inductive GeminiResult : Type :=
| GeminiThrows
| GeminiText (response : string) (parsed : option ParsedJson).

Record Engine : Type := mkEngine {
  conversationHistory : list string;
  currentSessionId : option nat;
  userMessageCount : Z;
  incorrectCount : Z;
  lastScore : Z
}.

Definition initial : Engine := mkEngine [] None 0 0 100.

Definition startConversation (sessionId : nat) (e : Engine) : Engine :=
  mkEngine [] (Some sessionId) 0 0 100.

Definition recordUserMessage (text : string) (e : Engine) : Engine :=
  mkEngine (conversationHistory e ++ [("User: " ++ text)%string])
    (currentSessionId e) (userMessageCount e + 1) (incorrectCount e)
    (lastScore e).

Definition clearHistory (e : Engine) : Engine :=
  mkEngine [] (currentSessionId e) (userMessageCount e) (incorrectCount e)
    (lastScore e).

Definition fallback : string := "That is interesting! Can you tell me more?".

(** [analyzeAndRespond]: the [catch] turns a failed call into the
    fallback analysis, so the method itself never throws. *)
Definition analyzeAndRespond (g : GeminiResult) (e : Engine)
    : Engine * Analysis :=
  match g with
  | GeminiText response parsed =>
      let feedback :=
        match parsed with
        | Some p => orElse (p_feedback p) response
        | None => response
        end in
      let sentenceStatus :=
        match parsed with
        | Some p => orElse (p_sentence_status p) "correct"
        | None => "correct"
        end in
      let mistakes :=
        match parsed with
        | Some p => match p_mistakes p with Some ms => ms | None => [] end
        | None => []
        end in
      let isCorrect :=
        String.eqb sentenceStatus "correct" && (length mistakes =? 0)%nat in
      let e' :=
        mkEngine (conversationHistory e ++ [("AI: " ++ feedback)%string])
          (currentSessionId e) (userMessageCount e)
          (if isCorrect then incorrectCount e else incorrectCount e + 1)
          (if isCorrect then 100
           else Z.max 60 (100 - Z.of_nat (length mistakes) * 10)) in
      (e', mkAnalysis (Some sentenceStatus) (Some mistakes) feedback
             None None None)
  | GeminiThrows =>
      let e' :=
        mkEngine (conversationHistory e ++ [("AI: " ++ fallback)%string])
          (currentSessionId e) (userMessageCount e) (incorrectCount e)
          (lastScore e) in
      (e', mkAnalysis (Some "correct") (Some []) fallback None None None)
  end.

End AIEngine.

(** ** Turn classification: the body of the chat handler between the AI call
    and the counters *)

Module TurnClassifier.
Import Str Regex AIEngine.

(** *** Correction detection *)

Definition correctionPatterns : list string :=
  [ "instead of"; "you could say"; "you can say"; "should be"; "should say";
    "correct form"; "correct way"; "better to say"; "more common to say";
    "it would be"; "would be:"; "small correction"; "minor correction";
    "little correction"; "let's work on"; "let me help";
    "a few things to note"; "things to note"; "past tense"; "present tense";
    "we use"; "you need to use"; "we need to use"; "need a verb";
    "missing verb"; "missing a verb"; "use the right verb";
    (qt "was" ++ " vs")%string; (qt "is" ++ " vs")%string;
    ("vs. " ++ String dq "")%string;
    "**was**"; "**had**"; "**went**"; "**is**"; "**are**" ].

(** The [for ... break] loop: the first pattern the lowered feedback
    includes. *)
Fixpoint firstMatch (feedbackLower : string) (patterns : list string)
    : option string :=
  match patterns with
  | [] => None
  | p :: rest =>
      if includes feedbackLower (toLowerCase p) then Some p
      else firstMatch feedbackLower rest
  end.

Definition detect (aiResponse : string) : option string :=
  firstMatch (toLowerCase aiResponse) correctionPatterns.

(** *** The extraction patterns *)

Definition Q2 : re := Cls false [IChar dq; IChar dq].
Definition NQ2 : re := Cls true [IChar dq; IChar dq].
Definition Q3 : re := Cls false [IChar dq; IChar dq; IChar dq].
Definition NQ3 : re := Cls true [IChar dq; IChar dq; IChar dq].
Definition SP : re := Cls false [ISpace].
Definition W : re := Cls false [IWord].
Definition colonSpace : re := Cls false [IChar ":"; ISpace].

Definition quotedAfter (lead : re) (n : nat) : re :=
  Seqs [lead; Star colonSpace; Q2; Grp n (Plus NQ2); Q2].

Definition moreCommonRe : re :=
  let lead := Alt (Lit "more common to say") (Lit "would be more common") in
  Alt (quotedAfter lead 1) (quotedAfter lead 2).

Definition wouldBeRe : re :=
  let lead := Alt (Lit "it would be") (Lit "would be") in
  Alt (quotedAfter lead 1) (quotedAfter lead 2).

Definition boldRe : re :=
  Seqs [Lit "**"; Grp 1 (Plus (Cls true [IChar "*"])); Lit "**"].

Definition fullSentenceRe : re :=
  let body n :=
    Seqs [Q2;
          Grp n (Seqs [Cls false [IChar "I"]; Plus NQ2;
                       Cls false [IChar "."; IChar "!"; IChar "?"]]);
          Q2] in
  Alt (body 1%nat) (body 2%nat).

Definition couldSayRe : re :=
  Seqs [Lit "you could say"; Star SP; Q3; Grp 1 (Plus NQ3); Q3].

Definition quotedVerbRe : re :=
  Seqs [Q3;
        Grp 1 (Seqs [Star NQ3;
                     Alts (Lit "made")
                       [Lit "making"; Lit "went"; Lit "goes"; Lit "is";
                        Lit "are"; Lit "was"; Lit "were"];
                     Star NQ3]);
        Q3].

Definition itWasRe : re :=
  Seqs [Q3;
        Grp 1 (Seqs [Star NQ3; Lit "It "; Alt (Lit "was") (Lit "is");
                     Star NQ3]);
        Q3].

Definition aboutToCore (v n : nat) : list re :=
  [Lit "I'm about to"; Plus SP; Opt (Lit "**"); Grp v (Plus W);
   Opt (Lit "**"); Plus SP;
   Opt (Seqs [Chr "a"; Opt (Chr "n"); Plus SP]); Grp n (Plus W)].

Definition aboutToRe : re :=
  Alt (Seqs (Q2 :: aboutToCore 1 2 ++ [Opt (Chr "."); Q2]))
      (Seqs (aboutToCore 3 4)).

Definition bulletQuoteRe : re :=
  Seqs [Chr "*"; Star SP; Q2; Grp 1 (Plus NQ2); Q2].

Definition shouldBeRe : re :=
  Seqs [Lit "should "; Alt (Lit "be") (Lit "say"); Star SP; Opt Q3;
        Grp 1 (Plus (Cls true [IChar dq; IChar dq; IChar dq; IChar ".";
                               IChar ","; IChar "!"; IChar "?"]))].

(** [m[1] || m[2] || ''] *)
Definition cap12 (f : found) : string :=
  orElse (orOpt (cap 1 (groups f)) (cap 2 (groups f))) "".

(** [m[1]] of a match whose first group always takes part. *)
Definition cap1 (f : found) : string :=
  match cap 1 (groups f) with Some s => s | None => "" end.

(** Each pattern as the text it would assign to [correctedText]; the
    empty string where the pattern does not match. *)

Definition pattern0a (aiResponse : string) : string :=
  match exec true moreCommonRe aiResponse with
  | Some m => trim (stripBold (cap12 m))
  | None => ""
  end.

Definition pattern0b (aiResponse : string) : string :=
  match exec true wouldBeRe aiResponse with
  | Some m => trim (stripBold (cap12 m))
  | None => ""
  end.

Definition pattern0c (aiResponse : string) : string :=
  match matchAll false boldRe aiResponse with
  | [] => ""
  | boldMatches => ("Use: " ++ join ", " (map stripBold boldMatches))%string
  end.

Definition pattern1 (aiResponse : string) : string :=
  match exec false fullSentenceRe aiResponse with
  | Some m => trim (stripBold (cap12 m))
  | None => ""
  end.

Definition pattern2 (aiResponse : string) : string :=
  match exec true couldSayRe aiResponse with
  | Some m => stripBold (cap1 m)
  | None => ""
  end.

Definition pattern3 (aiResponse : string) : string :=
  match exec true quotedVerbRe aiResponse with
  | Some m => trim (stripBold (cap1 m))
  | None => ""
  end.

Definition pattern4 (aiResponse : string) : string :=
  match exec true itWasRe aiResponse with
  | Some m => trim (stripBold (cap1 m))
  | None => ""
  end.

Definition pattern6 (aiResponse : string) : string :=
  match exec true aboutToRe aiResponse with
  | Some m =>
      let verb := orElse (orOpt (cap 1 (groups m)) (cap 3 (groups m))) "" in
      let noun := orElse (orOpt (cap 2 (groups m)) (cap 4 (groups m))) "" in
      if nonEmpty verb && nonEmpty noun
      then ("I'm about to " ++ verb ++ " an " ++ noun)%string
      else ""
  | None => ""
  end.

Definition pattern7 (aiResponse : string) : string :=
  match exec false bulletQuoteRe aiResponse with
  | Some m => trim (stripBold (cap1 m))
  | None => ""
  end.

Definition pattern8 (aiResponse : string) : string :=
  match exec true shouldBeRe aiResponse with
  | Some m => trim (stripBold (cap1 m))
  | None => ""
  end.

(** [if (!correctedText) { ... }]: a later pattern is consulted only
    while [correctedText] is still empty. *)
Definition orTry (correctedText : string) (p : string -> string)
    (aiResponse : string) : string :=
  if nonEmpty correctedText then correctedText else p aiResponse.

(** The cascade of the handler, in the order of the text. Its pattern 5
    (a second scan for bold spans) only logs and assigns nothing. *)
Definition extractCorrected (aiResponse : string) : string :=
  let correctedText := pattern0a aiResponse in
  let correctedText := orTry correctedText pattern0b aiResponse in
  let correctedText := orTry correctedText pattern0c aiResponse in
  let correctedText := orTry correctedText pattern1 aiResponse in
  let correctedText := orTry correctedText pattern2 aiResponse in
  let correctedText := orTry correctedText pattern3 aiResponse in
  let correctedText := orTry correctedText pattern4 aiResponse in
  let correctedText := orTry correctedText pattern6 aiResponse in
  let correctedText := orTry correctedText pattern7 aiResponse in
  let correctedText := orTry correctedText pattern8 aiResponse in
  correctedText.

Definition placeholder : string := "See AI suggestion in the response".

(** *** Category assignment *)

Definition verbTensePatterns : list (string * string) :=
  [ ("cook", "cooked"); ("make", "made"); ("go", "went"); ("do", "did");
    ("have", "had"); ("is", "was"); ("are", "were"); ("eat", "ate");
    ("drink", "drank"); ("see", "saw"); ("come", "came"); ("take", "took");
    ("get", "got"); ("buy", "bought"); ("think", "thought"); ("say", "said");
    ("tell", "told"); ("give", "gave"); ("find", "found"); ("know", "knew");
    ("put", "put"); ("run", "ran"); ("write", "wrote"); ("read", "read");
    ("speak", "spoke"); ("meet", "met"); ("sit", "sat"); ("stand", "stood");
    ("hear", "heard"); ("sleep", "slept"); ("wake", "woke");
    ("begin", "began"); ("break", "broke"); ("bring", "brought");
    ("build", "built"); ("catch", "caught"); ("choose", "chose");
    ("draw", "drew"); ("drive", "drove"); ("fall", "fell"); ("feel", "felt");
    ("fly", "flew"); ("forget", "forgot"); ("grow", "grew"); ("hang", "hung");
    ("hold", "held"); ("keep", "kept"); ("leave", "left"); ("lend", "lent");
    ("let", "let"); ("lie", "lay"); ("lose", "lost"); ("pay", "paid");
    ("ride", "rode"); ("ring", "rang"); ("rise", "rose"); ("sell", "sold");
    ("send", "sent"); ("shine", "shone"); ("show", "showed");
    ("sing", "sang"); ("sink", "sank"); ("spend", "spent");
    ("steal", "stole"); ("swim", "swam"); ("swing", "swung");
    ("teach", "taught"); ("throw", "threw"); ("understand", "understood");
    ("wear", "wore"); ("win", "won") ].

Definition wordChoicePatterns : list (string * string) :=
  [ ("did", "made"); ("did", "had"); ("make", "do"); ("do", "make");
    ("say", "tell"); ("tell", "say"); ("see", "watch"); ("watch", "see");
    ("hear", "listen"); ("listen", "hear"); ("big", "large");
    ("small", "little"); ("fast", "quick") ].

(** One round of the verb loop: either of its two [if]s sets the flag and
    breaks. *)
Definition verbTenseHit (origLower corrLower : string)
    (verb : string * string) : bool :=
  let (base, past) := verb in
  ((includes origLower (" " ++ base ++ " ")%string
    || includes origLower (" " ++ base ++ ".")%string
    || includes origLower (" " ++ base ++ ",")%string
    || startsWith origLower (base ++ " ")%string
    || endsWith origLower (" " ++ base)%string)
   && (includes corrLower past || includes corrLower (past ++ "ed")%string))
  || (includes origLower (" " ++ base ++ " ")%string
      && includes corrLower (base ++ "ed")%string).

Definition isVerbTenseError (origLower corrLower : string) : bool :=
  existsb (verbTenseHit origLower corrLower) verbTensePatterns.

Definition wordChoiceHit (origLower corrLower : string)
    (wc : string * string) : bool :=
  let (wrong, correct) := wc in
  (includes origLower (" " ++ wrong ++ " ")%string
   || includes origLower (" " ++ wrong ++ ".")%string)
  && includes corrLower correct.

Definition isWordChoiceError (origLower corrLower : string) : bool :=
  existsb (wordChoiceHit origLower corrLower) wordChoicePatterns.

(** The conditions of the [if ... else if] chain, in the order of the
    text. *)

Definition missingVerbLanguage (matchedPattern feedbackLower : string)
    : bool :=
  includes matchedPattern "need to use" || includes matchedPattern "verb"
  || includes matchedPattern "missing"
  || includes matchedPattern "right verb"
  || includes feedbackLower "need a verb"
  || includes feedbackLower "missing verb"
  || includes feedbackLower "use the right verb"
  || includes feedbackLower "we need to use".

Definition tenseLanguage (matchedPattern feedbackLower : string) : bool :=
  includes matchedPattern "tense" || includes matchedPattern "**had**"
  || includes matchedPattern "**was**"
  || includes matchedPattern "**went**"
  || includes feedbackLower "past tense"
  || includes feedbackLower "present tense"
  || includes feedbackLower (qt "was" ++ " vs")%string
  || includes feedbackLower (qt "is" ++ " vs")%string
  || includes feedbackLower ("we use " ++ qt "was")%string
  || includes feedbackLower ("we use " ++ qt "had")%string
  || includes feedbackLower "already happened"
  || includes feedbackLower "since the"
  || includes feedbackLower "because it already".

Definition articleLanguage (feedbackLower : string) : bool :=
  includes feedbackLower "article".

Definition prepositionLanguage (feedbackLower : string) : bool :=
  includes feedbackLower "preposition".

Definition naturalnessLanguage (matchedPattern feedbackLower : string)
    (verbTense wordChoice : bool) : bool :=
  includes matchedPattern "smoother" || includes matchedPattern "natural"
  || (includes feedbackLower "more natural" && negb verbTense
      && negb wordChoice)
  || includes feedbackLower "sounds better".

Definition commonUsageLanguage (matchedPattern feedbackLower : string)
    : bool :=
  includes matchedPattern "more common" || includes feedbackLower "more common".

(** What the chain assigns. *)
Record Category : Type := mkCategory {
  errorType : string;
  subType : string;
  categoryFeedback : string;
  categoryTone : string
}.

Definition sentenceStructure (fb : string) : Category :=
  mkCategory "grammar" "grammar_sentence_structure" fb "warning".
Definition tenseVerb (fb : string) : Category :=
  mkCategory "grammar" "grammar_tense_verb" fb "warning".
Definition prepositionsArticles (fb : string) : Category :=
  mkCategory "grammar" "prepositions_articles" fb "warning".
Definition wordChoice : Category :=
  mkCategory "vocabulary" "vocabulary_word_choice" "Vocabulary: Word choice"
    "warning".
Definition fluencyNaturalness : Category :=
  mkCategory "fluency" "fluency_naturalness"
    "Suggestion: More natural phrasing" "info".

Definition categorize (matchedPattern feedbackLower originalText
    correctedText : string) : Category :=
  if missingVerbLanguage matchedPattern feedbackLower then
    sentenceStructure "Grammar error: Missing verb"
  else if tenseLanguage matchedPattern feedbackLower then
    tenseVerb "Grammar error: Verb tense"
  else if articleLanguage feedbackLower then
    prepositionsArticles "Grammar error: Article usage"
  else if prepositionLanguage feedbackLower then
    prepositionsArticles "Grammar error: Preposition"
  else
    let origLower := toLowerCase originalText in
    let corrLower := toLowerCase correctedText in
    let verbTense := isVerbTenseError origLower corrLower in
    let wordChoiceErr := isWordChoiceError origLower corrLower in
    if verbTense then tenseVerb "Grammar error: Verb tense"
    else if wordChoiceErr then wordChoice
    else if naturalnessLanguage matchedPattern feedbackLower verbTense
              wordChoiceErr
    then fluencyNaturalness
    else if commonUsageLanguage matchedPattern feedbackLower then
      tenseVerb "Grammar suggestion: Common usage"
    else sentenceStructure "Grammar correction suggested".

Definition categoryDisplayNames : list (string * string) :=
  [ ("grammar_tense_verb", "Grammar – Tense & Verb Forms");
    ("grammar_sentence_structure", "Grammar – Sentence Structure");
    ("vocabulary_word_choice", "Vocabulary & Word Choice");
    ("prepositions_articles", "Prepositions & Articles");
    ("word_order", "Word Order");
    ("spelling_form", "Spelling / Form Errors");
    ("fluency_naturalness", "Fluency & Naturalness");
    ("clarity_meaning", "Clarity & Meaning") ].

Definition categoryNames : list (string * string) :=
  [ ("verb_tense", "verb tense");
    ("agreement", "subject-verb agreement");
    ("article_determiner", "article usage");
    ("preposition", "preposition");
    ("sentence_structure", "sentence structure");
    ("verb_form", "verb form");
    ("pronoun_reference", "pronoun reference") ].

(** [table[key]] on an object literal with string values. *)
Fixpoint lookup (table : list (string * string)) (key : string)
    : option string :=
  match table with
  | [] => None
  | (k, v) :: rest => if String.eqb k key then Some v else lookup rest key
  end.

End TurnClassifier.

(** ** The server: module state and the three session handlers *)

Module Server.
Import Str AIEngine TurnClassifier.
Local Open Scope Z_scope.

(** *** What a turn is classified as *)

(** A mistake as the response carries it. A list the AI supplied and the
    handler did not rewrite keeps the AI's own fields ([ofAi]). *)
Record Mistake : Type := mkMistake {
  category : option string;
  category_display : option string;
  sub_category : option string;
  grammar_category : option string;
  original_part : option string;
  original_text : option string;
  corrected_version : option string;
  corrected_text : option string;
  short_explanation : option string;
  explanation : option string;
  severity : option string
}.

Definition ofAi (m : AiMistake) : Mistake :=
  mkMistake (ai_category m) None (ai_sub_category m) (ai_grammar_category m)
    None (ai_original_text m) None (ai_corrected_text m) None
    (ai_explanation m) (ai_severity m).

(** A template literal prints an absent value as [undefined]. *)
Definition shown (o : option string) : string :=
  match o with Some s => s | None => "undefined" end.

(** The [mistakes.map] of the structured branch. *)
Definition normalize (grammarCategory : option string) (m : AiMistake)
    : Mistake :=
  mkMistake
    (Some (orElse (ai_category m) "grammar"))
    None
    (Some (orElse (orOpt (ai_grammar_category m)
                     (orOpt (ai_sub_category m) grammarCategory)) "general"))
    (Some (orElse (orOpt (ai_grammar_category m) grammarCategory) "general"))
    (ai_original_text m)
    (ai_original_text m)
    (ai_corrected_text m)
    (ai_corrected_text m)
    (Some (orElse (ai_explanation m)
             ("Corrected: " ++ qt (shown (ai_corrected_text m)))%string))
    None
    (Some (orElse (ai_severity m) "medium")).

(** The single mistake built by the extraction branch. *)
Definition extracted (cat : Category) (originalText correctedText : string)
    : Mistake :=
  let shownCorrected :=
    if nonEmpty correctedText then correctedText else placeholder in
  mkMistake
    (Some (subType cat))
    (Some (orElse (lookup categoryDisplayNames (subType cat)) "Grammar"))
    (Some (subType cat))
    (Some (subType cat))
    (Some originalText)
    (Some originalText)
    (Some shownCorrected)
    (Some shownCorrected)
    (Some (if nonEmpty correctedText
           then ("Use " ++ qt correctedText ++ " instead")%string
           else "Check the AI response for the correct form"))
    (Some (if nonEmpty correctedText
           then ("Use " ++ qt correctedText ++ " instead of "
                 ++ qt originalText)%string
           else "Check the AI response for the correct form"))
    (Some "medium").

(** The variables of the handler once classification is over. *)
Record Classified : Type := mkClassified {
  shortFeedback : string;
  feedbackType : string;
  sentenceStatus : string;
  mistakes : list Mistake;
  grammarCategory : option string;
  errorSubType : string;
  detectedCorrection : bool;
  matchedPattern : string
}.

(** [mistakes.length > 0 && mistakes[0].original_text &&
    mistakes[0].corrected_text] *)
Definition structuredGuard (ms : list AiMistake) : bool :=
  match ms with
  | [] => false
  | m :: _ => truthy (ai_original_text m) && truthy (ai_corrected_text m)
  end.

(** [detectedCorrection && sentenceStatus === 'correct' &&
    mistakes.length === 0] *)
Definition extractionGuard (detected : bool) (status : string)
    (ms : list AiMistake) : bool :=
  detected && String.eqb status "correct" && (length ms =? 0)%nat.

(** The final [if (!shortFeedback)] default. *)
Definition withDefaultFeedback (c : Classified) : Classified :=
  if nonEmpty (shortFeedback c) then c
  else if String.eqb (sentenceStatus c) "has_errors"
          || (0 <? length (mistakes c))%nat
  then mkClassified "Grammar issue detected" "warning" (sentenceStatus c)
         (mistakes c) (grammarCategory c) (errorSubType c)
         (detectedCorrection c) (matchedPattern c)
  else mkClassified "Perfect! No grammar mistakes detected." "success"
         (sentenceStatus c) (mistakes c) (grammarCategory c)
         (errorSubType c) (detectedCorrection c) (matchedPattern c).

Definition classify (text : string) (analysis : Analysis) : Classified :=
  let aiResponse := an_feedback analysis in
  let feedbackLower := toLowerCase aiResponse in
  let detected := detect aiResponse in
  let detectedCorrection :=
    match detected with Some _ => true | None => false end in
  let matchedPattern :=
    match detected with Some p => p | None => "" end in
  let shortFeedback := orElse (an_short_feedback analysis) "" in
  let feedbackType := orElse (an_feedback_type analysis) "success" in
  let sentenceStatus := orElse (an_sentence_status analysis) "correct" in
  let aiMistakes :=
    match an_mistakes analysis with Some ms => ms | None => [] end in
  let grammarCategory :=
    if truthy (an_grammar_category analysis)
    then an_grammar_category analysis else None in
  withDefaultFeedback
    (if structuredGuard aiMistakes then
       mkClassified
         (match grammarCategory with
          | Some g =>
              ("Grammar issue: " ++ orElse (lookup categoryNames g) g)%string
          | None => shortFeedback
          end)
         feedbackType sentenceStatus
         (map (normalize grammarCategory) aiMistakes)
         grammarCategory "general" detectedCorrection matchedPattern
     else if extractionGuard detectedCorrection sentenceStatus aiMistakes then
       let originalText := text in
       let correctedText := extractCorrected aiResponse in
       let cat :=
         categorize matchedPattern feedbackLower originalText correctedText in
       mkClassified (categoryFeedback cat) (categoryTone cat) "has_errors"
         [extracted cat originalText correctedText]
         (Some (subType cat)) (subType cat) detectedCorrection matchedPattern
     else
       mkClassified shortFeedback feedbackType sentenceStatus
         (map ofAi aiMistakes) grammarCategory "general" detectedCorrection
         matchedPattern).

(** [hadCorrection]: what the handler counts as a turn with errors. *)
Definition hadCorrection (c : Classified) : bool :=
  String.eqb (sentenceStatus c) "has_errors"
  || (0 <? length (mistakes c))%nat
  || detectedCorrection c.

Definition isFlencyOnly (c : Classified) : bool :=
  match grammarCategory c with
  | Some g => String.eqb g "fluency_naturalness"
  | None => false
  end
  || String.eqb (errorSubType c) "fluency_naturalness".

Definition countsAsIncorrect (c : Classified) : bool :=
  hadCorrection c && negb (isFlencyOnly c).

(** The verdict of a turn is what the handler acts on: [hadCorrection]
    decides the counters and is what the response reports as such. *)
Inductive Verdict : Type := Correct | HasErrors.

Definition verdict (c : Classified) : Verdict :=
  if hadCorrection c then HasErrors else Correct.

(** The category of the turn is [grammarCategory]. *)
Definition fluencyNaturalnessTurn (c : Classified) : bool :=
  match grammarCategory c with
  | Some g => String.eqb g "fluency_naturalness"
  | None => false
  end.

(** *** The score

    [serverScore] of the chat handler and [finalScore] of the end handler
    are the same expression over the two counters:
    [count > 0 ? Math.round((correct / count) * 100) : 100]. *)
Definition accuracy (messageCount incorrectCount : Z) : Z :=
  let correctCount := messageCount - incorrectCount in
  if 0 <? messageCount
  then Binary64.Math_round
         (Binary64.fmul
            (Binary64.fdiv (inject_Z correctCount) (inject_Z messageCount))
            (inject_Z 100))
  else 100.

(** The same expression on the primitive binary64 numbers. *)
Definition accuracyPrim (messageCount incorrectCount : Z) : Z :=
  let correctCount := messageCount - incorrectCount in
  if 0 <? messageCount
  then Binary64.Math_round
         (Binary64.ofPrim
            (PrimFloat.mul
               (PrimFloat.div (Binary64.primOfZ correctCount)
                  (Binary64.primOfZ messageCount))
               (Binary64.primOfZ 100)))
  else 100.

(** *** [SessionController] and the in-memory database it consults *)

Record PracticeSession : Type := mkSession {
  sessionId : nat;
  sessionTopicId : nat;
  sessionUserId : nat
}.

Record Controller : Type := mkController {
  currentSession : option PracticeSession;
  currentUser : option nat;
  currentTopicId : nat;
  isRecording : bool;
  knownTopics : list nat;
  nextSessionId : nat
}.

Definition setTopic (topicId : nat) (c : Controller) : Controller :=
  if existsb (Nat.eqb topicId) (knownTopics c)
  then mkController (currentSession c) (currentUser c) topicId
         (isRecording c) (knownTopics c) (nextSessionId c)
  else c.

Definition startRecording (c : Controller) : Controller :=
  match currentUser c with
  | None => c
  | Some uid =>
      if (currentTopicId c =? 0)%nat then c
      else
        match currentSession c with
        | Some _ =>
            mkController (currentSession c) (currentUser c)
              (currentTopicId c) true (knownTopics c) (nextSessionId c)
        | None =>
            mkController
              (Some (mkSession (nextSessionId c) (currentTopicId c) uid))
              (currentUser c) (currentTopicId c) true (knownTopics c)
              (S (nextSessionId c))
        end
  end.

(** [sessionEnded]: without a current session it returns at once; with
    one it stops recording, clears the AI history and drops the session. *)
Definition sessionEnded (c : Controller) (e : Engine) : Controller * Engine :=
  match currentSession c with
  | None => (c, e)
  | Some _ =>
      (mkController None (currentUser c) (currentTopicId c) false
         (knownTopics c) (nextSessionId c),
       clearHistory e)
  end.

Definition isSessionRecording (c : Controller) : bool := isRecording c.

(** *** Module state of [server.ts] *)

Record TokenUser : Type := mkUser {
  id : nat;
  name : string;
  email : string
}.

Record TopicInfo : Type := mkTopic {
  topicName : string;
  topicDescription : string;
  topicCategory : string;
  topicDifficulty : string;
  topicTargetLanguage : string
}.

Record ActiveSession : Type := mkActive {
  oderId : nat;
  userName : string;
  userEmail : string;
  activeTopicId : nat;
  activeTopicName : string;
  conversationId : option nat
}.

(** The variables declared at module level: one copy for the whole
    process, shared by every request of every user. *)
Record State : Type := mkState {
  currentTopicInfo : option TopicInfo;
  serverMessageCount : Z;
  serverIncorrectCount : Z;
  activeSessions : gmap nat ActiveSession;
  currentConversationId : option nat;
  controller : Controller;
  engine : Engine
}.

Definition boot (topics : list nat) : State :=
  mkState None 0 0 ∅ None (mkController None None 0 false topics 1)
    AIEngine.initial.

Inductive Reply (A : Type) : Type :=
| Unauthorized
| BadRequest (message : string)
| Ok (body : A).
Arguments Unauthorized {A}.
Arguments BadRequest {A} message.
Arguments Ok {A} body.

(** *** [POST /api/session/start] *)

Record StartRequest : Type := mkStart {
  startUser : option TokenUser;
  startTopicId : nat;
  resolvedTopic : TopicInfo;
  createdConversation : option nat
}.

Definition start (st : State) (req : StartRequest) : State * Reply nat :=
  match startUser req with
  | None => (st, Unauthorized)
  | Some user =>
      if (startTopicId req =? 0)%nat
      then (st, BadRequest "Topic ID is required")
      else
        let ctl := startRecording (setTopic (startTopicId req) (controller st)) in
        let sid :=
          match currentSession ctl with
          | Some s => sessionId s
          | None => 0%nat
          end in
        let eng := startConversation sid (engine st) in
        let st' :=
          match createdConversation req with
          | Some cid =>
              mkState (Some (resolvedTopic req)) 0 0
                (<[ id user :=
                      mkActive (id user) (name user) (email user)
                        (startTopicId req) (topicName (resolvedTopic req))
                        (Some cid) ]> (activeSessions st))
                (Some cid) ctl eng
          | None =>
              mkState (Some (resolvedTopic req)) 0 0 (activeSessions st)
                (currentConversationId st) ctl eng
          end in
        (st', Ok sid)
  end.

(** *** [POST /api/session/chat] *)

Record ChatRequest : Type := mkChat {
  chatUser : option TokenUser;
  chatText : string;
  gemini : GeminiResult
}.

Record ChatBody : Type := mkChatBody {
  userText : string;
  aiResponse : string;
  turn : Classified;
  legacyGrammar : Z;
  trackedHadCorrection : bool;
  trackedCountsAsIncorrect : bool;
  currentScore : Z;
  messagesCount : Z;
  correctCount : Z;
  incorrectCountOut : Z;
  mistakeCount : nat
}.

Definition noActiveSession : string :=
  "No active session. Please start a session first.".

(** [!currentTopicInfo && !sessionController.isSessionRecording()] *)
Definition chatGuard (st : State) : bool :=
  match currentTopicInfo st with
  | None => negb (isSessionRecording (controller st))
  | Some _ => false
  end.

Definition chat (st : State) (req : ChatRequest) : State * Reply ChatBody :=
  match chatUser req with
  | None => (st, Unauthorized)
  | Some user =>
      if chatGuard st then (st, BadRequest noActiveSession)
      else
        let text := chatText req in
        let eng := recordUserMessage text (engine st) in
        let messageCount := serverMessageCount st + 1 in
        let (eng', analysis) := analyzeAndRespond (gemini req) eng in
        let c := classify text analysis in
        let incorrect :=
          if countsAsIncorrect c then serverIncorrectCount st + 1
          else serverIncorrectCount st in
        let st' :=
          mkState (currentTopicInfo st) messageCount incorrect
            (activeSessions st) (currentConversationId st) (controller st)
            eng' in
        (st',
         Ok (mkChatBody text (an_feedback analysis) c
               (if String.eqb (sentenceStatus c) "correct"
                   && (length (mistakes c) =? 0)%nat
                then 100
                else Z.max 0 (100 - Z.of_nat (length (mistakes c)) * 20))
               (hadCorrection c) (countsAsIncorrect c)
               (accuracy messageCount incorrect) messageCount
               (messageCount - incorrect) incorrect (length (mistakes c))))
  end.

(** *** [POST /api/session/end] *)

Record EndBody : Type := mkEndBody {
  endedConversation : option nat;
  correctSentences : Z;
  incorrectSentences : Z;
  totalSentences : Z;
  accuracyScore : Z
}.

Definition finish (st : State) (user : option TokenUser)
    : State * Reply EndBody :=
  match user with
  | None => (st, Unauthorized)
  | Some u =>
      let saved := currentConversationId st in
      let (ctl, eng) := sessionEnded (controller st) (engine st) in
      let st' :=
        mkState (currentTopicInfo st) (serverMessageCount st)
          (serverIncorrectCount st) (delete (id u) (activeSessions st))
          None ctl eng in
      (st',
       Ok (mkEndBody saved
             (serverMessageCount st - serverIncorrectCount st)
             (serverIncorrectCount st) (serverMessageCount st)
             (accuracy (serverMessageCount st) (serverIncorrectCount st))))
  end.

(** What the end-of-session report shows the user who asks for it:
    total, incorrect and score. *)
Definition endReport (st : State) (user : TokenUser) : option (Z * Z * Z) :=
  match snd (finish st (Some user)) with
  | Ok b => Some (totalSentences b, incorrectSentences b, accuracyScore b)
  | _ => None
  end.

(** *** Requests in sequence *)

Inductive Request : Type :=
| ReqStart (r : StartRequest)
| ReqChat (r : ChatRequest)
| ReqEnd (user : option TokenUser).

Definition handle (st : State) (r : Request) : State :=
  match r with
  | ReqStart q => fst (start st q)
  | ReqChat q => fst (chat st q)
  | ReqEnd u => fst (finish st u)
  end.

Definition run (st : State) (rs : list Request) : State :=
  fold_left handle rs st.

End Server.

(** ** [FeedbackEngine.evaluateGrammar] *)

Module FeedbackEngine.
Import Str Regex.
Local Open Scope Z_scope.

Definition SP : re := Cls false [ISpace].
Definition W : re := Cls false [IWord].

(** [initializeGrammarPatterns]; every pattern carries the [i] flag and
    none the [g] flag, so [test] keeps no position between calls. *)
Definition grammarPatterns : list re :=
  [ Seqs [WordB; Chr "i"; Plus SP; Lit "is"; WordB];
    Seqs [WordB; Lit "he"; Plus SP; Lit "are"; WordB];
    Seqs [WordB; Lit "she"; Plus SP; Lit "are"; WordB];
    Seqs [WordB; Lit "they"; Plus SP; Lit "is"; WordB];
    Seqs [WordB; Lit "does"; Plus SP; Plus W; Chr "s"; WordB];
    Seqs [WordB; Lit "more"; Plus SP; Plus W; Lit "er"; WordB] ].

(** [s.split(/[...]+/)] for a class of separator characters: the pieces
    between maximal runs of separators, empty pieces at the two ends
    included. *)
Fixpoint splitRuns (sep : ascii -> bool) (inRun : bool) (cur : string)
    (s : string) : list string :=
  match s with
  | EmptyString => [rev cur]
  | String c s' =>
      if sep c then
        if inRun then splitRuns sep true cur s'
        else rev cur :: splitRuns sep true EmptyString s'
      else splitRuns sep false (String c cur) s'
  end.

Definition split (sep : ascii -> bool) (s : string) : list string :=
  splitRuns sep false EmptyString s.

Definition isTerminator (c : ascii) : bool :=
  (code c =? 46)%N || (code c =? 33)%N || (code c =? 63)%N.

(** [analyzeSentenceStructure]; [r] is what [Math.random()] answers if
    the third branch asks for it. *)
Definition analyzeSentenceStructure (sentence : string) (r : Q) : Q :=
  let words := split isSpace (trim sentence) in
  if (length words <? 3)%nat then inject_Z 60
  else if (25 <? length words)%nat then inject_Z 70
  else Binary64.fadd (inject_Z 85) (Binary64.fmul r (inject_Z 15)).

(** Whether the call above consumes a random number. *)
Definition drawsRandom (sentence : string) : bool :=
  let words := split isSpace (trim sentence) in
  negb (length words <? 3)%nat && negb (25 <? length words)%nat.

(** The running variables of [evaluateGrammar]; [draws] counts the calls
    of [Math.random] so far. *)
Record Running : Type := mkRunning {
  totalScore : Z;
  issues : list string;
  draws : nat
}.

Definition patternStep (text : string) (acc : Running) (pattern : re)
    : Running :=
  if test true pattern text
  then mkRunning (totalScore acc - 10)
         (issues acc ++ ["Grammar issue detected"]) (draws acc)
  else acc.

Definition sentenceStep (random : nat -> Q) (acc : Running)
    (sentence : string) : Running :=
  if (0 <? String.length (trim sentence))%nat then
    let sentenceScore :=
      analyzeSentenceStructure sentence (random (draws acc)) in
    let draws' :=
      if drawsRandom sentence then S (draws acc) else draws acc in
    if Binary64.ltb sentenceScore (inject_Z 80)
    then mkRunning (totalScore acc - 5)
           (issues acc ++ ["Sentence structure needs improvement"]) draws'
    else mkRunning (totalScore acc) (issues acc) draws'
  else acc.

Definition evaluate (random : nat -> Q) (transcribedText : string)
    : Running :=
  let afterPatterns :=
    fold_left (patternStep transcribedText) grammarPatterns
      (mkRunning 100 [] 0) in
  fold_left (sentenceStep random) (split isTerminator transcribedText)
    afterPatterns.

(** The [Score] object, without its time stamp. *)
Record Score : Type := mkScore {
  value : Z;
  category : string;
  details : string
}.

Definition evaluateGrammar (random : nat -> Q) (transcribedText : string)
    : Score :=
  let final := evaluate random transcribedText in
  mkScore (Z.max 0 (totalScore final)) "grammar"
    (match issues final with
     | [] => "Grammar is correct!"
     | found =>
         ("Issues found: " ++ join "; " (firstn 3 found))%string
     end).

(** The issue list the score was built from. *)
Definition issuesOf (random : nat -> Q) (transcribedText : string)
    : list string :=
  issues (evaluate random transcribedText).

(** A source of random numbers as [Math.random] specifies it. *)
Definition unitInterval (random : nat -> Q) : Prop :=
  forall k, (0 <= random k)%Q /\ (random k < 1)%Q.

End FeedbackEngine.

(** ** The specification's wording, for comparison with the code *)

Module Spec.
Import Str AIEngine TurnClassifier Server.

(** The first extractor, in list order, that yields a non-empty string;
    the empty string if none does. *)
Fixpoint firstNonEmpty (ps : list (string -> string)) (aiResponse : string)
    : string :=
  match ps with
  | [] => ""
  | p :: rest =>
      if nonEmpty (p aiResponse) then p aiResponse
      else firstNonEmpty rest aiResponse
  end.

(** The nine extraction patterns the specification lists, in its order. *)
Definition listedCascade : list (string -> string) :=
  [pattern0a; pattern0b; pattern0c; pattern1; pattern2; pattern3; pattern4;
   pattern7; pattern8].

(** The cascade of the handler: the listed nine and, between the
    It-was/is clauses and the bulleted quotes, the about-to pattern. *)
Definition handlerCascade : list (string -> string) :=
  [pattern0a; pattern0b; pattern0c; pattern1; pattern2; pattern3; pattern4;
   pattern6; pattern7; pattern8].

Definition orPlaceholder (correctedText : string) : string :=
  if nonEmpty correctedText then correctedText else placeholder.

(** An ordered list of tests; the first that holds decides. *)
Fixpoint firstOf {A : Type} (tests : list (bool * A)) (default : A) : A :=
  match tests with
  | [] => default
  | (b, a) :: rest => if b then a else firstOf rest default
  end.

(** The closed taxonomy and the category string the code uses for each
    bucket (articles and prepositions share one). *)
Inductive Taxonomy : Type :=
| TenseVerb
| SentenceStructure
| WordChoice
| ArticleDeterminer
| Preposition
| FluencyNaturalness.

Definition categoryString (t : Taxonomy) : string :=
  match t with
  | TenseVerb => "grammar_tense_verb"
  | SentenceStructure => "grammar_sentence_structure"
  | WordChoice => "vocabulary_word_choice"
  | ArticleDeterminer => "prepositions_articles"
  | Preposition => "prepositions_articles"
  | FluencyNaturalness => "fluency_naturalness"
  end.

(** The order of tests as the specification gives it: (a) to (g). *)
Definition listedOrder (matchedPattern feedbackLower originalText
    correctedText : string) : Taxonomy :=
  let origLower := toLowerCase originalText in
  let corrLower := toLowerCase correctedText in
  let verbTense := isVerbTenseError origLower corrLower in
  let wordChoiceErr := isWordChoiceError origLower corrLower in
  firstOf
    [ (missingVerbLanguage matchedPattern feedbackLower, SentenceStructure);
      (tenseLanguage matchedPattern feedbackLower || verbTense, TenseVerb);
      (wordChoiceErr, WordChoice);
      (articleLanguage feedbackLower, ArticleDeterminer);
      (prepositionLanguage feedbackLower, Preposition);
      (naturalnessLanguage matchedPattern feedbackLower verbTense
         wordChoiceErr, FluencyNaturalness) ]
    SentenceStructure.

(** The order of tests of the handler. *)
Definition handlerOrder (matchedPattern feedbackLower originalText
    correctedText : string) : Category :=
  let origLower := toLowerCase originalText in
  let corrLower := toLowerCase correctedText in
  let verbTense := isVerbTenseError origLower corrLower in
  let wordChoiceErr := isWordChoiceError origLower corrLower in
  firstOf
    [ (missingVerbLanguage matchedPattern feedbackLower,
       sentenceStructure "Grammar error: Missing verb");
      (tenseLanguage matchedPattern feedbackLower,
       tenseVerb "Grammar error: Verb tense");
      (articleLanguage feedbackLower,
       prepositionsArticles "Grammar error: Article usage");
      (prepositionLanguage feedbackLower,
       prepositionsArticles "Grammar error: Preposition");
      (verbTense, tenseVerb "Grammar error: Verb tense");
      (wordChoiceErr, wordChoice);
      (naturalnessLanguage matchedPattern feedbackLower verbTense
         wordChoiceErr, fluencyNaturalness);
      (commonUsageLanguage matchedPattern feedbackLower,
       tenseVerb "Grammar suggestion: Common usage") ]
    (sentenceStructure "Grammar correction suggested").

(** A structured mistake that carries both fragments. *)
Definition wellFormed (m : AiMistake) : bool :=
  truthy (ai_original_text m) && truthy (ai_corrected_text m).

(** The situation of the extraction branch: a correction phrase in the
    feedback, the status [correct] (or none), no structured mistake. *)
Definition correctionWithoutMistakes (a : Analysis) : Prop :=
  detect (an_feedback a) <> None
  /\ orElse (an_sentence_status a) "correct" = "correct"
  /\ (an_mistakes a = None \/ an_mistakes a = Some []).

(** The same analysis with another feedback text. *)
Definition withFeedback (feedback : string) (a : Analysis) : Analysis :=
  mkAnalysis (an_sentence_status a) (an_mistakes a) feedback
    (an_short_feedback a) (an_feedback_type a) (an_grammar_category a).

(** Some correction-indicator phrase occurs in the feedback text. *)
Definition correctionPhraseIn (feedback : string) : Prop :=
  exists p, In p correctionPatterns
            /\ includes (toLowerCase feedback) (toLowerCase p) = true.

(** [analysis.grammar_category || null] *)
Definition aiCategory (a : Analysis) : option string :=
  if truthy (an_grammar_category a) then an_grammar_category a else None.

(** Round half up of the exact quotient [100 * (total - incorrect) / total]. *)
Definition exactScore (total incorrect : Z) : Z :=
  if (0 <? total)%Z
  then Qfloor (inject_Z (100 * (total - incorrect)) / inject_Z total + (1 # 2))
  else 100%Z.

End Spec.

(** ** Sample data: two users, their sessions, some turns *)

Module Samples.
Import Str AIEngine TurnClassifier Server.

Definition alice : TokenUser := mkUser 1 "alice" "alice@example.org".
Definition bob : TokenUser := mkUser 2 "bob" "bob@example.org".

Definition daily : TopicInfo :=
  mkTopic "Daily Conversations" "" "general" "intermediate" "English".

(** A freshly booted server, then Alice's session, then Bob's as well. *)
Definition booted : State := boot [1; 2; 3]%nat.
Definition aliceStarted : State :=
  fst (start booted (mkStart (Some alice) 1 daily (Some 10%nat))).
Definition bothStarted : State :=
  fst (start aliceStarted (mkStart (Some bob) 2 daily (Some 11%nat))).
Definition aliceEnded : State := fst (finish aliceStarted (Some alice)).

(** An analysis as [analyzeAndRespond] returns it for a plain answer. *)
Definition plain (feedback : string) : Analysis :=
  mkAnalysis (Some "correct") (Some []) feedback None None None.

Definition schoolText : string := "I go to school yesterday".
Definition schoolFeedback : string :=
  ("You should say: " ++ qt "I went to school yesterday"
   ++ ". Mind the article too.")%string.

Definition appleText : string := "I about eat apple".
Definition appleFeedback : string := "You should say I'm about to eat apple".

Definition helloTurn : ChatRequest :=
  mkChat (Some alice) "Hello" (GeminiText "Hi there! How are you?" None).
Definition schoolTurn : ChatRequest :=
  mkChat (Some alice) schoolText (GeminiText schoolFeedback None).
Definition failedTurn : ChatRequest :=
  mkChat (Some alice) "Hello" GeminiThrows.

(** Structured mistakes: one with both fragments, one without the
    original fragment. *)
Definition complete : AiMistake :=
  mkAiMistake None None None (Some "I go") (Some "I went") None None.
Definition lacking : AiMistake :=
  mkAiMistake None None None None (Some "I went") None None.

Definition structuredAnalysis : Analysis :=
  mkAnalysis (Some "has_errors") (Some [complete]) schoolFeedback None None
    None.

Definition lackingAnalysis : Analysis :=
  mkAnalysis (Some "correct") (Some [lacking]) "You should say I went home."
    None None None.

(** A session of forty turns, seventeen of them with a correction. *)
Definition fortyTurns : list Request :=
  ReqStart (mkStart (Some alice) 1 daily None)
  :: repeat (ReqChat schoolTurn) 17 ++ repeat (ReqChat helloTurn) 23.

(** The three scenario turns of the specification. *)
Definition oclockTurn : ChatRequest :=
  mkChat (Some alice) "I wake up at 7 oclock every day"
    (GeminiText "Nice routine! It should be **o'clock**." None).

Definition scenarioC : list Request :=
  [ ReqStart (mkStart (Some alice) 1 daily None);
    ReqChat oclockTurn; ReqChat helloTurn; ReqChat schoolTurn ].

(** The largest double below one, as a rational and as a primitive
    number. *)
Definition almostOne : Q := (2 ^ 53 - 1) # (2 ^ 53).
Definition almostOnePrim : float := 0x1.fffffffffffffp-1%float.

(** All pairs [(total, incorrect)] with [incorrect <= total <= n]. *)
Definition counterPairs (n : nat) : list (Z * Z) :=
  flat_map
    (fun t => map (fun i => (Z.of_nat t, Z.of_nat i)) (seq 0 (S t)))
    (seq 1 n).

End Samples.

(** ** [FeedbackEngine]: fluency and the session report *)

Module FeedbackReport.
Import Str FeedbackEngine.
Local Open Scope Z_scope.

(** A number that may be plus infinity: the quotient of a positive word
    count by a duration of zero.  The duration itself is a finite number. *)
Inductive Pace : Type :=
| Finite (q : Q)
| PlusInfinity.

(** [transcribedText.split(/\s+/).length]; the text is not trimmed first. *)
Definition wordCount (transcribedText : string) : nat :=
  length (split isSpace transcribedText).

(** [(wordCount / duration) * 60] for a word count that is at least one. *)
Definition wordsPerMinute (words : nat) (duration : Q) : Pace :=
  if Qeq_bool duration 0 then PlusInfinity
  else Finite
         (Binary64.fmul
            (Binary64.fdiv (inject_Z (Z.of_nat words)) duration)
            (inject_Z 60)).

Definition paceBelow (p : Pace) (bound : Q) : bool :=
  match p with
  | Finite q => Binary64.ltb q bound
  | PlusInfinity => false
  end.

Definition paceAbove (p : Pace) (bound : Q) : bool :=
  match p with
  | Finite q => Binary64.ltb bound q
  | PlusInfinity => true
  end.

(** The literal [0.9] as a double. *)
Definition ninetyPercent : Q := Binary64.round (9 # 10).

(** [analyzePauses]; [r] is what [Math.random()] answers. *)
Definition analyzePauses (duration : Q) (r : Q) : Q :=
  let pauseFactor :=
    if Binary64.ltb (inject_Z 10) duration then ninetyPercent
    else inject_Z 1 in
  Binary64.fmul
    (Binary64.fadd (inject_Z 70) (Binary64.fmul r (inject_Z 30)))
    pauseFactor.

(** The sentences [analyzeCoherence] keeps: the pieces between runs of
    terminators that are not blank. *)
Definition coherentSentences (text : string) : list string :=
  List.filter (fun s => (0 <? String.length (trim s))%nat)
    (split isTerminator text).

(** [analyzeCoherence]; it asks for a random number only when a sentence
    is left. *)
Definition analyzeCoherence (text : string) (r : Q) : Q :=
  match coherentSentences text with
  | [] => inject_Z 50
  | _ :: _ => Binary64.fadd (inject_Z 75) (Binary64.fmul r (inject_Z 25))
  end.

(** The three deductions of [measureFluency], each with its remark. *)
Definition paceDeduction (transcribedText : string) (duration : Q)
    : Z * string :=
  let wpm := wordsPerMinute (wordCount transcribedText) duration in
  if paceBelow wpm (inject_Z 100) then (15, "Speaking pace is too slow")
  else if paceAbove wpm (inject_Z 180) then (10, "Speaking pace is too fast")
  else (0, "Good speaking pace").

Definition hesitates (duration : Q) (r : Q) : bool :=
  Binary64.ltb (analyzePauses duration r) (inject_Z 70).

Definition incoherent (transcribedText : string) (r : Q) : bool :=
  Binary64.ltb (analyzeCoherence transcribedText r) (inject_Z 70).

(** [measureFluency]; the first random number goes to the pause analysis,
    the second to the coherence analysis. *)
Definition measureFluency (random : nat -> Q) (transcribedText : string)
    (duration : Q) : Score :=
  let pace := paceDeduction transcribedText duration in
  let totalScore := 100 - fst pace in
  let details := [snd pace] in
  let pausePenalty := hesitates duration (random 0%nat) in
  let totalScore := if pausePenalty then totalScore - 10 else totalScore in
  let details :=
    if pausePenalty then details ++ ["Too many hesitations detected"]
    else details in
  let coherencePenalty := incoherent transcribedText (random 1%nat) in
  let totalScore := if coherencePenalty then totalScore - 10 else totalScore in
  let details :=
    if coherencePenalty
    then details ++ ["Speech coherence needs improvement"]
    else details in
  mkScore (Z.max 0 totalScore) "fluency" (join "; " details).

(** *** The session report *)

(** [sessionFeedbackData]: per session the grammar scores and the fluency
    scores, in the order they were added. *)
Record SessionScores : Type := mkSessionScores {
  grammarScores : list Score;
  fluencyScores : list Score
}.

(** [addSessionScore]: the [switch] has no default case. *)
Definition addSessionScore (sessionId : nat) (score : Score)
    (data : gmap nat SessionScores) : gmap nat SessionScores :=
  let current :=
    match data !! sessionId with
    | Some d => d
    | None => mkSessionScores [] []
    end in
  let updated :=
    if String.eqb (category score) "grammar"
    then mkSessionScores (grammarScores current ++ [score])
           (fluencyScores current)
    else if String.eqb (category score) "fluency"
    then mkSessionScores (grammarScores current)
           (fluencyScores current ++ [score])
    else current in
  <[ sessionId := updated ]> data.

(** The data of an engine after a sequence of [addSessionScore] calls;
    the constructor starts from an empty map. *)
Definition recorded (calls : list (nat * Score)) : gmap nat SessionScores :=
  fold_left (fun data call => addSessionScore (fst call) (snd call) data)
    calls ∅.

(** What [addSessionScore] keeps true of the data: the grammar list of a
    session holds grammar scores only, the fluency list fluency scores
    only. *)
Definition sorted_scores (data : gmap nat SessionScores) : Prop :=
  forall sessionId d, data !! sessionId = Some d ->
    Forall (fun s => category s = "grammar") (grammarScores d)
    /\ Forall (fun s => category s = "fluency") (fluencyScores d).

(** [scores.reduce((sum, score) => sum + score.value, 0)]; the sum of
    whole numbers is exact while it stays below 2^53. *)
Definition total (scores : list Score) : Z :=
  fold_left (fun sum score => sum + value score) scores 0.

(** [calculateAverageScore] *)
Definition calculateAverageScore (scores : list Score) : Z :=
  match scores with
  | [] => 0
  | _ :: _ =>
      Binary64.Math_round
        (Binary64.fdiv (inject_Z (total scores))
           (inject_Z (Z.of_nat (length scores))))
  end.

Definition generateFeedback (grammar fluency : Score) : list string :=
  [ if 80 <=? value grammar then "Excellent grammar usage!"
    else if 60 <=? value grammar then "Good grammar with some minor errors."
    else "Pay more attention to grammar rules.";
    if 80 <=? value fluency then "You speak fluently and naturally!"
    else if 60 <=? value fluency then "Your fluency is developing well."
    else "Try to reduce hesitations for better fluency." ].

Definition generateSuggestions (grammar fluency : Score) : list string :=
  let suggestions :=
    (if value grammar <? 80
     then ["Review basic grammar rules";
           "Practice forming complete sentences"]
     else [])
    ++ (if value fluency <? 80
        then ["Practice speaking without long pauses";
              "Read aloud daily to improve flow"]
        else []) in
  match suggestions with
  | [] => ["Keep up the great work!"; "Try more challenging topics"]
  | _ :: _ => suggestions
  end.

Record Report : Type := mkReport {
  reportSessionId : nat;
  reportUserId : nat;
  grammarScore : Score;
  fluencyScore : Score;
  overallScore : Z;
  feedback : list string;
  suggestions : list string
}.

(** [{...scores[scores.length - 1], value: average}], or the default when
    the list is empty. *)
Definition averaged (default : Score) (scores : list Score) : Score :=
  match scores with
  | [] => default
  | _ :: _ =>
      let latest := List.last scores default in
      mkScore (calculateAverageScore scores) (category latest)
        (details latest)
  end.

(** [provideSessionFeedback] *)
Definition provideSessionFeedback (sessionId : nat)
    (data : gmap nat SessionScores) : Report :=
  let defaultGrammar := mkScore 80 "grammar" "No data available" in
  let defaultFluency := mkScore 75 "fluency" "No data available" in
  let grammar :=
    match data !! sessionId with
    | Some d => averaged defaultGrammar (grammarScores d)
    | None => defaultGrammar
    end in
  let fluency :=
    match data !! sessionId with
    | Some d => averaged defaultFluency (fluencyScores d)
    | None => defaultFluency
    end in
  let overall :=
    Binary64.Math_round
      (Binary64.fadd
         (Binary64.fmul (inject_Z (value grammar)) (1 # 2))
         (Binary64.fmul (inject_Z (value fluency)) (1 # 2))) in
  mkReport sessionId 0 grammar fluency overall
    (generateFeedback grammar fluency)
    (generateSuggestions grammar fluency).

(** The text has a grammar pattern: how many of the six match. *)
Definition patternHits (text : string) : nat :=
  length (List.filter (fun p => Regex.test true p text) grammarPatterns).

(** A sentence that costs five points: not blank, and fewer than 3 or
    more than 25 words. *)
Definition misshapen (sentence : string) : bool :=
  (0 <? String.length (trim sentence))%nat && negb (drawsRandom sentence).

Definition misshapenSentences (text : string) : nat :=
  length (List.filter misshapen (split isTerminator text)).

End FeedbackReport.

(** ** What the server reads back: statistics, status and report *)

Module SessionStatus.
Import AIEngine Server FeedbackReport.
Local Open Scope Z_scope.

(** [AIEngine.getCurrentStats] *)
Record Stats : Type := mkStats {
  statsScore : Z;
  statsTotal : Z;
  statsIncorrect : Z
}.

Definition getCurrentStats (e : Engine) : Stats :=
  mkStats (lastScore e) (userMessageCount e) (incorrectCount e).

(** [AIEngine.endConversation]; its [mistakes] field is always the empty
    array. *)
Record ConversationScore : Type := mkConversationScore {
  finalScore : Z;
  scoreMistakes : list string;
  scoreTotalSentences : Z;
  scoreIncorrectSentences : Z;
  correctSentenceCount : Z
}.

Definition endConversation (e : Engine) : ConversationScore :=
  mkConversationScore (lastScore e) [] (userMessageCount e)
    (incorrectCount e) (userMessageCount e - incorrectCount e).

(** [AIEngine.getConversationHistory] answers a copy of the history. *)
Definition getConversationHistory (e : Engine) : list string :=
  conversationHistory e.

(** [SessionController.getSessionReport]: [null] without a current
    session. *)
Definition getSessionReport (c : Controller)
    (data : gmap nat SessionScores) : option Report :=
  match currentSession c with
  | None => None
  | Some s => Some (provideSessionFeedback (sessionId s) data)
  end.

(** The guard of [POST /api/session/practice]: the request is answered
    400 'No active session' when the controller is not recording. *)
Definition practiceRejected (st : State) : bool :=
  negb (isSessionRecording (controller st)).

(** [GET /api/session/status]: [isActive] and the session, if any. *)
Definition status (st : State) : bool * option PracticeSession :=
  (isSessionRecording (controller st), currentSession (controller st)).

(** A start request that passes both checks of the handler. *)
Definition acceptedStart (r : Request) : bool :=
  match r with
  | ReqStart q =>
      match startUser q with
      | Some _ => negb (startTopicId q =? 0)%nat
      | None => false
      end
  | _ => false
  end.

(** A chat request of a logged-in user. *)
Definition authenticatedChat (r : Request) : bool :=
  match r with
  | ReqChat q => match chatUser q with Some _ => true | None => false end
  | _ => false
  end.

(** Reading of a request sequence: whether a start was accepted so far,
    and how many chat requests of logged-in users came after the latest
    accepted start. *)
Definition tally (seen : bool * Z) (r : Request) : bool * Z :=
  if acceptedStart r then (true, 0)
  else if authenticatedChat r && fst seen then (fst seen, snd seen + 1)
  else seen.

Definition turnsSinceStart (rs : list Request) : bool * Z :=
  fold_left tally rs (false, 0).

(** What every request keeps true of the state: the controller has no
    user, no session and does not record; the engine counts the messages
    the server counts, holds two history lines per message, and its last
    score is between 60 and 100. *)
Definition consistent (st : State) : Prop :=
  currentUser (controller st) = None
  /\ currentSession (controller st) = None
  /\ isRecording (controller st) = false
  /\ userMessageCount (engine st) = serverMessageCount st
  /\ Z.of_nat (length (conversationHistory (engine st)))
     = 2 * serverMessageCount st
  /\ 0 <= incorrectCount (engine st) <= userMessageCount (engine st)
  /\ 60 <= lastScore (engine st) <= 100.

(** The reading [seen] of the requests so far describes the state. *)
Definition tallied (st : State) (seen : bool * Z) : Prop :=
  fst seen = match currentTopicInfo st with Some _ => true | None => false end
  /\ snd seen = serverMessageCount st.

End SessionStatus.

(** ** In-memory accounts: [Database] users and [AuthController] *)

Module Accounts.
Import Str Regex.

(** The [User] object, named by its getters. *)
Record User : Type := newUser {
  getUserId : nat;
  getName : string;
  getEmail : string;
  getPassword : string
}.

(** A JavaScript [Map] with number keys: the entries in insertion order;
    [set] on a key that is present replaces the value in place. *)
Fixpoint mapSet {V : Type} (key : nat) (v : V) (entries : list (nat * V))
    : list (nat * V) :=
  match entries with
  | [] => [(key, v)]
  | (k, old) :: rest =>
      if Nat.eqb k key then (k, v) :: rest
      else (k, old) :: mapSet key v rest
  end.

Definition values {V : Type} (entries : list (nat * V)) : list V :=
  map snd entries.

(** The part of [Database] that holds the users. *)
Record Database : Type := mkDatabase {
  users : list (nat * User);
  nextUserId : nat
}.

Definition emptyDatabase : Database := mkDatabase [] 1.

Definition storeUser (user : User) (db : Database) : Database * bool :=
  if existsb (fun existing => String.eqb (getEmail existing) (getEmail user))
       (values (users db))
  then (db, false)
  else (mkDatabase (mapSet (getUserId user) user (users db))
          (nextUserId db), true).

Definition validateUserCredentials (email password : string)
    (db : Database) : bool :=
  existsb
    (fun user =>
       String.eqb (getEmail user) email
       && String.eqb (getPassword user) password)
    (values (users db)).

Definition getUserByEmail (email : string) (db : Database) : option User :=
  List.find (fun user => String.eqb (getEmail user) email)
    (values (users db)).

(** [this.nextUserId++] *)
Definition generateUserId (db : Database) : Database * nat :=
  (mkDatabase (users db) (S (nextUserId db)), nextUserId db).

(** [/^[^\s@]+@[^\s@]+\.[^\s@]+$/] *)
Definition plainChar : re := Cls true [ISpace; IChar "@"].

Definition emailRegex : re :=
  Seqs [Plus plainChar; Chr "@"; Plus plainChar; Chr "."; Plus plainChar].

(** The expression is anchored at both ends: it is tried at the first
    position only and has to use up the whole string. *)
Definition validateEmailFormat (email : string) : bool :=
  match run false emailRegex None email []
          (fun _ left _ =>
             match left with
             | EmptyString => Some tt
             | String _ _ => None
             end) with
  | Some _ => true
  | None => false
  end.

(** The characters the class [[^\s@]] accepts, and the strings made of
    them. *)
Definition plain (c : ascii) : bool := negb (isSpace c || Ascii.eqb "@" c).

Fixpoint allPlain (s : string) : bool :=
  match s with
  | EmptyString => true
  | String c s' => plain c && allPlain s'
  end.

(** The last character of [s], or [prev] if [s] is empty. *)
Fixpoint lastOr (prev : option ascii) (s : string) : option ascii :=
  match s with
  | EmptyString => prev
  | String c s' => lastOr (Some c) s'
  end.

Definition validatePasswordStrength (password : string) : bool :=
  (6 <=? String.length password)%nat.

(** [AuthController]: the database it was given and the current user. *)
Record AuthController : Type := mkAuth {
  database : Database;
  currentUser : option User
}.

Definition newAuthController : AuthController := mkAuth emptyDatabase None.

(** The value of [data.get(key) as string] when the test [!value] lets it
    through. *)
Definition given (value : option string) : string := orElse value "".

(** [processCredentials]: [email] and [password] are what [data.get]
    answers, [undefined] for a missing key. *)
Definition processCredentials (email password : option string)
    (a : AuthController) : AuthController * bool :=
  if negb (truthy email) || negb (truthy password) then (a, false)
  else if negb (validateEmailFormat (given email)) then (a, false)
  else if negb (validatePasswordStrength (given password)) then (a, false)
  else
    let isValid :=
      validateUserCredentials (given email) (given password) (database a) in
    if isValid then
      match getUserByEmail (given email) (database a) with
      | Some user => (mkAuth (database a) (Some user), true)
      | None => (a, true)
      end
    else (a, false).

Definition createUser (name email password : option string)
    (a : AuthController) : AuthController * bool :=
  if negb (truthy name) || negb (truthy email) || negb (truthy password)
  then (a, false)
  else if negb (validateEmailFormat (given email)) then (a, false)
  else if negb (validatePasswordStrength (given password)) then (a, false)
  else
    match getUserByEmail (given email) (database a) with
    | Some _ => (a, false)
    | None =>
        let (db, userId) := generateUserId (database a) in
        let newUser' :=
          newUser userId (given name) (given email) (given password) in
        let (db', success) := storeUser newUser' db in
        (mkAuth db' (currentUser a), success)
    end.

Definition login (email password : string) (a : AuthController)
    : AuthController :=
  let (a', isValid) := processCredentials (Some email) (Some password) a in
  if isValid then
    match getUserByEmail email (database a') with
    | Some user => mkAuth (database a') (Some user)
    | None => a'
    end
  else mkAuth (database a') None.

Definition logout (a : AuthController) : AuthController :=
  match currentUser a with
  | Some _ => mkAuth (database a) None
  | None => a
  end.

Definition isLoggedIn (a : AuthController) : bool :=
  match currentUser a with Some _ => true | None => false end.

(** Calls on one controller, in sequence. *)
Inductive Call : Type :=
| CallCreateUser (name email password : option string)
| CallLogin (email password : string)
| CallLogout.

Definition perform (a : AuthController) (c : Call) : AuthController :=
  match c with
  | CallCreateUser name email password =>
      fst (createUser name email password a)
  | CallLogin email password => login email password a
  | CallLogout => logout a
  end.

Definition after (calls : list Call) : AuthController :=
  fold_left perform calls newAuthController.

(** What the calls keep true of the database: the users are numbered
    1, 2, 3, ... in the order they were stored, the next number is the
    one after the last, no two users share an email, and every stored
    email and password passed the two checks. *)
Definition sound (db : Database) : Prop :=
  map fst (users db) = seq 1 (length (users db))
  /\ nextUserId db = S (length (users db))
  /\ NoDup (map getEmail (values (users db)))
  /\ Forall
       (fun entry =>
          fst entry = getUserId (snd entry)
          /\ validateEmailFormat (getEmail (snd entry)) = true
          /\ validatePasswordStrength (getPassword (snd entry)) = true)
       (users db).

End Accounts.

(** ** Tokens: login, logout and the authorization header *)

Module Tokens.
Import Str Server Accounts.

(** A JavaScript [Map] with string keys: the entries in insertion order,
    no key twice. *)
Fixpoint getEntry {V : Type} (key : string) (entries : list (string * V))
    : option V :=
  match entries with
  | [] => None
  | (k, v) :: rest => if String.eqb k key then Some v else getEntry key rest
  end.

Fixpoint setEntry {V : Type} (key : string) (v : V)
    (entries : list (string * V)) : list (string * V) :=
  match entries with
  | [] => [(key, v)]
  | (k, old) :: rest =>
      if String.eqb k key then (k, v) :: rest
      else (k, old) :: setEntry key v rest
  end.

Fixpoint deleteEntry {V : Type} (key : string) (entries : list (string * V))
    : list (string * V) :=
  match entries with
  | [] => []
  | (k, v) :: rest =>
      if String.eqb k key then rest else (k, v) :: deleteEntry key rest
  end.

Record LoggedInUser : Type := mkLoggedIn {
  loggedUserId : nat;
  loggedUserName : string;
  loggedUserEmail : string;
  loggedToken : string
}.

(** [tokenStore], [loggedInUsers] and the in-memory [authController] of
    [server.ts]. *)
Record Logins : Type := mkLogins {
  tokenStore : list (string * TokenUser);
  loggedInUsers : list (string * LoggedInUser);
  authController : AuthController
}.

Definition noLogins : Logins := mkLogins [] [] newAuthController.

(** [s.substring(n)] *)
Fixpoint substring (n : nat) (s : string) : string :=
  match n, s with
  | O, _ => s
  | S n', String _ s' => substring n' s'
  | S _, EmptyString => EmptyString
  end.

(** [tokenAuthMiddleware]: the user the request is handled for, if the
    header names a stored token. *)
Definition tokenAuthMiddleware (authHeader : option string) (l : Logins)
    : option TokenUser :=
  match authHeader with
  | Some header =>
      if nonEmpty header && startsWith header "Bearer "
      then getEntry (substring 7 header) (tokenStore l)
      else None
  | None => None
  end.

(** The tokens [loggedInUsers.forEach] collects for one user. *)
Definition tokensOf (userId : nat) (entries : list (string * LoggedInUser))
    : list string :=
  map fst
    (List.filter (fun entry => Nat.eqb (loggedUserId (snd entry)) userId)
       entries).

(** The tail both login branches share: store the token for the user. *)
Definition remember (token : string) (user : TokenUser) (l : Logins)
    : Logins :=
  mkLogins (setEntry token user (tokenStore l))
    (setEntry token
       (mkLoggedIn (id user) (name user) (email user) token)
       (loggedInUsers l))
    (authController l).

(** [POST /api/auth/login].  [userRow] is what the MySQL repository
    answers for the credentials and [token] what [generateToken] answers;
    [mysql] tells whether the MySQL branch is taken. *)
Record LoginRequest : Type := mkLoginRequest {
  loginEmail : option string;
  loginPassword : option string;
  userRow : option TokenUser;
  newToken : string
}.

Definition loginRoute (mysql : bool) (req : LoginRequest) (l : Logins)
    : Logins * Reply (string * TokenUser) :=
  if negb (truthy (loginEmail req)) || negb (truthy (loginPassword req))
  then (l, BadRequest "Email and password are required")
  else if mysql then
    match userRow req with
    | Some row =>
        let tokensToDelete := tokensOf (id row) (loggedInUsers l) in
        let cleaned :=
          fold_left
            (fun acc token =>
               mkLogins (deleteEntry token (tokenStore acc))
                 (deleteEntry token (loggedInUsers acc)) (authController acc))
            tokensToDelete l in
        let tokenUser := mkUser (id row) (name row) (email row) in
        (remember (newToken req) tokenUser cleaned,
         Ok (newToken req, tokenUser))
    | None => (l, Unauthorized)
    end
  else
    let auth :=
      Accounts.login (given (loginEmail req)) (given (loginPassword req))
        (authController l) in
    let l' := mkLogins (tokenStore l) (loggedInUsers l) auth in
    match currentUser auth with
    | Some user =>
        let tokenUser :=
          mkUser (getUserId user) (getName user) (getEmail user) in
        (remember (newToken req) tokenUser l', Ok (newToken req, tokenUser))
    | None => (l', Unauthorized)
    end.

(** [POST /api/auth/logout]; it always answers success. *)
Definition logoutRoute (authHeader : option string) (l : Logins)
    (st : State) : Logins * State :=
  match tokenAuthMiddleware authHeader l, authHeader with
  | Some tokenUser, Some header =>
      if nonEmpty header then
        let token := substring 7 header in
        (mkLogins (deleteEntry token (tokenStore l))
           (deleteEntry token (loggedInUsers l)) (authController l),
         mkState (currentTopicInfo st) (serverMessageCount st)
           (serverIncorrectCount st)
           (delete (id tokenUser) (activeSessions st))
           (currentConversationId st) (controller st) (engine st))
      else (l, st)
  | _, _ => (l, st)
  end.

(** The ids a [Set] keeps: each once, in order of first appearance. *)
Fixpoint unique (ids : list nat) : list nat :=
  match ids with
  | [] => []
  | i :: rest => i :: List.filter (fun j => negb (Nat.eqb j i)) (unique rest)
  end.

(** [GET /api/admin/online-user-ids] *)
Definition onlineUserIds (l : Logins) : list nat :=
  unique (map (fun entry => loggedUserId (snd entry)) (loggedInUsers l)).

(** Login and logout requests in sequence. *)
Inductive AuthRequest : Type :=
| AuthLogin (req : LoginRequest)
| AuthLogout (authHeader : option string)
| AuthRegister (name email password : option string).

(** Registration on the in-memory branch: [!name || !email || !password]
    is answered 400, otherwise the controller decides. *)
Definition registerRoute (name email password : option string)
    (l : Logins) : Logins * bool :=
  if negb (truthy name) || negb (truthy email) || negb (truthy password)
  then (l, false)
  else
    let (auth, success) :=
      createUser name email password (authController l) in
    (mkLogins (tokenStore l) (loggedInUsers l) auth, success).

Definition serve (mysql : bool) (ls : Logins * State) (r : AuthRequest)
    : Logins * State :=
  match r with
  | AuthLogin req => (fst (loginRoute mysql req (fst ls)), snd ls)
  | AuthLogout header => logoutRoute header (fst ls) (snd ls)
  | AuthRegister name email password =>
      if mysql then ls
      else (fst (registerRoute name email password (fst ls)), snd ls)
  end.

(** The two maps go together: the same tokens in the same order, and the
    entry of a token in [loggedInUsers] is made of the user the token
    stands for and of the token itself. *)
Definition aligned (l : Logins) : Prop :=
  map fst (tokenStore l) = map fst (loggedInUsers l)
  /\ NoDup (map fst (tokenStore l))
  /\ forall token,
       getEntry token (loggedInUsers l)
       = option_map
           (fun user => mkLoggedIn (id user) (name user) (email user) token)
           (getEntry token (tokenStore l)).

(** The logins after a sequence of requests on a new server. *)
Definition served (mysql : bool) (rs : list AuthRequest) (st : State)
    : Logins * State :=
  fold_left (serve mysql) rs (noLogins, st).

End Tokens.

(** ** Counting read on the reply *)

Module Counting.
Import Str AIEngine TurnClassifier Server.











End Counting.

(** ** The chat handler with its failing paths

    [Server.chat] follows a request that is answered 401, 400 or 200.
    Here the handler is followed as well where it ends in its [catch],
    which answers 500: when [incrementMessageCount] throws, when the
    classification reads a field of a [null] entry of the AI's mistake
    list, and when saving the mistakes throws.  The counters and the
    engine keep what was written before the throw. *)

Module ChatHandler.
Import Str AIEngine TurnClassifier Server.
Local Open Scope Z_scope.

(** An entry of the array under [mistakes] in the AI's JSON: [null], or a
    value read through its fields (a string or a number has none of
    them). *)
Inductive Entry : Type :=
| NullEntry
| ObjectEntry (m : AiMistake).

Definition isNull (e : Entry) : bool :=
  match e with NullEntry => true | ObjectEntry _ => false end.

(** The engine and the length tests of the handler read
    [mistakes.length] only; for them a [null] counts like any entry. *)
Definition blank : AiMistake :=
  mkAiMistake None None None None None None None.

Definition counted (e : Entry) : AiMistake :=
  match e with NullEntry => blank | ObjectEntry m => m end.

(** Reading a field of every entry in turn: a TypeError at the first
    [null]. *)
Fixpoint objects (entries : list Entry) : option (list AiMistake) :=
  match entries with
  | [] => Some []
  | NullEntry :: _ => None
  | ObjectEntry m :: rest =>
      match objects rest with
      | Some ms => Some (m :: ms)
      | None => None
      end
  end.

Record RawParsed : Type := mkRawParsed {
  raw_feedback : option string;
  raw_sentence_status : option string;
  raw_mistakes : option (list Entry)
}.

Inductive RawResult : Type :=
| RawThrows
| RawText (response : string) (parsed : option RawParsed).

Definition entriesOf (g : RawResult) : list Entry :=
  match g with
  | RawText _ (Some p) =>
      match raw_mistakes p with Some entries => entries | None => [] end
  | _ => []
  end.

(** What [AIEngine.analyzeAndRespond] makes of the answer: it never reads
    an entry. *)
Definition toEngine (g : RawResult) : GeminiResult :=
  match g with
  | RawThrows => GeminiThrows
  | RawText response parsed =>
      GeminiText response
        (option_map
           (fun p =>
              mkParsed (raw_feedback p) (raw_sentence_status p)
                (option_map (map counted) (raw_mistakes p)))
           parsed)
  end.

Definition withMistakes (ms : list AiMistake) (a : Analysis) : Analysis :=
  mkAnalysis (an_sentence_status a) (Some ms) (an_feedback a)
    (an_short_feedback a) (an_feedback_type a) (an_grammar_category a).

(** The classification on the entries as the AI sent them; [None] when
    it throws.  [mistakes[0].original_text] throws on a [null] first
    entry, and the [mistakes.map] of the structured branch throws on any
    [null]; the other branches read no entry. *)
Definition classifyEntries (text : string) (analysis : Analysis)
    (entries : list Entry) : option Classified :=
  match entries with
  | [] => Some (classify text (withMistakes [] analysis))
  | NullEntry :: _ => None
  | ObjectEntry first :: _ =>
      if structuredGuard [first] then
        match objects entries with
        | Some ms => Some (classify text (withMistakes ms analysis))
        | None => None
        end
      else Some (classify text (withMistakes (map counted entries) analysis))
  end.

(** The list the reply carries: a [null] that no branch has read is
    passed on as it is. *)
Definition repliedList (c : Classified) (entries : list Entry)
    : list (option Mistake) :=
  if existsb isNull entries
  then map (fun e =>
              match e with
              | NullEntry => None
              | ObjectEntry m => Some (ofAi m)
              end) entries
  else map Some (mistakes c).

Record RawChat : Type := mkRawChat {
  rawUser : option TokenUser;
  rawText : string;
  rawGemini : RawResult;
  incrementThrows : bool;
  saveThrows : bool
}.

(** A reply of the handler itself, or the 500 of its [catch]. *)
Inductive Outcome (A : Type) : Type :=
| Replied (reply : Reply A)
| ServerError.
Arguments Replied {A} reply.
Arguments ServerError {A}.

Record RawBody : Type := mkRawBody {
  body : ChatBody;
  repliedMistakes : list (option Mistake)
}.

(** [mysqlAvailable && conversationRepository && currentConversationId],
    and the same test with [grammarMistakeRepository]: an id is only
    stored once the repositories exist, so the test is whether an id
    other than 0 is stored.  The flags of a request say what a call to
    the database does if it is made. *)
Definition stored (st : State) : bool :=
  match currentConversationId st with
  | Some cid => negb (cid =? 0)%nat
  | None => false
  end.

(** The loop that saves the mistakes: it runs when the turn had a
    correction and a conversation is stored; it throws at a [null] entry
    and when the repository throws. *)
Definition saveFails (st : State) (req : RawChat) (c : Classified) : bool :=
  hadCorrection c && stored st
  && (existsb isNull (entriesOf (rawGemini req))
      || (saveThrows req && (0 <? length (mistakes c))%nat)).

Definition chatRaw (st : State) (req : RawChat)
    : State * Outcome RawBody :=
  match rawUser req with
  | None => (st, Replied Unauthorized)
  | Some user =>
      if chatGuard st then (st, Replied (BadRequest noActiveSession))
      else
        let text := rawText req in
        let eng := recordUserMessage text (engine st) in
        let messageCount := serverMessageCount st + 1 in
        if stored st && incrementThrows req then
          (mkState (currentTopicInfo st) messageCount
             (serverIncorrectCount st) (activeSessions st)
             (currentConversationId st) (controller st) eng,
           ServerError)
        else
          let (eng', analysis) :=
            analyzeAndRespond (toEngine (rawGemini req)) eng in
          match classifyEntries text analysis (entriesOf (rawGemini req)) with
          | None =>
              (mkState (currentTopicInfo st) messageCount
                 (serverIncorrectCount st) (activeSessions st)
                 (currentConversationId st) (controller st) eng',
               ServerError)
          | Some c =>
              let incorrect :=
                if countsAsIncorrect c then serverIncorrectCount st + 1
                else serverIncorrectCount st in
              let st' :=
                mkState (currentTopicInfo st) messageCount incorrect
                  (activeSessions st) (currentConversationId st)
                  (controller st) eng' in
              if saveFails st req c then (st', ServerError)
              else
                (st',
                 Replied
                   (Ok (mkRawBody
                          (mkChatBody text (an_feedback analysis) c
                             (if String.eqb (sentenceStatus c) "correct"
                                 && (length (mistakes c) =? 0)%nat
                              then 100
                              else Z.max 0
                                     (100
                                      - Z.of_nat (length (mistakes c)) * 20))
                             (hadCorrection c) (countsAsIncorrect c)
                             (accuracy messageCount incorrect) messageCount
                             (messageCount - incorrect) incorrect
                             (length (mistakes c)))
                          (repliedList c (entriesOf (rawGemini req))))))
          end
  end.

(** A request of [Server.chat] as a request of the handler: every entry
    an object, no call throwing. *)
Definition plainResult (g : GeminiResult) : RawResult :=
  match g with
  | GeminiThrows => RawThrows
  | GeminiText response parsed =>
      RawText response
        (option_map
           (fun p =>
              mkRawParsed (p_feedback p) (p_sentence_status p)
                (option_map (map ObjectEntry) (p_mistakes p)))
           parsed)
  end.

Definition plainChat (req : ChatRequest) : RawChat :=
  mkRawChat (chatUser req) (chatText req) (plainResult (gemini req))
    false false.

(** *** Requests in sequence, each handled to its end

    A start request whose [conversationRepository.create] throws has
    done everything before that line and nothing after it; an end request
    whose saving throws, or which has no stored conversation, leaves
    [currentConversationId] as it is. *)

Definition withoutConversation (q : StartRequest) : StartRequest :=
  mkStart (startUser q) (startTopicId q) (resolvedTopic q) None.

Definition startRaw (st : State) (q : StartRequest) (createThrows : bool)
    : State :=
  fst (start st (if createThrows then withoutConversation q else q)).

Definition endRaw (st : State) (user : option TokenUser)
    (completeThrows : bool) : State :=
  match user with
  | None => st
  | Some u =>
      let st' := fst (finish st (Some u)) in
      mkState (currentTopicInfo st') (serverMessageCount st')
        (serverIncorrectCount st') (activeSessions st')
        (if stored st && negb completeThrows then None
         else currentConversationId st)
        (controller st') (engine st')
  end.

Inductive RawRequest : Type :=
| RawStart (q : StartRequest) (createThrows : bool)
| RawChatting (q : RawChat)
| RawEnd (user : option TokenUser) (completeThrows : bool).

Definition handleRaw (st : State) (r : RawRequest) : State :=
  match r with
  | RawStart q createThrows => startRaw st q createThrows
  | RawChatting q => fst (chatRaw st q)
  | RawEnd u completeThrows => endRaw st u completeThrows
  end.

Definition runRaw (st : State) (rs : list RawRequest) : State :=
  fold_left handleRaw rs st.

Definition throwsEarly (r : RawRequest) : bool :=
  match r with
  | RawChatting q => incrementThrows q
  | _ => false
  end.

(** *** Requests that overlap

    A handler runs without interruption from one [await] to the next.
    These are the pieces of the three handlers that write the state; a
    run of the server with requests in flight together applies them in
    some order. *)
Inductive Segment : Type :=
| SegReset (q : StartRequest)
| SegStored (cid : option nat)
| SegActive (user : TokenUser) (q : StartRequest) (cid : option nat)
| SegRecorded (text : string)
| SegAnswered (g : RawResult)
| SegCounted
| SegEnded (user : TokenUser)
| SegCleared.

Definition withConversation (cid : option nat) (st : State) : State :=
  mkState (currentTopicInfo st) (serverMessageCount st)
    (serverIncorrectCount st) (activeSessions st) cid (controller st)
    (engine st).

Definition withEngine (eng : Engine) (st : State) : State :=
  mkState (currentTopicInfo st) (serverMessageCount st)
    (serverIncorrectCount st) (activeSessions st) (currentConversationId st)
    (controller st) eng.

Definition applySegment (st : State) (s : Segment) : State :=
  match s with
  | SegReset q => fst (start st (withoutConversation q))
  | SegStored cid => withConversation cid st
  | SegActive user q cid =>
      mkState (currentTopicInfo st) (serverMessageCount st)
        (serverIncorrectCount st)
        (<[ id user :=
              mkActive (id user) (name user) (email user) (startTopicId q)
                (topicName (resolvedTopic q)) cid ]> (activeSessions st))
        (currentConversationId st) (controller st) (engine st)
  | SegRecorded text =>
      mkState (currentTopicInfo st) (serverMessageCount st + 1)
        (serverIncorrectCount st) (activeSessions st)
        (currentConversationId st) (controller st)
        (recordUserMessage text (engine st))
  | SegAnswered g =>
      withEngine (fst (analyzeAndRespond (toEngine g) (engine st))) st
  | SegCounted =>
      mkState (currentTopicInfo st) (serverMessageCount st)
        (serverIncorrectCount st + 1) (activeSessions st)
        (currentConversationId st) (controller st) (engine st)
  | SegEnded user =>
      withConversation (currentConversationId st)
        (fst (finish st (Some user)))
  | SegCleared => withConversation None st
  end.

Definition applySegments (st : State) (segs : list Segment) : State :=
  fold_left applySegment segs st.

(** The pieces a request runs through when it is handled alone. *)
Definition segmentsOf (st : State) (r : RawRequest) : list Segment :=
  match r with
  | RawStart q createThrows =>
      match startUser q with
      | None => []
      | Some user =>
          if (startTopicId q =? 0)%nat then []
          else
            SegReset q
            :: (if createThrows then []
                else match createdConversation q with
                     | Some cid =>
                         [SegStored (Some cid); SegActive user q (Some cid)]
                     | None => []
                     end)
      end
  | RawChatting q =>
      match rawUser q with
      | None => []
      | Some _ =>
          if chatGuard st then []
          else
            SegRecorded (rawText q)
            :: (if stored st && incrementThrows q then []
                else
                  SegAnswered (rawGemini q)
                  :: match
                       classifyEntries (rawText q)
                         (snd (analyzeAndRespond (toEngine (rawGemini q))
                                 (recordUserMessage (rawText q) (engine st))))
                         (entriesOf (rawGemini q))
                     with
                     | Some c => if countsAsIncorrect c then [SegCounted] else []
                     | None => []
                     end)
      end
  | RawEnd u completeThrows =>
      match u with
      | None => []
      | Some user =>
          SegEnded user
          :: (if stored st && negb completeThrows then [SegCleared] else [])
      end
  end.

(** What every piece keeps true, in whatever order the pieces come. *)
Definition kept (st : State) : Prop :=
  currentSession (controller st) = None
  /\ currentUser (controller st) = None
  /\ userMessageCount (engine st) = serverMessageCount st
  /\ 0 <= serverMessageCount st
     <= Z.of_nat (length (conversationHistory (engine st)))
  /\ 0 <= incorrectCount (engine st)
  /\ 0 <= serverIncorrectCount st.

(** What every request handled alone keeps true, also one that ends in a
    500. *)
Definition followed (st : State) : Prop :=
  kept st
  /\ Z.of_nat (length (conversationHistory (engine st)))
     <= 2 * serverMessageCount st
  /\ incorrectCount (engine st) <= userMessageCount (engine st)
  /\ serverIncorrectCount st <= serverMessageCount st.

(** Two history lines for every counted message. *)
Definition paired (st : State) : Prop :=
  Z.of_nat (length (conversationHistory (engine st)))
  = 2 * serverMessageCount st.

(** A list with a [null] in front, and one with a [null] behind a
    complete entry. *)
Definition nullFirst : RawChat :=
  mkRawChat (Some Samples.alice) "I go home"
    (RawText "raw"
       (Some (mkRawParsed (Some "Nice.") (Some "has_errors")
                (Some [NullEntry]))))
    false false.

Definition nullBehind : list Entry :=
  [ObjectEntry Samples.complete; NullEntry].

(** A session with a turn that ends in a 500 and a turn that is
    answered. *)
Definition brokenSession : list RawRequest :=
  [ RawStart (mkStart (Some Samples.alice) 1 Samples.daily (Some 10%nat))
      false;
    RawChatting nullFirst;
    RawChatting (plainChat Samples.schoolTurn);
    RawEnd (Some Samples.alice) true ].

End ChatHandler.

(** * Facts *)

(** ** Rounding to a double *)

Section Rounding.
Import Binary64 Server.
Local Open Scope Q_scope.

Lemma pow2_pos e : 0 < pow2 e.
Proof. apply Qpower_0_lt. reflexivity. Qed.

Lemma pow2_add a b : pow2 (a + b) == pow2 a * pow2 b.
Proof. apply Qpower_plus. discriminate. Qed.

Lemma pow2_cancel e : pow2 (- e) * pow2 e == 1.
Proof. rewrite <- pow2_add. replace (- e + e)%Z with 0%Z by lia. reflexivity. Qed.

Lemma pow2_le a b : (a <= b)%Z -> pow2 a <= pow2 b.
Proof. intros H. apply Qpower_le_compat_l; [exact H | discriminate]. Qed.

Lemma pow2_inject n : (0 <= n)%Z -> pow2 n == inject_Z (2 ^ n).
Proof. intros H. unfold pow2. rewrite Zpower_Qpower by exact H. reflexivity. Qed.

Lemma floor_ge_int (k : Z) (y : Q) : inject_Z k <= y -> (k <= Qfloor y)%Z.
Proof. intros H. rewrite <- (Qfloor_Z k). apply Qfloor_resp_le, H. Qed.

Lemma ceiling_le_int (k : Z) (y : Q) : y <= inject_Z k -> (Qceiling y <= k)%Z.
Proof. intros H. rewrite <- (Qceiling_Z k). apply Qceiling_resp_le, H. Qed.

Lemma nearestEven_ge_floor y : (Qfloor y <= nearestEven y)%Z.
Proof.
  unfold nearestEven.
  destruct (Qcompare (y - inject_Z (Qfloor y)) (1 # 2)); [destruct (Z.even _)| |]; lia.
Qed.

Lemma nearestEven_le_ceiling y : (nearestEven y <= Qceiling y)%Z.
Proof.
  pose proof (Qle_floor_ceiling y) as Hfc. rewrite <- Zle_Qle in Hfc.
  unfold nearestEven.
  destruct (Qcompare (y - inject_Z (Qfloor y)) (1 # 2)) eqn:E.
  - destruct (Z.even _); [exact Hfc|].
    apply Qeq_alt in E.
    assert (inject_Z (Qfloor y) < inject_Z (Qceiling y)) as H.
    { pose proof (Qle_ceiling y). lra. }
    rewrite <- Zlt_Qlt in H. lia.
  - exact Hfc.
  - apply Qgt_alt in E.
    assert (inject_Z (Qfloor y) < inject_Z (Qceiling y)) as H.
    { pose proof (Qle_ceiling y). lra. }
    rewrite <- Zlt_Qlt in H. lia.
Qed.

Lemma expo_lower x : 0 < x -> pow2 52 <= x * pow2 (- expo x).
Proof.
  intros Hx. unfold expo.
  set (la := Z.log2 (Qnum x)). set (lb := Z.log2 (Zpos (Qden x))).
  set (e0 := (la - lb - 52)%Z).
  destruct (Qle_bool (pow2 52) (x * pow2 (- e0))) eqn:E.
  - apply Qle_bool_iff, E.
  - assert (0 < Qnum x)%Z as Ha.
    { destruct x as [a b]. unfold Qlt in Hx. simpl in *. lia. }
    destruct (Z.log2_spec (Qnum x) Ha) as [Ha1 _]. fold la in Ha1.
    destruct (Z.log2_spec (Zpos (Qden x)) (Pos2Z.is_pos _)) as [_ Hb2]. fold lb in Hb2.
    assert (0 <= la)%Z as Hla by apply Z.log2_nonneg.
    assert (0 <= lb)%Z as Hlb by apply Z.log2_nonneg.
    assert (x == inject_Z (Qnum x) / inject_Z (Zpos (Qden x))) as Hxq.
    { destruct x as [a b]. simpl. apply Qmake_Qdiv. }
    assert (pow2 la <= inject_Z (Qnum x)) as H1.
    { rewrite pow2_inject by exact Hla. rewrite <- Zle_Qle. exact Ha1. }
    assert (inject_Z (Zpos (Qden x)) <= pow2 (lb + 1)) as H2.
    { rewrite pow2_inject by lia. rewrite <- Zle_Qle. unfold Z.succ in Hb2. lia. }
    assert (0 < inject_Z (Zpos (Qden x))) as H3.
    { rewrite <- (Zlt_Qlt 0). apply Pos2Z.is_pos. }
    replace (- (e0 - 1))%Z with ((lb + 1) + 52 + - la)%Z by (unfold e0; lia).
    rewrite (pow2_add (lb + 1 + 52) (- la)), (pow2_add (lb + 1) 52).
    pose proof (pow2_pos la) as P1. pose proof (pow2_pos (lb + 1)) as P2.
    pose proof (pow2_pos 52) as P3.
    pose proof (pow2_cancel la) as P4.
    set (A := inject_Z (Qnum x)) in *. set (B := inject_Z (Zpos (Qden x))) in *.
    set (L := pow2 la) in *. set (M := pow2 (lb + 1)) in *.
    set (C := pow2 52) in *. set (Li := pow2 (- la)) in *.
    rewrite Hxq.
    assert (0 < Li) as P5 by apply pow2_pos.
    assert (1 <= A * Li) as H4.
    { assert (0 <= (A - L) * Li) as H by (apply Qmult_le_0_compat; lra).
      nra. }
    assert (1 <= M / B) as H5.
    { apply Qle_shift_div_l; [exact H3 | lra]. }
    assert (A / B * (M * C * Li) == C * ((A * Li) * (M / B))) as H7
      by (field; lra).
    rewrite H7.
    assert (1 <= (A * Li) * (M / B)) as H6 by nra.
    nra.
Qed.

Lemma roundPos_eq x :
  roundPos x == inject_Z (nearestEven (x * pow2 (- expo x))) * pow2 (expo x).
Proof. unfold roundPos. apply Qred_correct. Qed.

Lemma scaled_back x e : x * pow2 (- e) * pow2 e == x.
Proof. rewrite <- Qmult_assoc, pow2_cancel. ring. Qed.

Lemma repr_scaled m j e :
  (e <= j)%Z -> inject_Z m * pow2 j * pow2 (- e) == inject_Z (m * 2 ^ (j - e)).
Proof.
  intros H. rewrite inject_Z_mult, <- pow2_inject by lia.
  rewrite <- Qmult_assoc, <- pow2_add.
  replace (j + - e)%Z with (j - e)%Z by lia. reflexivity.
Qed.

Lemma repr_small m j e :
  (0 <= m < 2 ^ 53)%Z -> (j < e)%Z -> inject_Z m * pow2 j < pow2 52 * pow2 e.
Proof.
  intros [Hm0 Hm] Hj.
  assert (inject_Z m < pow2 53) as H1.
  { rewrite pow2_inject by lia. rewrite <- Zlt_Qlt. exact Hm. }
  assert (pow2 53 * pow2 j <= pow2 52 * pow2 e) as H2.
  { rewrite <- !pow2_add. apply pow2_le. lia. }
  pose proof (pow2_pos j) as Pj.
  assert (inject_Z m * pow2 j < pow2 53 * pow2 j) as H3.
  { apply Qmult_lt_compat_r; assumption. }
  lra.
Qed.

Lemma roundPos_le_repr x y m j :
  0 < x -> x <= y -> (0 <= m < 2 ^ 53)%Z -> y == inject_Z m * pow2 j ->
  roundPos x <= y.
Proof.
  intros Hx Hxy Hm Hy.
  pose proof (expo_lower x Hx) as Hz.
  set (e := expo x) in *. set (z := x * pow2 (- e)) in *.
  pose proof (pow2_pos e) as Pe. pose proof (pow2_pos (- e)) as Pne.
  rewrite roundPos_eq. fold e. fold z.
  destruct (Z_le_gt_dec e j) as [Hej | Hej].
  - assert (z <= inject_Z (m * 2 ^ (j - e))) as Hzk.
    { rewrite <- repr_scaled by exact Hej. rewrite <- Hy. unfold z.
      apply Qmult_le_compat_r; [exact Hxy | lra]. }
    apply ceiling_le_int in Hzk.
    pose proof (nearestEven_le_ceiling z) as Hn.
    assert (inject_Z (nearestEven z) <= inject_Z (m * 2 ^ (j - e))) as H1.
    { rewrite <- Zle_Qle. lia. }
    rewrite <- repr_scaled in H1 by exact Hej. rewrite <- Hy in H1.
    rewrite <- (scaled_back y e).
    apply Qmult_le_compat_r; [exact H1 | lra].
  - exfalso.
    pose proof (repr_small m j e Hm ltac:(lia)) as Hs. rewrite <- Hy in Hs.
    assert (pow2 52 * pow2 e <= x) as H2.
    { rewrite <- (scaled_back x e). fold z.
      apply Qmult_le_compat_r; [exact Hz | lra]. }
    lra.
Qed.

Lemma roundPos_ge_repr x y m j :
  0 < x -> y <= x -> (0 <= m < 2 ^ 53)%Z -> y == inject_Z m * pow2 j ->
  y <= roundPos x.
Proof.
  intros Hx Hxy Hm Hy.
  pose proof (expo_lower x Hx) as Hz.
  set (e := expo x) in *. set (z := x * pow2 (- e)) in *.
  pose proof (pow2_pos e) as Pe. pose proof (pow2_pos (- e)) as Pne.
  rewrite roundPos_eq. fold e. fold z.
  pose proof (nearestEven_ge_floor z) as Hn.
  destruct (Z_le_gt_dec e j) as [Hej | Hej].
  - assert (inject_Z (m * 2 ^ (j - e)) <= z) as Hzk.
    { rewrite <- repr_scaled by exact Hej. rewrite <- Hy. unfold z.
      apply Qmult_le_compat_r; [exact Hxy | lra]. }
    apply floor_ge_int in Hzk.
    assert (inject_Z (m * 2 ^ (j - e)) <= inject_Z (nearestEven z)) as H1.
    { rewrite <- Zle_Qle. lia. }
    rewrite <- repr_scaled in H1 by exact Hej. rewrite <- Hy in H1.
    rewrite <- (scaled_back y e).
    apply Qmult_le_compat_r; [exact H1 | lra].
  - pose proof (repr_small m j e Hm ltac:(lia)) as Hs. rewrite <- Hy in Hs.
    assert (inject_Z (2 ^ 52) <= z) as Hz'.
    { rewrite <- pow2_inject by lia. exact Hz. }
    apply floor_ge_int in Hz'.
    assert (pow2 52 <= inject_Z (nearestEven z)) as H1.
    { rewrite pow2_inject by lia. rewrite <- Zle_Qle. lia. }
    assert (pow2 52 * pow2 e <= inject_Z (nearestEven z) * pow2 e) as H2.
    { apply Qmult_le_compat_r; [exact H1 | lra]. }
    lra.
Qed.

Lemma representable_Z (k : Z) : (0 <= k < 2 ^ 53)%Z -> representable (inject_Z k).
Proof. intros H. exists k, 0%Z. split; [exact H|]. unfold pow2. simpl. ring. Qed.

Lemma round_le_repr x y : 0 <= x -> x <= y -> representable y -> round x <= y.
Proof.
  intros Hx Hxy (m & j & Hm & Hy). unfold round.
  destruct (Qcompare x 0) eqn:E.
  - lra.
  - apply Qlt_alt in E. lra.
  - apply Qgt_alt in E. eapply roundPos_le_repr; eauto.
Qed.

Lemma round_ge_repr x y : 0 <= y -> y <= x -> representable y -> y <= round x.
Proof.
  intros Hy0 Hxy (m & j & Hm & Hy). unfold round.
  destruct (Qcompare x 0) eqn:E.
  - apply Qeq_alt in E. lra.
  - apply Qlt_alt in E. lra.
  - apply Qgt_alt in E. eapply roundPos_ge_repr; eauto.
Qed.

Lemma round_nonneg x : 0 <= x -> 0 <= round x.
Proof.
  intros H. apply round_ge_repr; [lra | exact H |].
  apply (representable_Z 0). lia.
Qed.

Lemma Math_round_range (p : Q) (hi : Z) :
  0 <= p -> p <= inject_Z hi -> (0 <= Math_round p <= hi)%Z.
Proof.
  intros H0 H1. unfold Math_round. split.
  - apply floor_ge_int. change (inject_Z 0) with 0. lra.
  - assert (Qfloor (p + (1 # 2)) < hi + 1)%Z as H; [|lia].
    rewrite Zlt_Qlt. pose proof (Qfloor_le (p + (1 # 2))) as Hf.
    rewrite inject_Z_plus. change (inject_Z 1) with 1. lra.
Qed.

Lemma accuracy_range (total incorrect : Z) :
  (0 <= incorrect <= total)%Z -> (0 <= accuracy total incorrect <= 100)%Z.
Proof.
  intros [Hi Hn]. unfold accuracy.
  destruct (0 <? total)%Z eqn:E; [|lia].
  apply Z.ltb_lt in E.
  set (c := (total - incorrect)%Z).
  assert (0 <= inject_Z c) as Hc0 by (rewrite <- (Zle_Qle 0); unfold c; lia).
  assert (inject_Z c <= inject_Z total) as Hcn by (rewrite <- Zle_Qle; unfold c; lia).
  assert (0 < inject_Z total) as Hn0 by (rewrite <- (Zlt_Qlt 0); exact E).
  assert (0 <= inject_Z c / inject_Z total) as Hq0.
  { apply Qle_shift_div_l; [exact Hn0 | lra]. }
  assert (inject_Z c / inject_Z total <= 1) as Hq1.
  { apply Qle_shift_div_r; [exact Hn0 | lra]. }
  pose proof (round_nonneg _ Hq0) as Hr0.
  assert (fdiv (inject_Z c) (inject_Z total) <= 1) as Hr1.
  { apply round_le_repr; [exact Hq0 | exact Hq1 |].
    apply (representable_Z 1). lia. }
  fold (fdiv (inject_Z c) (inject_Z total)) in Hr0.
  set (q := fdiv (inject_Z c) (inject_Z total)) in *.
  apply Math_round_range.
  - apply round_nonneg. change (inject_Z 100) with 100. lra.
  - apply round_le_repr.
    + change (inject_Z 100) with 100. lra.
    + change (inject_Z 100) with 100. lra.
    + apply (representable_Z 100). lia.
Qed.

Lemma nearestEven_close y :
  - (1 # 2) <= inject_Z (nearestEven y) - y /\ inject_Z (nearestEven y) - y <= 1 # 2.
Proof.
  pose proof (Qfloor_le y) as Hf. pose proof (Qlt_floor y) as Hl.
  rewrite inject_Z_plus in Hl. change (inject_Z 1) with 1 in Hl.
  unfold nearestEven.
  destruct (Qcompare (y - inject_Z (Qfloor y)) (1 # 2)) eqn:E.
  - apply Qeq_alt in E. destruct (Z.even _).
    + lra.
    + rewrite inject_Z_plus. change (inject_Z 1) with 1. lra.
  - apply Qlt_alt in E. lra.
  - apply Qgt_alt in E. rewrite inject_Z_plus. change (inject_Z 1) with 1. lra.
Qed.

Lemma roundPos_err x :
  0 < x -> x - x * eps <= roundPos x /\ roundPos x <= x + x * eps.
Proof.
  intros Hx.
  pose proof (expo_lower x Hx) as Hz.
  set (e := expo x) in *. set (z := x * pow2 (- e)) in *.
  pose proof (pow2_pos e) as Pe.
  rewrite roundPos_eq. fold e. fold z.
  destruct (nearestEven_close z) as [H1 H2].
  set (n := inject_Z (nearestEven z)) in *.
  assert (x == z * pow2 e) as Hxz by (unfold z; rewrite scaled_back; reflexivity).
  assert (pow2 e * (1 # 2) <= x * eps) as Hb.
  { assert (pow2 52 * eps == 1 # 2) as Hc by reflexivity.
    assert (0 < eps) as He by (apply pow2_pos).
    assert (pow2 52 * pow2 e <= x) as H3.
    { rewrite Hxz. apply Qmult_le_compat_r; [exact Hz | lra]. }
    assert (pow2 52 * pow2 e * eps <= x * eps) as H4.
    { apply Qmult_le_compat_r; [exact H3 | lra]. }
    assert (pow2 52 * pow2 e * eps == pow2 e * (1 # 2)) as H5.
    { rewrite <- Hc. ring. }
    lra. }
  assert (- (pow2 e * (1 # 2)) <= (n - z) * pow2 e) as H3 by nra.
  assert ((n - z) * pow2 e <= pow2 e * (1 # 2)) as H4 by nra.
  assert (n * pow2 e == x + (n - z) * pow2 e) as H5 by (rewrite Hxz; ring).
  lra.
Qed.

Lemma round_err x :
  0 <= x -> x - x * eps <= round x /\ round x <= x + x * eps.
Proof.
  intros Hx. unfold round.
  destruct (Qcompare x 0) eqn:E.
  - apply Qeq_alt in E. assert (x * eps == 0) by (rewrite E; ring). lra.
  - apply Qlt_alt in E. lra.
  - apply Qgt_alt in E. apply roundPos_err, E.
Qed.

Lemma floor_close (a b : Q) :
  a - b < 1 -> b - a < 1 -> (Qfloor a - Qfloor b <= 1)%Z /\ (Qfloor b - Qfloor a <= 1)%Z.
Proof.
  intros H1 H2.
  pose proof (Qfloor_le a) as Ha. pose proof (Qlt_floor a) as Ha'.
  pose proof (Qfloor_le b) as Hb. pose proof (Qlt_floor b) as Hb'.
  rewrite inject_Z_plus in Ha', Hb'. change (inject_Z 1) with 1 in *.
  split.
  - assert (inject_Z (Qfloor a) < inject_Z (Qfloor b + 2)) as H.
    { rewrite inject_Z_plus. change (inject_Z 2) with 2. lra. }
    rewrite <- Zlt_Qlt in H. lia.
  - assert (inject_Z (Qfloor b) < inject_Z (Qfloor a + 2)) as H.
    { rewrite inject_Z_plus. change (inject_Z 2) with 2. lra. }
    rewrite <- Zlt_Qlt in H. lia.
Qed.

Lemma accuracy_near_exact (total incorrect : Z) :
  (0 <= incorrect <= total)%Z ->
  (Z.abs (accuracy total incorrect - Spec.exactScore total incorrect) <= 1)%Z.
Proof.
  intros [Hi Hn]. unfold accuracy, Spec.exactScore.
  destruct (0 <? total)%Z eqn:E; [|simpl; lia].
  apply Z.ltb_lt in E.
  set (c := (total - incorrect)%Z).
  assert (0 <= inject_Z c) as Hc0 by (rewrite <- (Zle_Qle 0); unfold c; lia).
  assert (inject_Z c <= inject_Z total) as Hcn by (rewrite <- Zle_Qle; unfold c; lia).
  assert (0 < inject_Z total) as Hn0 by (rewrite <- (Zlt_Qlt 0); exact E).
  set (x0 := inject_Z c / inject_Z total).
  assert (0 <= x0) as Hq0 by (apply Qle_shift_div_l; [exact Hn0 | lra]).
  assert (x0 <= 1) as Hq1 by (apply Qle_shift_div_r; [exact Hn0 | lra]).
  assert (inject_Z (100 * c) / inject_Z total == 100 * x0) as Hex.
  { unfold x0. rewrite inject_Z_mult. change (inject_Z 100) with 100.
    field. lra. }
  unfold fdiv, fmul. fold x0. change (inject_Z 100) with 100.
  destruct (round_err x0 Hq0) as [Q1 Q2].
  set (q := round x0) in *.
  assert (0 <= q) as Hq by (apply round_nonneg, Hq0).
  assert (0 <= q * 100) as Hq100 by lra.
  destruct (round_err (q * 100) Hq100) as [P1 P2].
  set (p := round (q * 100)) in *.
  assert (0 < eps) as He by apply pow2_pos.
  assert (eps <= 1 # 1000) as He' by (unfold eps, pow2; simpl; unfold Qle; simpl; lia).
  assert (0 <= x0 * eps <= eps) as [X1 X2] by nra.
  assert (q <= 2) as Hq2 by lra.
  assert (0 <= q * 100 * eps <= 200 * eps) as [Y1 Y2] by nra.
  unfold Math_round.
  assert (Qfloor (inject_Z (100 * c) / inject_Z total + (1 # 2))
          = Qfloor (100 * x0 + (1 # 2))) as Hfl.
  { apply Qfloor_comp. rewrite Hex. reflexivity. }
  rewrite Hfl.
  destruct (floor_close (p + (1 # 2)) (100 * x0 + (1 # 2))) as [F1 F2]; [lra | lra |].
  lia.
Qed.

End Rounding.

(** ** The grammar score does not depend on the random numbers *)

Section GrammarScore.
Import Binary64 FeedbackEngine.
Local Open Scope Q_scope.

Lemma random_score_bounds (r : Q) :
  0 <= r -> r < 1 ->
  85 <= fadd (inject_Z 85) (fmul r (inject_Z 15))
  /\ fadd (inject_Z 85) (fmul r (inject_Z 15)) <= 100.
Proof.
  intros H0 H1. change (inject_Z 85) with 85. change (inject_Z 15) with 15.
  assert (0 <= r * 15) as Hm0 by lra.
  pose proof (round_nonneg _ Hm0) as Hp0.
  assert (fmul r 15 <= 15) as Hp1.
  { apply round_le_repr; [exact Hm0 | lra | apply (representable_Z 15); lia]. }
  fold (fmul r 15) in Hp0.
  split.
  - apply round_ge_repr; [lra | lra | apply (representable_Z 85); lia].
  - apply round_le_repr; [lra | lra | apply (representable_Z 100); lia].
Qed.

Lemma below80_determined (sentence : string) (r : Q) :
  0 <= r -> r < 1 ->
  ltb (analyzeSentenceStructure sentence r) (inject_Z 80)
  = negb (drawsRandom sentence).
Proof.
  intros H0 H1. unfold analyzeSentenceStructure, drawsRandom.
  destruct (length _ <? 3)%nat; [reflexivity|].
  destruct (25 <? length _)%nat; [reflexivity|].
  destruct (random_score_bounds r H0 H1) as [Hlo _].
  simpl negb. unfold ltb.
  destruct (Qle_bool (inject_Z 80) _) eqn:E; [reflexivity|].
  exfalso. apply not_true_iff_false in E. apply E.
  apply Qle_bool_iff. change (inject_Z 80) with 80. lra.
Qed.

Lemma sentenceStep_deterministic (random1 random2 : nat -> Q)
    (acc : Running) (sentence : string) :
  unitInterval random1 -> unitInterval random2 ->
  sentenceStep random1 acc sentence = sentenceStep random2 acc sentence.
Proof.
  intros U1 U2. unfold sentenceStep.
  destruct (0 <? String.length (Str.trim sentence))%nat; [|reflexivity].
  destruct (U1 (draws acc)) as [A1 A2]. destruct (U2 (draws acc)) as [B1 B2].
  rewrite !below80_determined by assumption. reflexivity.
Qed.

Lemma evaluate_deterministic (random1 random2 : nat -> Q) (text : string) :
  unitInterval random1 -> unitInterval random2 ->
  evaluate random1 text = evaluate random2 text.
Proof.
  intros U1 U2. unfold evaluate.
  generalize (fold_left (patternStep text) grammarPatterns (mkRunning 100 [] 0)).
  induction (split isTerminator text) as [|s ss IH]; intros acc.
  - reflexivity.
  - simpl. rewrite (sentenceStep_deterministic random1 random2) by assumption.
    apply IH.
Qed.

(** C10. Two runs of [evaluateGrammar] on the same text return the same
    score value and were built from the same issue list, whatever
    [Math.random] answers in the two runs: a sentence of 3 to 25 words gets
    a score of at least 85 (and at most 100), which is never below the
    threshold of 80. *)
Theorem evaluateGrammar_ignores_random
    (random1 random2 : nat -> Q) (text : string) :
  unitInterval random1 -> unitInterval random2 ->
  value (evaluateGrammar random1 text) = value (evaluateGrammar random2 text)
  /\ issuesOf random1 text = issuesOf random2 text
  /\ evaluateGrammar random1 text = evaluateGrammar random2 text
  /\ (forall sentence k, drawsRandom sentence = true ->
        85 <= analyzeSentenceStructure sentence (random1 k)
        /\ analyzeSentenceStructure sentence (random1 k) <= 100
        /\ ltb (analyzeSentenceStructure sentence (random1 k)) (inject_Z 80)
           = false).
Proof.
  intros U1 U2.
  pose proof (evaluate_deterministic random1 random2 text U1 U2) as E.
  unfold evaluateGrammar, issuesOf. rewrite E.
  repeat split; try reflexivity.
  - destruct (U1 k) as [A1 A2]. revert H. unfold analyzeSentenceStructure, drawsRandom.
    destruct (length _ <? 3)%nat; [discriminate|].
    destruct (25 <? length _)%nat; [discriminate|]. intros _.
    apply random_score_bounds; assumption.
  - destruct (U1 k) as [A1 A2]. revert H. unfold analyzeSentenceStructure, drawsRandom.
    destruct (length _ <? 3)%nat; [discriminate|].
    destruct (25 <? length _)%nat; [discriminate|]. intros _.
    apply random_score_bounds; assumption.
  - destruct (U1 k) as [A1 A2].
    rewrite below80_determined by assumption. rewrite H. reflexivity.
Qed.

Lemma evaluateGrammar_ignores_random_witness :
  unitInterval (fun _ => 0) /\ unitInterval (fun _ => 1 # 2)
  /\ value (evaluateGrammar (fun _ => 0) "He are here now. I think so")
     = value (evaluateGrammar (fun _ => 1 # 2) "He are here now. I think so").
Proof.
  assert (unitInterval (fun _ => 0)) as U1 by (intros k; split; [lra | reflexivity]).
  assert (unitInterval (fun _ => 1 # 2)) as U2
    by (intros k; split; [discriminate | reflexivity]).
  split; [exact U1 | split; [exact U2 |]].
  exact (proj1 (evaluateGrammar_ignores_random (fun _ => 0) (fun _ => 1 # 2)
                  "He are here now. I think so" U1 U2)).
Defined.

(** C10, against the half-open range: the largest double below one is a
    value [Math.random] may answer, and with it a sentence of three words
    scores exactly 100, since [85 + r * 15] rounds up to it. *)
Lemma sentence_score_is_not_below_100 :
  unitInterval (fun _ => Samples.almostOne)
  /\ representable Samples.almostOne
  /\ drawsRandom "one two three" = true
  /\ analyzeSentenceStructure "one two three" Samples.almostOne == 100
  /\ ~ analyzeSentenceStructure "one two three" Samples.almostOne < 100.
Proof.
  split; [|split; [|split; [|split]]].
  - intros k. split; [vm_compute; discriminate | vm_compute; reflexivity].
  - exists (2 ^ 53 - 1)%Z, (- 53)%Z. split; [lia|]. vm_compute. reflexivity.
  - vm_compute. reflexivity.
  - vm_compute. reflexivity.
  - vm_compute. discriminate.
Qed.

End GrammarScore.

(** ** Classification of a turn and the counters *)

Section Turns.
Import Str AIEngine TurnClassifier Server Spec Samples.
Local Open Scope Z_scope.

Lemma withDefaultFeedback_keeps (c : Classified) :
  sentenceStatus (withDefaultFeedback c) = sentenceStatus c
  /\ mistakes (withDefaultFeedback c) = mistakes c
  /\ grammarCategory (withDefaultFeedback c) = grammarCategory c
  /\ errorSubType (withDefaultFeedback c) = errorSubType c
  /\ detectedCorrection (withDefaultFeedback c) = detectedCorrection c
  /\ matchedPattern (withDefaultFeedback c) = matchedPattern c.
Proof.
  unfold withDefaultFeedback.
  destruct (nonEmpty (shortFeedback c)); [repeat split|].
  destruct (_ || _); repeat split.
Qed.

Lemma withDefaultFeedback_verdict (c : Classified) :
  hadCorrection (withDefaultFeedback c) = hadCorrection c
  /\ isFlencyOnly (withDefaultFeedback c) = isFlencyOnly c
  /\ fluencyNaturalnessTurn (withDefaultFeedback c) = fluencyNaturalnessTurn c.
Proof.
  destruct (withDefaultFeedback_keeps c) as (E1 & E2 & E3 & E4 & E5 & E6).
  unfold hadCorrection, isFlencyOnly, fluencyNaturalnessTurn.
  rewrite E1, E2, E3, E4, E5. repeat split.
Qed.


Lemma chat_accepted (st st' : State) (req : ChatRequest) (body : ChatBody) :
  chat st req = (st', Ok body) ->
  exists user,
    chatUser req = Some user /\ chatGuard st = false
    /\ turn body
       = classify (chatText req)
           (snd (analyzeAndRespond (gemini req)
                   (recordUserMessage (chatText req) (engine st))))
    /\ serverMessageCount st' = serverMessageCount st + 1
    /\ serverIncorrectCount st'
       = (if countsAsIncorrect (turn body) then serverIncorrectCount st + 1
          else serverIncorrectCount st)
    /\ currentTopicInfo st' = currentTopicInfo st
    /\ activeSessions st' = activeSessions st
    /\ currentConversationId st' = currentConversationId st
    /\ controller st' = controller st.
Proof.
  unfold chat. intros H.
  destruct (chatUser req) as [user|]; [|discriminate].
  destruct (chatGuard st); [discriminate|].
  destruct (analyzeAndRespond _ _) as [eng' analysis].
  inversion H; subst; clear H. exists user. simpl. repeat split.
Qed.

Lemma firstMatch_complete (feedbackLower : string) (patterns : list string) :
  (exists p, In p patterns /\ includes feedbackLower (toLowerCase p) = true) ->
  firstMatch feedbackLower patterns <> None.
Proof.
  induction patterns as [|q rest IH]; intros (p & Hin & Hp).
  - destruct Hin.
  - simpl. destruct (includes feedbackLower (toLowerCase q)) eqn:E; [discriminate|].
    apply IH. destruct Hin as [->|Hin]; [congruence|]. exists p. split; assumption.
Qed.

Lemma firstMatch_sound (feedbackLower : string) (patterns : list string) (p : string) :
  firstMatch feedbackLower patterns = Some p ->
  In p patterns /\ includes feedbackLower (toLowerCase p) = true.
Proof.
  induction patterns as [|q rest IH]; simpl; [discriminate|].
  destruct (includes feedbackLower (toLowerCase q)) eqn:E.
  - intros H. inversion H; subst. split; [left; reflexivity | exact E].
  - intros H. destruct (IH H) as [H1 H2]. split; [right; exact H1 | exact H2].
Qed.

Lemma structuredGuard_wellFormed (ms : list AiMistake) :
  ms <> [] -> forallb wellFormed ms = true -> structuredGuard ms = true.
Proof.
  destruct ms as [|m rest]; [congruence|]. simpl. intros _ H.
  apply andb_true_iff in H. exact (proj1 H).
Qed.

Lemma classify_structured (text : string) (a : Analysis) (ms : list AiMistake) :
  an_mistakes a = Some ms -> structuredGuard ms = true ->
  let c := classify text a in
  mistakes c = map (normalize (aiCategory a)) ms
  /\ sentenceStatus c = orElse (an_sentence_status a) "correct"
  /\ grammarCategory c = aiCategory a
  /\ errorSubType c = "general"
  /\ hadCorrection c = true.
Proof.
  intros Hms Hg. cbv zeta. unfold classify. rewrite Hms, Hg.
  match goal with |- context [withDefaultFeedback ?c] =>
    destruct (withDefaultFeedback_keeps c) as (E1 & E2 & E3 & E4 & E5 & E6);
    destruct (withDefaultFeedback_verdict c) as (V1 & _ & _)
  end.
  rewrite E1, E2, E3, E4, V1. simpl.
  repeat split.
  unfold hadCorrection. simpl. rewrite length_map.
  destruct ms as [|m rest]; [discriminate Hg|].
  change (0 <? length (m :: rest))%nat with true.
  rewrite orb_true_r. reflexivity.
Qed.

Lemma classify_extraction (text : string) (a : Analysis) :
  correctionWithoutMistakes a ->
  let feedback := an_feedback a in
  let pattern := match detect feedback with Some p => p | None => "" end in
  let correctedText := extractCorrected feedback in
  let cat := categorize pattern (toLowerCase feedback) text correctedText in
  withDefaultFeedback
    (mkClassified (categoryFeedback cat) (categoryTone cat) "has_errors"
       [extracted cat text correctedText] (Some (subType cat)) (subType cat)
       true pattern)
  = classify text a.
Proof.
  intros (Hd & Hs & Hm). cbv zeta. unfold classify.
  assert ((match an_mistakes a with Some ms => ms | None => [] end) = []) as Hms.
  { destruct Hm as [-> | ->]; reflexivity. }
  rewrite Hms, Hs. simpl structuredGuard. cbv iota.
  destruct (detect (an_feedback a)) as [p|]; [|congruence].
  reflexivity.
Qed.

Lemma classify_extraction_verdict (text : string) (a : Analysis) :
  correctionWithoutMistakes a ->
  sentenceStatus (classify text a) = "has_errors"
  /\ verdict (classify text a) = HasErrors.
Proof.
  intros H. rewrite <- (classify_extraction text a H). cbv zeta.
  match goal with |- context [withDefaultFeedback ?c] =>
    destruct (withDefaultFeedback_keeps c) as (E1 & _);
    destruct (withDefaultFeedback_verdict c) as (V1 & _ & _)
  end.
  unfold verdict. rewrite E1, V1. split; reflexivity.
Qed.

(** C3. Where the AI supplies a non-empty list of mistakes that each carry
    both fragments, the mistake list of the turn is that list with its
    field names normalised, the verdict is [HasErrors], and status and
    category are the AI's own: none of them depends on the feedback text,
    whether or not a correction phrase occurs in it. Where the AI's status
    is [correct] and its list is empty but a correction phrase occurs in the
    feedback text, the status becomes [has_errors] and the verdict
    [HasErrors]. *)
Theorem structured_data_and_detection_priority (text : string) (a : Analysis) :
  (forall ms,
      an_mistakes a = Some ms -> ms <> [] -> forallb wellFormed ms = true ->
      mistakes (classify text a) = map (normalize (aiCategory a)) ms
      /\ verdict (classify text a) = HasErrors
      /\ sentenceStatus (classify text a)
         = orElse (an_sentence_status a) "correct"
      /\ grammarCategory (classify text a) = aiCategory a
      /\ forall feedback',
           mistakes (classify text (withFeedback feedback' a))
           = mistakes (classify text a)
           /\ verdict (classify text (withFeedback feedback' a))
              = verdict (classify text a)
           /\ sentenceStatus (classify text (withFeedback feedback' a))
              = sentenceStatus (classify text a))
  /\ (orElse (an_sentence_status a) "correct" = "correct" ->
      an_mistakes a = None \/ an_mistakes a = Some [] ->
      correctionPhraseIn (an_feedback a) ->
      sentenceStatus (classify text a) = "has_errors"
      /\ verdict (classify text a) = HasErrors).
Proof.
  split.
  - intros ms Hms Hne Hwf.
    pose proof (structuredGuard_wellFormed ms Hne Hwf) as Hg.
    destruct (classify_structured text a ms Hms Hg) as (M & S & G & _ & V).
    repeat split; try assumption.
    + unfold verdict. rewrite V. reflexivity.
    + destruct (classify_structured text (withFeedback feedback' a) ms Hms Hg)
        as (M' & _). rewrite M', M. reflexivity.
    + destruct (classify_structured text (withFeedback feedback' a) ms Hms Hg)
        as (_ & _ & _ & _ & V'). unfold verdict. rewrite V', V. reflexivity.
    + destruct (classify_structured text (withFeedback feedback' a) ms Hms Hg)
        as (_ & S' & _). rewrite S', S. reflexivity.
  - intros Hs Hm Hp. apply classify_extraction_verdict.
    split; [|split; assumption].
    unfold detect. apply firstMatch_complete. exact Hp.
Qed.

Lemma structured_data_and_detection_priority_witness :
  mistakes (classify schoolText structuredAnalysis)
  = map (normalize None) [complete]
  /\ sentenceStatus (classify schoolText (plain schoolFeedback)) = "has_errors".
Proof.
  split.
  - apply (proj1 (structured_data_and_detection_priority schoolText
                    structuredAnalysis) [complete]);
      [reflexivity | discriminate | reflexivity].
  - apply (proj2 (structured_data_and_detection_priority schoolText
                    (plain schoolFeedback)));
      [reflexivity | right; reflexivity |].
    exists "should say". split; [vm_compute; tauto | vm_compute; reflexivity].
Defined.

Lemma fallback_is_neutral : detect fallback = None.
Proof. vm_compute. reflexivity. Qed.

Lemma classify_fallback (text : string) :
  classify text (mkAnalysis (Some "correct") (Some []) fallback None None None)
  = mkClassified "Perfect! No grammar mistakes detected." "success" "correct"
      [] None "general" false "".
Proof.
  unfold classify.
  cbn [an_feedback an_short_feedback an_feedback_type an_sentence_status
       an_mistakes an_grammar_category].
  rewrite fallback_is_neutral. reflexivity.
Qed.

(** C6. When the call to the AI collaborator throws, the chat request is
    still answered with a turn: its verdict is [Correct], its feedback is
    the fixed fallback string, in which no correction phrase occurs, the
    incorrect counter is left as it was and the handler answers normally,
    whatever the utterance. *)
Theorem failed_ai_call_is_recorded_correct
    (st : State) (req : ChatRequest) (user : TokenUser) :
  chatUser req = Some user -> chatGuard st = false ->
  gemini req = GeminiThrows ->
  exists st' body,
    chat st req = (st', Ok body)
    /\ verdict (turn body) = Correct
    /\ sentenceStatus (turn body) = "correct"
    /\ mistakes (turn body) = []
    /\ aiResponse body = fallback
    /\ detect (aiResponse body) = None
    /\ serverIncorrectCount st' = serverIncorrectCount st
    /\ serverMessageCount st' = serverMessageCount st + 1.
Proof.
  intros Hu Hg Hai. unfold chat. rewrite Hu, Hg, Hai.
  cbn [analyzeAndRespond]. rewrite classify_fallback.
  eexists. eexists. split; [reflexivity|].
  repeat split; first [exact fallback_is_neutral | reflexivity].
Qed.

Lemma failed_ai_call_is_recorded_correct_witness :
  exists st' body,
    chat aliceStarted failedTurn = (st', Ok body)
    /\ verdict (turn body) = Correct.
Proof.
  destruct (failed_ai_call_is_recorded_correct aliceStarted failedTurn alice)
    as (st' & body & H & V & _); [reflexivity | reflexivity | reflexivity |].
  exists st', body. split; assumption.
Defined.

Lemma nonEmpty_false (s : string) : nonEmpty s = false -> s = "".
Proof. destruct s; [reflexivity | discriminate]. Qed.

Lemma orTry_first (c : string) (p : string -> string) (feedback : string) :
  nonEmpty c = true -> orTry c p feedback = c.
Proof. unfold orTry. intros ->. reflexivity. Qed.

Lemma orTry_next (c : string) (p : string -> string) (feedback : string) :
  nonEmpty c = false -> orTry c p feedback = p feedback.
Proof. unfold orTry. intros ->. reflexivity. Qed.

Lemma orTry_fold (feedback : string) (ps : list (string -> string)) :
  forall c,
    fold_left (fun c p => orTry c p feedback) ps c
    = if nonEmpty c then c else firstNonEmpty ps feedback.
Proof.
  induction ps as [|p ps IH]; intros c; simpl.
  - destruct (nonEmpty c) eqn:E; [reflexivity | apply nonEmpty_false, E].
  - rewrite IH. destruct (nonEmpty c) eqn:E.
    + rewrite (orTry_first c p feedback E), E. reflexivity.
    + rewrite (orTry_next c p feedback E). reflexivity.
Qed.

(** The sequence of guarded assignments is a first-non-empty search over
    the handler's ten patterns. *)
Lemma extractCorrected_cascade (feedback : string) :
  extractCorrected feedback = firstNonEmpty handlerCascade feedback.
Proof.
  change (extractCorrected feedback)
    with (fold_left (fun c p => orTry c p feedback)
            (tl handlerCascade) (pattern0a feedback)).
  rewrite orTry_fold. reflexivity.
Qed.

(** C4 (amended). In the extraction branch the corrected fragment of the
    single resulting mistake is the output of the first of the handler's
    ten patterns that yields a non-empty string: the nine listed ones in
    their order with the about-to pattern between the It-was/is clauses and
    the bulleted quotes; if none yields one it is the fixed placeholder. *)
Theorem corrected_fragment_is_first_of_cascade (text : string) (a : Analysis) :
  correctionWithoutMistakes a ->
  exists m,
    mistakes (classify text a) = [m]
    /\ corrected_text m
       = Some (orPlaceholder (firstNonEmpty handlerCascade (an_feedback a)))
    /\ corrected_version m = corrected_text m
    /\ original_text m = Some text.
Proof.
  intros H. rewrite <- (classify_extraction text a H). cbv zeta.
  match goal with |- context [withDefaultFeedback ?c] =>
    destruct (withDefaultFeedback_keeps c) as (_ & E2 & _)
  end.
  rewrite E2. eexists. split; [reflexivity|].
  cbn [corrected_text corrected_version original_text extracted].
  rewrite extractCorrected_cascade. repeat split.
Qed.

Lemma corrected_fragment_is_first_of_cascade_witness :
  correctionWithoutMistakes (plain appleFeedback)
  /\ exists m,
       mistakes (classify appleText (plain appleFeedback)) = [m]
       /\ corrected_text m
          = Some (orPlaceholder (firstNonEmpty handlerCascade appleFeedback)).
Proof.
  assert (correctionWithoutMistakes (plain appleFeedback)) as H.
  { split; [vm_compute; discriminate | split; [reflexivity | right; reflexivity]]. }
  split; [exact H|].
  destruct (corrected_fragment_is_first_of_cascade appleText _ H)
    as (m & M & C & _).
  exists m. split; assumption.
Defined.

(** C4, as stated, fails: on this feedback none of the first seven listed
    patterns matches, the about-to pattern of the handler does, and the
    mistake carries its rebuilt sentence, not the fragment of the next
    listed pattern that yields one (should be/say). *)
Lemma listed_cascade_misses_about_to :
  correctionWithoutMistakes (plain appleFeedback)
  /\ map corrected_text (mistakes (classify appleText (plain appleFeedback)))
     = [Some "I'm about to eat an apple"]
  /\ orPlaceholder (firstNonEmpty listedCascade appleFeedback)
     = "I'm about to eat apple".
Proof.
  split; [|split; vm_compute; reflexivity].
  split; [vm_compute; discriminate | split; [reflexivity | right; reflexivity]].
Qed.

Lemma categorize_order (matchedPattern feedbackLower originalText
    correctedText : string) :
  categorize matchedPattern feedbackLower originalText correctedText
  = handlerOrder matchedPattern feedbackLower originalText correctedText.
Proof.
  unfold categorize, handlerOrder. cbv zeta. simpl firstOf.
  repeat match goal with
         | |- (if ?b then _ else _) = (if ?b then _ else _) =>
             destruct b; [reflexivity|]
         end.
  reflexivity.
Qed.

Lemma categorize_feedback_nonEmpty (matchedPattern feedbackLower originalText
    correctedText : string) :
  nonEmpty (categoryFeedback
              (categorize matchedPattern feedbackLower originalText
                 correctedText)) = true.
Proof.
  unfold categorize. cbv zeta.
  repeat match goal with
         | |- context [if ?b then _ else _] => destruct b; [reflexivity|]
         end.
  reflexivity.
Qed.

Lemma classify_extraction_fields (text : string) (a : Analysis) :
  correctionWithoutMistakes a ->
  let feedback := an_feedback a in
  let pattern := match detect feedback with Some p => p | None => "" end in
  let correctedText := extractCorrected feedback in
  let cat := categorize pattern (toLowerCase feedback) text correctedText in
  classify text a
  = mkClassified (categoryFeedback cat) (categoryTone cat) "has_errors"
      [extracted cat text correctedText] (Some (subType cat)) (subType cat)
      true pattern.
Proof.
  intros H. cbv zeta. rewrite <- (classify_extraction text a H). cbv zeta.
  unfold withDefaultFeedback. cbn [shortFeedback].
  rewrite categorize_feedback_nonEmpty. reflexivity.
Qed.

(** C5 (amended). In the extraction branch the category is decided by the
    first test that holds, in this order: missing-verb or sentence-structure
    language; tense-indicator language; the article keyword; the preposition
    keyword (the two share one category and differ in the feedback string);
    a base-to-past verb pair between utterance and corrected fragment; a
    word-substitution pair; naturalness language; more-common language; and
    sentence structure by default. The verdict is [HasErrors]. *)
Theorem category_is_first_test_in_handler_order (text : string) (a : Analysis) :
  correctionWithoutMistakes a ->
  let c := classify text a in
  let cat :=
    handlerOrder (matchedPattern c) (toLowerCase (an_feedback a)) text
      (extractCorrected (an_feedback a)) in
  detect (an_feedback a) = Some (matchedPattern c)
  /\ grammarCategory c = Some (subType cat)
  /\ errorSubType c = subType cat
  /\ shortFeedback c = categoryFeedback cat
  /\ feedbackType c = categoryTone cat
  /\ verdict c = HasErrors.
Proof.
  intros H. cbv zeta.
  rewrite (classify_extraction_fields text a H). cbv zeta.
  cbn [matchedPattern grammarCategory errorSubType shortFeedback feedbackType].
  destruct H as (Hd & _).
  destruct (detect (an_feedback a)) as [p|]; [|congruence].
  rewrite <- (categorize_order p (toLowerCase (an_feedback a)) text
                (extractCorrected (an_feedback a))).
  repeat split.
Qed.

Lemma category_is_first_test_in_handler_order_witness :
  correctionWithoutMistakes (plain schoolFeedback)
  /\ grammarCategory (classify schoolText (plain schoolFeedback))
     = Some (subType
               (handlerOrder
                  (matchedPattern (classify schoolText (plain schoolFeedback)))
                  (toLowerCase schoolFeedback) schoolText
                  (extractCorrected schoolFeedback))).
Proof.
  assert (correctionWithoutMistakes (plain schoolFeedback)) as H.
  { split; [vm_compute; discriminate | split; [reflexivity | right; reflexivity]]. }
  split; [exact H|].
  exact (proj1 (proj2 (category_is_first_test_in_handler_order schoolText _ H))).
Defined.

(** C5, as stated, fails: the feedback has no missing-verb and no tense
    language, the pair go/went lies between the utterance and the corrected
    fragment, and the word article occurs. The listed order reaches the verb
    pair first and answers the tense category; the handler tests the
    article keyword before the verb pairs and answers articles. *)
Lemma listed_order_differs_on_article :
  correctionWithoutMistakes (plain schoolFeedback)
  /\ grammarCategory (classify schoolText (plain schoolFeedback))
     = Some "prepositions_articles"
  /\ shortFeedback (classify schoolText (plain schoolFeedback))
     = "Grammar error: Article usage"
  /\ isVerbTenseError (toLowerCase schoolText)
       (toLowerCase (extractCorrected schoolFeedback)) = true
  /\ categoryString
       (listedOrder
          (matchedPattern (classify schoolText (plain schoolFeedback)))
          (toLowerCase schoolFeedback) schoolText
          (extractCorrected schoolFeedback))
     = "grammar_tense_verb".
Proof.
  split; [|repeat split; vm_compute; reflexivity].
  split; [vm_compute; discriminate | split; [reflexivity | right; reflexivity]].
Qed.

Lemma classify_passthrough (text : string) (a : Analysis) (ms : list AiMistake) :
  an_mistakes a = Some ms -> ms <> [] -> structuredGuard ms = false ->
  let c := classify text a in
  mistakes c = map ofAi ms
  /\ sentenceStatus c = orElse (an_sentence_status a) "correct"
  /\ grammarCategory c = aiCategory a
  /\ errorSubType c = "general"
  /\ hadCorrection c = true.
Proof.
  intros Hms Hne Hg. cbv zeta. unfold classify. rewrite Hms, Hg.
  assert (forall d s, extractionGuard d s ms = false) as He.
  { intros d s. unfold extractionGuard. destruct ms; [congruence|].
    simpl. apply andb_false_r. }
  rewrite He.
  match goal with |- context [withDefaultFeedback ?c] =>
    destruct (withDefaultFeedback_keeps c) as (E1 & E2 & E3 & E4 & E5 & E6);
    destruct (withDefaultFeedback_verdict c) as (V1 & _ & _)
  end.
  rewrite E1, E2, E3, E4, V1. simpl.
  repeat split.
  unfold hadCorrection. simpl. rewrite length_map.
  destruct ms as [|m rest]; [congruence|].
  change (0 <? length (m :: rest))%nat with true.
  rewrite orb_true_r. reflexivity.
Qed.

(** C8, as stated, fails twice. A list whose only entry lacks the original
    fragment, with a correction phrase in the feedback, is not replaced by
    an extracted mistake: the list comes back as supplied and the status
    stays [correct]. And a list whose first entry is complete takes the
    structured path although its second entry lacks a fragment. *)
Lemma malformed_list_is_not_extracted :
  detect (an_feedback lackingAnalysis) = Some "should say"
  /\ mistakes (classify schoolText lackingAnalysis) = [ofAi lacking]
  /\ sentenceStatus (classify schoolText lackingAnalysis) = "correct"
  /\ mistakes (classify schoolText lackingAnalysis)
     <> mistakes (classify schoolText
                    (plain (an_feedback lackingAnalysis)))
  /\ forallb wellFormed [complete; lacking] = false
  /\ structuredGuard [complete; lacking] = true
  /\ mistakes (classify schoolText
                 (mkAnalysis (Some "has_errors") (Some [complete; lacking])
                    "Nice." None None None))
     = map (normalize None) [complete; lacking].
Proof.
  repeat split; try (vm_compute; reflexivity).
  vm_compute. discriminate.
Qed.

End Turns.

(** ** Which turns are counted *)

Section CountedTurns.
Import Str AIEngine TurnClassifier Server Spec Samples Counting.
Local Open Scope Z_scope.

Lemma engine_analysis_category (g : GeminiResult) (e : Engine) :
  an_grammar_category (snd (analyzeAndRespond g e)) = None.
Proof. destruct g; reflexivity. Qed.





End CountedTurns.

(** ** Sessions: reachable counters, the guard, shared state *)

Section Sessions.
Import Str AIEngine TurnClassifier Server Spec Samples.
Local Open Scope Z_scope.

Lemma handle_keeps_counters (st : State) (r : Request) :
  0 <= serverIncorrectCount st <= serverMessageCount st ->
  0 <= serverIncorrectCount (handle st r) <= serverMessageCount (handle st r).
Proof.
  intros H. destruct r as [q | q | u]; simpl.
  - unfold start. destruct (startUser q); [|exact H].
    destruct (startTopicId q =? 0)%nat; [exact H|].
    destruct (createdConversation q); simpl; lia.
  - unfold chat. destruct (chatUser q); [|exact H].
    destruct (chatGuard st); [exact H|].
    destruct (analyzeAndRespond _ _) as [eng' analysis]. simpl.
    destruct (countsAsIncorrect _); lia.
  - unfold finish. destruct u; [|exact H].
    destruct (sessionEnded _ _). simpl. exact H.
Qed.

Lemma run_keeps_counters (rs : list Request) :
  forall st,
    0 <= serverIncorrectCount st <= serverMessageCount st ->
    0 <= serverIncorrectCount (run st rs) <= serverMessageCount (run st rs).
Proof.
  induction rs as [|r rs IH]; intros st H; [exact H|].
  simpl. apply IH, handle_keeps_counters, H.
Qed.

(** C2 (amended). At every state reached from boot by any sequence of
    start, chat and end requests, the incorrect counter is at most the
    total counter; the score is 100 when the total is 0 and otherwise
    [Math.round] of the double-precision product of the quotient
    correct/total with 100; it lies in [[0, 100]] and is within one of the
    exactly rounded [100 * (total - incorrect) / total]. *)
Theorem score_of_reachable_counters (topics : list nat) (rs : list Request) :
  let st := run (boot topics) rs in
  let total := serverMessageCount st in
  let incorrect := serverIncorrectCount st in
  0 <= incorrect <= total
  /\ (total = 0 -> accuracy total incorrect = 100)
  /\ (0 < total ->
      accuracy total incorrect
      = Binary64.Math_round
          (Binary64.fmul
             (Binary64.fdiv (inject_Z (total - incorrect)) (inject_Z total))
             (inject_Z 100)))
  /\ 0 <= accuracy total incorrect <= 100
  /\ Z.abs (accuracy total incorrect - exactScore total incorrect) <= 1.
Proof.
  cbv zeta.
  assert (0 <= serverIncorrectCount (run (boot topics) rs)
          <= serverMessageCount (run (boot topics) rs)) as H.
  { apply run_keeps_counters. simpl. lia. }
  split; [exact H|]. split; [|split; [|split]].
  - intros E. unfold accuracy. rewrite E. reflexivity.
  - intros E. unfold accuracy. apply Z.ltb_lt in E. rewrite E. reflexivity.
  - apply accuracy_range, H.
  - apply accuracy_near_exact, H.
Qed.

Lemma score_of_reachable_counters_witness :
  accuracy (serverMessageCount (run booted []))
    (serverIncorrectCount (run booted []))
  = 100
  /\ accuracy (serverMessageCount (run booted fortyTurns))
       (serverIncorrectCount (run booted fortyTurns))
     = Binary64.Math_round
         (Binary64.fmul
            (Binary64.fdiv
               (inject_Z (serverMessageCount (run booted fortyTurns)
                          - serverIncorrectCount (run booted fortyTurns)))
               (inject_Z (serverMessageCount (run booted fortyTurns))))
            (inject_Z 100)).
Proof.
  split.
  - apply (proj1 (proj2 (score_of_reachable_counters [1; 2; 3]%nat []))).
    reflexivity.
  - apply (proj1 (proj2 (proj2
             (score_of_reachable_counters [1; 2; 3]%nat fortyTurns)))).
    vm_compute. reflexivity.
Defined.

(** C2, as stated, fails: after a session of forty turns with seventeen
    corrections the exact quotient is 57.5, which rounds to 58; the
    double-precision product is just below 57.5 and the handler reports
    57. *)
Lemma score_is_not_exactly_rounded :
  serverMessageCount (run booted fortyTurns) = 40
  /\ serverIncorrectCount (run booted fortyTurns) = 17
  /\ endReport (run booted fortyTurns) alice = Some (40, 17, 57)
  /\ exactScore 40 17 = 58.
Proof. repeat split; vm_compute; reflexivity. Qed.

(** The model of double-precision arithmetic and the primitive binary64
    numbers give the same score on every pair of counters up to 64, the
    pair above included. *)
Lemma accuracy_matches_primitive_floats :
  forallb (fun '(t, i) => accuracy t i =? accuracyPrim t i) (counterPairs 64)
  = true
  /\ accuracyPrim 40 17 = 57.
Proof. split; vm_compute; reflexivity. Qed.

Lemma finish_keeps_topic (st : State) (u : option TokenUser) :
  currentTopicInfo (fst (finish st u)) = currentTopicInfo st.
Proof.
  unfold finish. destruct u; [|reflexivity].
  destruct (sessionEnded _ _). reflexivity.
Qed.

Lemma handle_keeps_topic_set (st : State) (r : Request) :
  currentTopicInfo st <> None -> currentTopicInfo (handle st r) <> None.
Proof.
  intros H. destruct r as [q | q | u]; simpl.
  - unfold start. destruct (startUser q); [|exact H].
    destruct (startTopicId q =? 0)%nat; [exact H|].
    destruct (createdConversation q); simpl; discriminate.
  - unfold chat. destruct (chatUser q); [|exact H].
    destruct (chatGuard st); [exact H|].
    destruct (analyzeAndRespond _ _). simpl. exact H.
  - rewrite finish_keeps_topic. exact H.
Qed.

(** Once any session has been started, no later chat request of a logged-in
    user is answered with the no-active-session condition, whatever
    requests came in between, end requests included. *)
Lemma chat_never_rejected_after_start
    (st : State) (rs : list Request) (req : ChatRequest) (user : TokenUser) :
  currentTopicInfo st <> None -> chatUser req = Some user ->
  exists st' body,
    chat (run st rs) req = (st', Ok body)
    /\ serverMessageCount st' = serverMessageCount (run st rs) + 1.
Proof.
  intros H Hu.
  assert (currentTopicInfo (run st rs) <> None) as Ht.
  { revert st H. induction rs as [|r rs IH]; intros st H; [exact H|].
    simpl. apply IH, handle_keeps_topic_set, H. }
  unfold chat. rewrite Hu. unfold chatGuard.
  destruct (currentTopicInfo (run st rs)); [|congruence].
  destruct (analyzeAndRespond _ _). eexists. eexists. split; reflexivity.
Qed.

(** C7 (the code at the failing input). Before any session the chat
    request is rejected with the no-active-session message. After Alice
    started and ended her session the topic information is still set, so
    the guard lets her next chat request through: it is answered as a turn
    and the total counter goes from 0 to 1. *)
Theorem chat_after_end_is_processed :
  snd (chat booted helloTurn) = BadRequest noActiveSession
  /\ fst (chat booted helloTurn) = booted
  /\ isSessionRecording (controller aliceEnded) = false
  /\ activeSessions aliceEnded !! id alice = None
  /\ currentTopicInfo aliceEnded = Some daily
  /\ exists st' body,
       chat aliceEnded helloTurn = (st', Ok body)
       /\ serverMessageCount aliceEnded = 0
       /\ serverMessageCount st' = 1
       /\ st' <> aliceEnded.
Proof.
  repeat split; try (vm_compute; reflexivity).
  eexists. eexists. split; [vm_compute; reflexivity|].
  repeat split; try reflexivity.
  intros E. apply (f_equal serverMessageCount) in E. vm_compute in E.
  discriminate E.
Qed.

(** C9 (amended). The two counters are module state, one pair for the
    whole process. A turn processed for one user leaves every entry of the
    active-session registry as it was, the other users' entries included,
    but the counters it advances are the ones every user's report is read
    from: after the turn the end-of-session report of any user shows the
    total advanced by one, the same report for every user, and the turn
    would have had the same effect had another user submitted it. *)
Theorem counters_are_shared_between_users
    (st st' : State) (req : ChatRequest) (u1 : TokenUser) (body : ChatBody) :
  chatUser req = Some u1 -> chat st req = (st', Ok body) ->
  forall u2 : TokenUser,
    activeSessions st' !! id u2 = activeSessions st !! id u2
    /\ endReport st' u2
       = Some (serverMessageCount st + 1, serverIncorrectCount st',
               accuracy (serverMessageCount st + 1) (serverIncorrectCount st'))
    /\ endReport st' u2 = endReport st' u1
    /\ chat st (mkChat (Some u2) (chatText req) (gemini req)) = (st', Ok body).
Proof.
  intros Hu H u2.
  destruct (chat_accepted _ _ _ _ H) as (user & _ & Hg & _ & Hn & _ & _ & Ha & _).
  assert (forall u, endReport st' u
                    = Some (serverMessageCount st', serverIncorrectCount st',
                            accuracy (serverMessageCount st')
                              (serverIncorrectCount st'))) as Hr.
  { intros u. unfold endReport, finish. destruct (sessionEnded _ _). reflexivity. }
  split; [rewrite Ha; reflexivity|]. split; [rewrite Hr, Hn; reflexivity|].
  split; [rewrite !Hr; reflexivity|].
  revert H. unfold chat. rewrite Hu. cbn [chatUser chatText gemini]. tauto.
Qed.

Lemma counters_are_shared_between_users_witness :
  exists st' body,
    chat bothStarted schoolTurn = (st', Ok body)
    /\ activeSessions st' !! id bob = activeSessions bothStarted !! id bob
    /\ endReport st' bob = endReport st' alice.
Proof.
  eexists. eexists.
  assert (chat bothStarted schoolTurn = _) as H by (vm_compute; reflexivity).
  split; [exact H|].
  destruct (counters_are_shared_between_users bothStarted _ schoolTurn alice _
              eq_refl H bob)
    as (A & _ & R & _).
  split; [exact A | exact R].
Defined.

(** C9, as stated, fails: Alice and Bob each have an active session; Alice
    submits one turn with a correction; the report Bob would get goes from
    no turn and a score of 100 to one turn, one incorrect, and a score of
    0. *)
Lemma other_users_score_changes :
  is_Some (activeSessions bothStarted !! id alice)
  /\ is_Some (activeSessions bothStarted !! id bob)
  /\ id alice <> id bob
  /\ endReport bothStarted bob = Some (0, 0, 100)
  /\ endReport (fst (chat bothStarted schoolTurn)) bob = Some (1, 1, 0).
Proof.
  repeat split; try (vm_compute; reflexivity); try discriminate.
  - vm_compute. eexists. reflexivity.
  - vm_compute. eexists. reflexivity.
Qed.

End Sessions.

(** ** The scenarios of the specification, evaluated *)

Section Scenarios.
Import Str AIEngine TurnClassifier Server Spec Samples.
Local Open Scope Z_scope.

(** Scenario A: an utterance answered with a bolded correction and
    should-be language is a turn with errors, of category sentence
    structure, and the incorrect counter becomes 1. *)
Example scenario_A :
  let st := fst (chat aliceStarted oclockTurn) in
  exists body,
    snd (chat aliceStarted oclockTurn) = Ok body
    /\ verdict (turn body) = HasErrors
    /\ grammarCategory (turn body) = Some "grammar_sentence_structure"
    /\ map corrected_text (mistakes (turn body)) = [Some "Use: o'clock"]
    /\ serverIncorrectCount st = 1.
Proof. eexists. repeat split; vm_compute; reflexivity. Qed.

(** Scenario B: a greeting answered without correction language is a
    correct turn and the score stays 100. *)
Example scenario_B :
  exists body,
    snd (chat aliceStarted helloTurn) = Ok body
    /\ verdict (turn body) = Correct
    /\ shortFeedback (turn body) = "Perfect! No grammar mistakes detected."
    /\ currentScore body = 100.
Proof. eexists. repeat split; vm_compute; reflexivity. Qed.

(** Scenario C: three turns, two of them with errors, give a score of 33. *)
Example scenario_C :
  serverMessageCount (run booted scenarioC) = 3
  /\ serverIncorrectCount (run booted scenarioC) = 2
  /\ endReport (run booted scenarioC) alice = Some (3, 2, 33).
Proof. repeat split; vm_compute; reflexivity. Qed.

(** In double precision the sentence score of a sentence of 3 to 25 words
    reaches 100 itself when the random number is the largest double below
    one; the model and the primitive numbers agree on it. *)
Example sentence_score_reaches_100 :
  FeedbackEngine.analyzeSentenceStructure "one two three" almostOne == 100
  /\ Binary64.ofPrim almostOnePrim == almostOne
  /\ Binary64.ofPrim (85 + almostOnePrim * 15)%float == 100.
Proof. repeat split; vm_compute; reflexivity. Qed.

End Scenarios.

(** ** The grammar score in closed form *)

Section GrammarDeductions.
Import Binary64 FeedbackEngine FeedbackReport.
Local Open Scope Z_scope.

Lemma patternStep_fold (text : string) (patterns : list Regex.re)
    (acc : Running) :
  let hits :=
    length (List.filter (fun p => Regex.test true p text) patterns) in
  fold_left (patternStep text) patterns acc
  = mkRunning (totalScore acc - 10 * Z.of_nat hits)
      (issues acc ++ repeat "Grammar issue detected" hits) (draws acc).
Proof.
  revert acc. induction patterns as [|p ps IH]; intros acc; simpl.
  - rewrite Z.sub_0_r, app_nil_r. destruct acc; reflexivity.
  - rewrite IH. unfold patternStep.
    destruct (Regex.test true p text); simpl.
    + rewrite <- app_assoc. simpl. f_equal. lia.
    + reflexivity.
Qed.

Lemma sentenceStep_fold (random : nat -> Q) (sentences : list string)
    (acc : Running) :
  unitInterval random ->
  let bad := length (List.filter misshapen sentences) in
  totalScore (fold_left (sentenceStep random) sentences acc)
  = totalScore acc - 5 * Z.of_nat bad
  /\ issues (fold_left (sentenceStep random) sentences acc)
     = issues acc ++ repeat "Sentence structure needs improvement" bad.
Proof.
  intros U. revert acc.
  induction sentences as [|s ss IH]; intros acc; simpl.
  - rewrite Z.sub_0_r, app_nil_r. split; reflexivity.
  - destruct (IH (sentenceStep random acc s)) as [IH1 IH2].
    rewrite IH1, IH2. unfold sentenceStep, misshapen.
    destruct (0 <? String.length (Str.trim s))%nat; simpl; [|split; reflexivity].
    destruct (U (draws acc)) as [U0 U1].
    rewrite below80_determined by assumption.
    destruct (drawsRandom s); simpl.
    + split; reflexivity.
    + rewrite <- app_assoc. simpl. split; [lia | reflexivity].
Qed.

Lemma evaluate_closed_form (random : nat -> Q) (text : string) :
  unitInterval random ->
  totalScore (evaluate random text)
  = 100 - 10 * Z.of_nat (patternHits text)
    - 5 * Z.of_nat (misshapenSentences text)
  /\ issues (evaluate random text)
     = repeat "Grammar issue detected" (patternHits text)
       ++ repeat "Sentence structure needs improvement"
            (misshapenSentences text).
Proof.
  intros U. unfold evaluate. rewrite patternStep_fold.
  destruct (sentenceStep_fold random (split isTerminator text)
              (mkRunning
                 (100 - 10 * Z.of_nat
                    (length (List.filter (fun p => Regex.test true p text)
                               grammarPatterns)))
                 ([] ++ repeat "Grammar issue detected"
                    (length (List.filter (fun p => Regex.test true p text)
                               grammarPatterns))) 0) U) as [H1 H2].
  simpl in H1, H2. split; [exact H1 | exact H2].
Qed.

Lemma patternHits_le (text : string) : (patternHits text <= 6)%nat.
Proof.
  unfold patternHits.
  etransitivity; [apply List.filter_length_le | reflexivity].
Qed.

(** X1. The grammar score is 100 minus 10 for every grammar pattern found in
    the text and minus 5 for every non-blank sentence of fewer than 3 or
    more than 25 words, cut off at 0; so it lies between 0 and 100 and is
    a multiple of 5. *)
Theorem grammar_score_closed_form (random : nat -> Q) (text : string) :
  unitInterval random ->
  value (evaluateGrammar random text)
  = Z.max 0 (100 - 10 * Z.of_nat (patternHits text)
             - 5 * Z.of_nat (misshapenSentences text))
  /\ 0 <= value (evaluateGrammar random text) <= 100
  /\ (5 | value (evaluateGrammar random text)).
Proof.
  intros U. destruct (evaluate_closed_form random text U) as [H _].
  unfold evaluateGrammar. simpl value. rewrite H.
  split; [reflexivity | split; [lia |]].
  destruct (Z.max_spec 0 (100 - 10 * Z.of_nat (patternHits text)
                          - 5 * Z.of_nat (misshapenSentences text)))
    as [[_ E] | [_ E]]; rewrite E.
  - exists (20 - 2 * Z.of_nat (patternHits text)
            - Z.of_nat (misshapenSentences text)). lia.
  - exists 0. reflexivity.
Qed.

Lemma grammar_score_closed_form_witness :
  unitInterval (fun _ => 0%Q)
  /\ value (evaluateGrammar (fun _ => 0%Q) "He are here now. I think so")
     = Z.max 0 (100 - 10 * Z.of_nat (patternHits "He are here now. I think so")
                - 5 * Z.of_nat
                        (misshapenSentences "He are here now. I think so")).
Proof.
  assert (unitInterval (fun _ => 0%Q)) as U
    by (intros k; split; [apply Qle_refl | reflexivity]).
  split; [exact U |].
  exact (proj1 (grammar_score_closed_form (fun _ => 0%Q)
                  "He are here now. I think so" U)).
Defined.

(** X2. The details read 'Grammar is correct!' exactly when no pattern and no
    misshapen sentence was found, which is exactly when the value is 100;
    otherwise they start with 'Issues found: ' and name at most three
    issues, the grammar patterns first. *)
Theorem grammar_details_match_value (random : nat -> Q) (text : string) :
  unitInterval random ->
  (details (evaluateGrammar random text) = "Grammar is correct!"
   <-> value (evaluateGrammar random text) = 100)
  /\ (value (evaluateGrammar random text) = 100
      <-> patternHits text = 0%nat /\ misshapenSentences text = 0%nat)
  /\ (value (evaluateGrammar random text) <> 100 ->
      details (evaluateGrammar random text)
      = ("Issues found: "
         ++ Str.join "; "
              (firstn 3
                 (repeat "Grammar issue detected" (patternHits text)
                  ++ repeat "Sentence structure needs improvement"
                       (misshapenSentences text))))%string).
Proof.
  intros U. destruct (evaluate_closed_form random text U) as [H1 H2].
  unfold evaluateGrammar. simpl value. simpl details. rewrite H1, H2.
  destruct (patternHits text) as [|p] eqn:Ep;
    destruct (misshapenSentences text) as [|b] eqn:Eb.
  all: repeat split;
    try (simpl; discriminate); try lia; try reflexivity;
    try (intros [C1 C2]; discriminate);
    try (intros C; exfalso; apply C; reflexivity).
Qed.

Lemma grammar_details_match_value_witness :
  unitInterval (fun _ => 0%Q)
  /\ (details (evaluateGrammar (fun _ => 0%Q) "I like my new school")
      = "Grammar is correct!"
      <-> value (evaluateGrammar (fun _ => 0%Q) "I like my new school") = 100).
Proof.
  assert (unitInterval (fun _ => 0%Q)) as U
    by (intros k; split; [apply Qle_refl | reflexivity]).
  split; [exact U |].
  exact (proj1 (grammar_details_match_value (fun _ => 0%Q)
                  "I like my new school" U)).
Defined.

End GrammarDeductions.

(** ** The fluency score *)

Section Fluency.
Import Binary64 FeedbackEngine FeedbackReport.
Local Open Scope Q_scope.

Lemma representable_scaled (m j : Z) :
  (0 <= m < 2 ^ 53)%Z -> representable (inject_Z m * pow2 j).
Proof. intros H. exists m, j. split; [exact H | reflexivity]. Qed.

Lemma ltb_false (a b : Q) : b <= a -> ltb a b = false.
Proof.
  intros H. unfold ltb. apply negb_false_iff. apply Qle_bool_iff. exact H.
Qed.

Lemma ltb_true (a b : Q) : a < b -> ltb a b = true.
Proof.
  intros H. unfold ltb. apply negb_true_iff.
  destruct (Qle_bool b a) eqn:E; [|reflexivity].
  apply Qle_bool_iff in E. lra.
Qed.

Lemma splitRuns_nonEmpty (sep : ascii -> bool) (inRun : bool)
    (cur s : string) :
  (1 <= length (splitRuns sep inRun cur s))%nat.
Proof.
  revert inRun cur. induction s as [|c s IH]; intros inRun cur; simpl.
  - lia.
  - destruct (sep c); [destruct inRun|]; simpl; try apply IH. lia.
Qed.

Lemma wordCount_pos (text : string) : (1 <= wordCount text)%nat.
Proof. apply splitRuns_nonEmpty. Qed.

Lemma pause_score_short (duration r : Q) :
  0 <= r -> r < 1 -> duration <= 10 -> hesitates duration r = false.
Proof.
  intros H0 H1 Hd. unfold hesitates, analyzePauses.
  rewrite (ltb_false (inject_Z 10) duration) by exact Hd.
  change (inject_Z 70) with 70. change (inject_Z 30) with 30.
  change (inject_Z 1) with 1.
  assert (0 <= r * 30) as Hm by lra.
  pose proof (round_nonneg _ Hm) as Hp. fold (fmul r 30) in Hp.
  assert (70 <= fadd 70 (fmul r 30)) as Ha.
  { apply round_ge_repr; [lra | lra | apply (representable_Z 70); lia]. }
  apply ltb_false.
  apply round_ge_repr; [lra | lra | apply (representable_Z 70); lia].
Qed.

Lemma coherence_score (text : string) (r : Q) :
  0 <= r -> r < 1 ->
  incoherent text r
  = match coherentSentences text with [] => true | _ :: _ => false end.
Proof.
  intros H0 H1. unfold incoherent, analyzeCoherence.
  destruct (coherentSentences text); [reflexivity|].
  change (inject_Z 75) with 75. change (inject_Z 25) with 25.
  change (inject_Z 70) with 70.
  assert (0 <= r * 25) as Hm by lra.
  pose proof (round_nonneg _ Hm) as Hp. fold (fmul r 25) in Hp.
  apply ltb_false.
  apply round_ge_repr; [lra | lra | apply (representable_Z 70); lia].
Qed.

Lemma paceDeduction_cases (text : string) (duration : Q) :
  paceDeduction text duration = (15%Z, "Speaking pace is too slow")
  \/ paceDeduction text duration = (10%Z, "Speaking pace is too fast")
  \/ paceDeduction text duration = (0%Z, "Good speaking pace").
Proof.
  unfold paceDeduction.
  destruct (paceBelow _ _); [left; reflexivity|].
  destruct (paceAbove _ _); right; [left | right]; reflexivity.
Qed.

Lemma fluency_score_deductions_aux (random : nat -> Q) (text : string)
    (duration : Q) :
  unitInterval random ->
  value (measureFluency random text duration)
  = (100 - fst (paceDeduction text duration)
     - (if hesitates duration (random 0%nat) then 10 else 0)
     - (match coherentSentences text with [] => 10 | _ :: _ => 0 end))%Z
  /\ (65 <= value (measureFluency random text duration) <= 100)%Z.
Proof.
  intros U. destruct (U 1%nat) as [U0 U1].
  unfold measureFluency. simpl value.
  rewrite (coherence_score text (random 1%nat) U0 U1).
  destruct (paceDeduction_cases text duration) as [E | [E | E]];
    rewrite E; simpl fst;
    destruct (hesitates duration (random 0%nat));
    destruct (coherentSentences text);
    repeat split; try reflexivity; try lia.
Qed.

(** X3. The fluency score is 100 minus the pace deduction (15 slow, 10 fast),
    minus 10 if the pause analysis answers below 70, minus 10 exactly when
    the text has no non-blank sentence; it never falls below 65, so the
    cut-off at 0 is never reached. *)
Theorem fluency_score_deductions (random : nat -> Q) (text : string)
    (duration : Q) :
  unitInterval random ->
  value (measureFluency random text duration)
  = (100 - fst (paceDeduction text duration)
     - (if hesitates duration (random 0%nat) then 10 else 0)
     - (match coherentSentences text with [] => 10 | _ :: _ => 0 end))%Z
  /\ (65 <= value (measureFluency random text duration) <= 100)%Z
  /\ category (measureFluency random text duration) = "fluency".
Proof.
  intros U. destruct (fluency_score_deductions_aux random text duration U)
    as [H1 H2].
  split; [exact H1 | split; [exact H2 | reflexivity]].
Qed.

Lemma fluency_score_deductions_witness :
  unitInterval (fun _ => 0)
  /\ (65 <= value (measureFluency (fun _ => 0%Q) "Hello there my friend"
                      (12 # 1)%Q)
      <= 100)%Z.
Proof.
  assert (unitInterval (fun _ => 0)) as U
    by (intros k; split; [apply Qle_refl | reflexivity]).
  split; [exact U |].
  exact (proj1 (proj2 (fluency_score_deductions (fun _ => 0)
                         "Hello there my friend" (12 # 1) U))).
Defined.

(** X4. For a recording of at most ten seconds the fluency score does not
    depend on what [Math.random] answers: the pause analysis cannot fall
    below 70, and no hesitation is reported. *)
Theorem short_recording_ignores_random (random1 random2 : nat -> Q)
    (text : string) (duration : Q) :
  unitInterval random1 -> unitInterval random2 -> duration <= 10 ->
  measureFluency random1 text duration = measureFluency random2 text duration
  /\ hesitates duration (random1 0%nat) = false.
Proof.
  intros U1 U2 Hd.
  destruct (U1 0%nat) as [A0 A1]. destruct (U1 1%nat) as [A2 A3].
  destruct (U2 0%nat) as [B0 B1]. destruct (U2 1%nat) as [B2 B3].
  unfold measureFluency.
  rewrite !pause_score_short by assumption.
  rewrite !coherence_score by assumption.
  split; reflexivity.
Qed.

Lemma short_recording_ignores_random_witness :
  unitInterval (fun _ => 0) /\ unitInterval (fun _ => 1 # 2)
  /\ (3 # 1) <= 10
  /\ measureFluency (fun _ => 0) "Hello there my friend" (3 # 1)
     = measureFluency (fun _ => 1 # 2) "Hello there my friend" (3 # 1).
Proof.
  assert (unitInterval (fun _ => 0)) as U1
    by (intros k; split; [apply Qle_refl | reflexivity]).
  assert (unitInterval (fun _ => 1 # 2)) as U2
    by (intros k; split; [discriminate | reflexivity]).
  assert ((3 # 1) <= 10) as Hd by discriminate.
  split; [exact U1 | split; [exact U2 | split; [exact Hd |]]].
  exact (proj1 (short_recording_ignores_random (fun _ => 0) (fun _ => 1 # 2)
                  "Hello there my friend" (3 # 1) U1 U2 Hd)).
Defined.

Lemma ninetyPercent_bounds :
  (9 # 10) <= ninetyPercent /\ ninetyPercent <= (901 # 1000).
Proof. split; vm_compute; discriminate. Qed.

(** X5. For a recording longer than ten seconds the hesitation deduction is
    decided by the random draw alone: it is applied when the draw is at
    most 0.25 and is not applied when the draw is at least 0.3.  So, unlike
    the grammar score, the fluency score of one and the same recording can
    differ by 10 between two runs. *)
Theorem long_recording_depends_on_random (low high : nat -> Q)
    (text : string) (duration : Q) :
  unitInterval low -> unitInterval high -> 10 < duration ->
  low 0%nat <= 1 # 4 -> 3 # 10 <= high 0%nat ->
  hesitates duration (low 0%nat) = true
  /\ hesitates duration (high 0%nat) = false
  /\ (value (measureFluency low text duration) + 10
      = value (measureFluency high text duration))%Z.
Proof.
  intros U1 U2 Hd Hl Hh.
  destruct (U1 0%nat) as [A0 A1]. destruct (U2 0%nat) as [B0 B1].
  destruct ninetyPercent_bounds as [N0 N1].
  assert (hesitates duration (low 0%nat) = true) as E1.
  { unfold hesitates, analyzePauses. rewrite (ltb_true (inject_Z 10) duration Hd).
    change (inject_Z 70) with 70. change (inject_Z 30) with 30.
    set (r := low 0%nat) in *.
    assert (0 <= r * 30) as Hm by lra.
    pose proof (round_nonneg _ Hm) as Hp. fold (fmul r 30) in Hp.
    assert (fmul r 30 <= inject_Z 15 * pow2 (-1)) as Hq.
    { apply round_le_repr; [exact Hm | | apply representable_scaled; lia].
      change (inject_Z 15 * pow2 (-1)) with ((15 # 1) * (1 # 2)). lra. }
    change (inject_Z 15 * pow2 (-1)) with ((15 # 1) * (1 # 2)) in Hq.
    assert (fadd 70 (fmul r 30) <= inject_Z 155 * pow2 (-1)) as Ha.
    { apply round_le_repr; [lra | | apply representable_scaled; lia].
      change (inject_Z 155 * pow2 (-1)) with ((155 # 1) * (1 # 2)). lra. }
    change (inject_Z 155 * pow2 (-1)) with ((155 # 1) * (1 # 2)) in Ha.
    assert (0 <= fadd 70 (fmul r 30)) as Ha0
      by (apply round_nonneg; lra).
    apply ltb_true.
    apply Qle_lt_trans with (inject_Z 559 * pow2 (-3)).
    - apply round_le_repr; [nra | | apply representable_scaled; lia].
      change (inject_Z 559 * pow2 (-3)) with ((559 # 1) * (1 # 8)). nra.
    - reflexivity. }
  assert (hesitates duration (high 0%nat) = false) as E2.
  { unfold hesitates, analyzePauses. rewrite (ltb_true (inject_Z 10) duration Hd).
    change (inject_Z 70) with 70. change (inject_Z 30) with 30.
    set (r := high 0%nat) in *.
    assert (0 <= r * 30) as Hm by lra.
    assert (9 <= fmul r 30) as Hq.
    { apply round_ge_repr; [lra | lra | apply (representable_Z 9); lia]. }
    assert (79 <= fadd 70 (fmul r 30)) as Ha.
    { apply round_ge_repr; [lra | lra | apply (representable_Z 79); lia]. }
    apply ltb_false.
    apply round_ge_repr; [lra | nra | apply (representable_Z 70); lia]. }
  split; [exact E1 | split; [exact E2 |]].
  destruct (fluency_score_deductions_aux low text duration U1) as [V1 _].
  destruct (fluency_score_deductions_aux high text duration U2) as [V2 _].
  rewrite V1, V2, E1, E2. lia.
Qed.

Lemma long_recording_depends_on_random_witness :
  (value (measureFluency (fun _ => 0%Q) "Hello there my friend" (12 # 1)%Q)
   + 10
   = value (measureFluency (fun _ => (1 # 2)%Q) "Hello there my friend"
              (12 # 1)%Q))%Z.
Proof.
  assert (unitInterval (fun _ => 0)) as U1
    by (intros k; split; [apply Qle_refl | reflexivity]).
  assert (unitInterval (fun _ => 1 # 2)) as U2
    by (intros k; split; [discriminate | reflexivity]).
  assert (10 < (12 # 1)) as Hd by reflexivity.
  assert (0 <= 1 # 4) as Hl by discriminate.
  assert (3 # 10 <= 1 # 2) as Hh by discriminate.
  exact (proj2 (proj2 (long_recording_depends_on_random (fun _ => 0)
                         (fun _ => 1 # 2) "Hello there my friend" (12 # 1)
                         U1 U2 Hd Hl Hh))).
Defined.

(** X6. The pace remark by the exact rate of words per second: at most 1.625
    (97.5 words a minute) is too slow, from 1.75 to 3 (105 to 180 words a
    minute) is a good pace, at least 3.125 (187.5 words a minute) is too
    fast.  Words are counted by splitting the untrimmed text at white
    space. *)
Theorem pace_remark_by_rate (text : string) (duration : Q) :
  0 < duration ->
  let rate := inject_Z (Z.of_nat (wordCount text)) / duration in
  (rate <= 13 # 8 ->
   paceDeduction text duration = (15%Z, "Speaking pace is too slow"))
  /\ (7 # 4 <= rate -> rate <= 3 ->
      paceDeduction text duration = (0%Z, "Good speaking pace"))
  /\ (25 # 8 <= rate ->
      paceDeduction text duration = (10%Z, "Speaking pace is too fast")).
Proof.
  intros Hd rate. unfold paceDeduction, wordsPerMinute.
  assert (Qeq_bool duration 0 = false) as E.
  { apply not_true_iff_false. intros C. apply Qeq_bool_iff in C. lra. }
  rewrite E. fold rate. unfold paceBelow, paceAbove.
  change (inject_Z 100) with 100. change (inject_Z 180) with 180.
  change (inject_Z 60) with 60.
  assert (0 <= rate) as Hr.
  { unfold rate. apply Qle_shift_div_l; [exact Hd |].
    rewrite Qmult_0_l. change 0 with (inject_Z 0).
    rewrite <- Zle_Qle. lia. }
  pose proof (round_nonneg _ Hr) as Hq. fold (fdiv (inject_Z (Z.of_nat (wordCount text))) duration) in Hq.
  fold rate in Hq.
  set (q := fdiv (inject_Z (Z.of_nat (wordCount text))) duration) in *.
  assert (q = round rate) as Eq by reflexivity.
  rewrite <- Eq in Hq. clearbody q.
  split; [|split].
  - intros H.
    assert (q <= inject_Z 13 * pow2 (-3)) as Hq1.
    { rewrite Eq. apply round_le_repr;
        [exact Hr | | apply representable_scaled; lia].
      change (inject_Z 13 * pow2 (-3)) with ((13 # 1) * (1 # 8)). lra. }
    change (inject_Z 13 * pow2 (-3)) with ((13 # 1) * (1 # 8)) in Hq1.
    assert (fmul q 60 <= inject_Z 195 * pow2 (-1)) as Hw.
    { apply round_le_repr; [lra | | apply representable_scaled; lia].
      change (inject_Z 195 * pow2 (-1)) with ((195 # 1) * (1 # 2)). lra. }
    change (inject_Z 195 * pow2 (-1)) with ((195 # 1) * (1 # 2)) in Hw.
    rewrite ltb_true by lra. reflexivity.
  - intros H1 H2.
    assert (inject_Z 7 * pow2 (-2) <= q) as Hq1.
    { rewrite Eq. apply round_ge_repr;
        [discriminate | | apply representable_scaled; lia].
      change (inject_Z 7 * pow2 (-2)) with ((7 # 1) * (1 # 4)). lra. }
    change (inject_Z 7 * pow2 (-2)) with ((7 # 1) * (1 # 4)) in Hq1.
    assert (q <= 3) as Hq2.
    { rewrite Eq. apply round_le_repr;
        [exact Hr | exact H2 | apply (representable_Z 3); lia]. }
    assert (105 <= fmul q 60) as Hw1.
    { apply round_ge_repr; [lra | lra | apply (representable_Z 105); lia]. }
    assert (fmul q 60 <= 180) as Hw2.
    { apply round_le_repr; [lra | lra | apply (representable_Z 180); lia]. }
    rewrite ltb_false by lra. rewrite ltb_false by lra. reflexivity.
  - intros H.
    assert (inject_Z 25 * pow2 (-3) <= q) as Hq1.
    { rewrite Eq. apply round_ge_repr;
        [discriminate | | apply representable_scaled; lia].
      change (inject_Z 25 * pow2 (-3)) with ((25 # 1) * (1 # 8)). lra. }
    change (inject_Z 25 * pow2 (-3)) with ((25 # 1) * (1 # 8)) in Hq1.
    assert (inject_Z 375 * pow2 (-1) <= fmul q 60) as Hw1.
    { apply round_ge_repr;
        [discriminate | | apply representable_scaled; lia].
      change (inject_Z 375 * pow2 (-1)) with ((375 # 1) * (1 # 2)). lra. }
    change (inject_Z 375 * pow2 (-1)) with ((375 # 1) * (1 # 2)) in Hw1.
    rewrite ltb_false by lra. rewrite ltb_true by lra. reflexivity.
Qed.

Lemma pace_remark_by_rate_witness :
  0 < (2 # 1)
  /\ inject_Z (Z.of_nat (wordCount "I went to the market today")) / (2 # 1)
     <= 3
  /\ paceDeduction "I went to the market today" (2 # 1)
     = (0%Z, "Good speaking pace").
Proof.
  assert (0 < (2 # 1)) as Hd by reflexivity.
  assert (7 # 4
          <= inject_Z (Z.of_nat (wordCount "I went to the market today"))
             / (2 # 1)) as H1 by (vm_compute; discriminate).
  assert (inject_Z (Z.of_nat (wordCount "I went to the market today"))
          / (2 # 1) <= 3) as H2 by (vm_compute; discriminate).
  split; [exact Hd | split; [exact H2 |]].
  exact (proj1 (proj2 (pace_remark_by_rate "I went to the market today"
                         (2 # 1) Hd)) H1 H2).
Defined.

(** X7. A recording of length zero raises no error: the text always counts
    at least one word, so the pace is plus infinity and is judged too
    fast; no hesitation is reported, and the score is 90, or 80 when the
    text has no non-blank sentence. *)
Theorem zero_length_recording (random : nat -> Q) (text : string)
    (duration : Q) :
  unitInterval random -> duration == 0 ->
  (1 <= wordCount text)%nat
  /\ wordsPerMinute (wordCount text) duration = PlusInfinity
  /\ measureFluency random text duration
     = match coherentSentences text with
       | [] =>
           mkScore 80 "fluency"
             "Speaking pace is too fast; Speech coherence needs improvement"
       | _ :: _ => mkScore 90 "fluency" "Speaking pace is too fast"
       end.
Proof.
  intros U Hd. destruct (U 0%nat) as [A0 A1]. destruct (U 1%nat) as [A2 A3].
  assert (Qeq_bool duration 0 = true) as E by (apply Qeq_bool_iff; exact Hd).
  split; [apply wordCount_pos |].
  split; [unfold wordsPerMinute; rewrite E; reflexivity |].
  unfold measureFluency, paceDeduction, wordsPerMinute. rewrite E.
  rewrite pause_score_short by (try assumption; lra).
  rewrite coherence_score by assumption.
  destruct (coherentSentences text); reflexivity.
Qed.

Lemma zero_length_recording_witness :
  unitInterval (fun _ => 0) /\ 0 == 0
  /\ measureFluency (fun _ => 0) "Hello there" 0
     = mkScore 90 "fluency" "Speaking pace is too fast".
Proof.
  assert (unitInterval (fun _ => 0)) as U
    by (intros k; split; [apply Qle_refl | reflexivity]).
  split; [exact U | split; [reflexivity |]].
  exact (proj2 (proj2 (zero_length_recording (fun _ => 0) "Hello there" 0 U
                         (Qeq_refl 0)))).
Defined.

End Fluency.

(** ** Averages and the session report *)

Section SessionReport.
Import Binary64 FeedbackEngine FeedbackReport.
Local Open Scope Q_scope.

Lemma half_up (k : Z) : Qfloor (inject_Z k * (1 # 2) + (1 # 2)) = ((k + 1) / 2)%Z.
Proof.
  assert (inject_Z k * (1 # 2) + (1 # 2) == (k + 1) # 2) as E.
  { unfold Qeq. simpl. lia. }
  rewrite (Qfloor_comp _ _ E). reflexivity.
Qed.

Lemma round_exact (x : Q) : 0 <= x -> representable x -> round x == x.
Proof.
  intros H0 Hr. apply Qle_antisym.
  - apply round_le_repr; [exact H0 | apply Qle_refl | exact Hr].
  - apply round_ge_repr; [exact H0 | apply Qle_refl | exact Hr].
Qed.

Lemma half_exact (k : Z) :
  (0 <= k < 2 ^ 53)%Z -> fmul (inject_Z k) (1 # 2) == inject_Z k * (1 # 2).
Proof.
  intros H. apply round_exact.
  - assert (0 <= inject_Z k) by (change 0 with (inject_Z 0); rewrite <- Zle_Qle; lia).
    lra.
  - exists k, (-1)%Z. split; [exact H | reflexivity].
Qed.

Lemma overall_half_sum (g f : Z) :
  (0 <= g < 2 ^ 52)%Z -> (0 <= f < 2 ^ 52)%Z ->
  Math_round (fadd (fmul (inject_Z g) (1 # 2)) (fmul (inject_Z f) (1 # 2)))
  = ((g + f + 1) / 2)%Z.
Proof.
  intros Hg Hf.
  pose proof (half_exact g ltac:(lia)) as Eg.
  pose proof (half_exact f ltac:(lia)) as Ef.
  assert (0 <= inject_Z g) as Pg by (change 0 with (inject_Z 0); rewrite <- Zle_Qle; lia).
  assert (0 <= inject_Z f) as Pf by (change 0 with (inject_Z 0); rewrite <- Zle_Qle; lia).
  set (a := fmul (inject_Z g) (1 # 2)) in *.
  set (b := fmul (inject_Z f) (1 # 2)) in *.
  assert (representable (inject_Z (g + f) * (1 # 2))) as Hr.
  { exists (g + f)%Z, (-1)%Z. split; [lia | reflexivity]. }
  assert (a + b == inject_Z (g + f) * (1 # 2)) as Es.
  { rewrite inject_Z_plus. lra. }
  assert (fadd a b == inject_Z (g + f) * (1 # 2)) as E.
  { apply Qle_antisym.
    - apply round_le_repr; [lra | lra | exact Hr].
    - apply round_ge_repr; [lra | lra | exact Hr]. }
  unfold Math_round.
  assert (fadd a b + (1 # 2) == inject_Z (g + f) * (1 # 2) + (1 # 2)) as E'
    by (rewrite E; reflexivity).
  rewrite (Qfloor_comp _ _ E'). apply half_up.
Qed.

(** X8. The overall score of a report is the mean of its grammar and fluency
    values rounded half up, (g + f + 1) div 2, with no rounding error;
    for values between 0 and 100 it lies between 0 and 100. *)
Theorem overall_score_is_half_sum (sessionId : nat)
    (data : gmap nat SessionScores) :
  let report := provideSessionFeedback sessionId data in
  (0 <= value (grammarScore report) < 2 ^ 52)%Z ->
  (0 <= value (fluencyScore report) < 2 ^ 52)%Z ->
  overallScore report
  = ((value (grammarScore report) + value (fluencyScore report) + 1) / 2)%Z
  /\ ((value (grammarScore report) <= 100)%Z ->
      (value (fluencyScore report) <= 100)%Z ->
      (0 <= overallScore report <= 100)%Z).
Proof.
  intros report Hg Hf.
  assert (overallScore report
          = ((value (grammarScore report) + value (fluencyScore report) + 1)
             / 2)%Z) as E.
  { unfold report, provideSessionFeedback. simpl overallScore.
    simpl grammarScore. simpl fluencyScore.
    apply overall_half_sum; assumption. }
  split; [exact E |]. intros H1 H2. rewrite E.
  split; [apply Z.div_pos; lia |].
  apply Z.lt_succ_r. apply Z.div_lt_upper_bound; lia.
Qed.

Lemma overall_score_is_half_sum_witness :
  overallScore
    (provideSessionFeedback 3
       (addSessionScore 3 (mkScore 90 "grammar" "first") ∅))
  = ((value (grammarScore
               (provideSessionFeedback 3
                  (addSessionScore 3 (mkScore 90 "grammar" "first") ∅)))
      + value (fluencyScore
                 (provideSessionFeedback 3
                    (addSessionScore 3 (mkScore 90 "grammar" "first") ∅)))
      + 1) / 2)%Z.
Proof.
  refine (proj1 (overall_score_is_half_sum 3
                   (addSessionScore 3 (mkScore 90 "grammar" "first") ∅) _ _));
    vm_compute; split; congruence.
Defined.

Lemma average_exact (T n : Z) :
  (0 <= T < 2 ^ 52)%Z -> (0 < n)%Z ->
  Math_round (fdiv (inject_Z T) (inject_Z n)) = ((2 * T + n) / (2 * n))%Z.
Proof.
  intros HT Hn. set (k := ((2 * T + n) / (2 * n))%Z).
  assert (2 * n * k <= 2 * T + n /\ 2 * T + n <= 2 * n * k + 2 * n - 1)%Z
    as [K1 K2].
  { pose proof (Z.div_mod (2 * T + n) (2 * n) ltac:(lia)) as D.
    pose proof (Z.mod_pos_bound (2 * T + n) (2 * n) ltac:(lia)) as M.
    fold k in D. lia. }
  assert (0 <= k)%Z as K0 by (apply Z.div_pos; lia).
  assert (0 < inject_Z n) as Qn
    by (change 0 with (inject_Z 0); rewrite <- Zlt_Qlt; exact Hn).
  assert (0 <= inject_Z T) as QT
    by (change 0 with (inject_Z 0); rewrite <- Zle_Qle; lia).
  assert (inject_Z T <= 4503599627370495) as QT'
    by (change 4503599627370495 with (inject_Z 4503599627370495);
        rewrite <- Zle_Qle; lia).
  assert (2 * (inject_Z n * inject_Z k) <= 2 * inject_Z T + inject_Z n) as Q1.
  { rewrite <- !inject_Z_mult.
    change 2 with (inject_Z 2). rewrite <- !inject_Z_mult, <- inject_Z_plus.
    rewrite <- Zle_Qle. lia. }
  assert (2 * inject_Z T + inject_Z n
          <= 2 * (inject_Z n * inject_Z k) + 2 * inject_Z n - 1) as Q2.
  { rewrite <- !inject_Z_mult.
    change 2 with (inject_Z 2). change 1 with (inject_Z 1).
    rewrite <- !inject_Z_mult, <- inject_Z_plus.
    unfold Qminus. rewrite <- inject_Z_plus, <- inject_Z_opp, <- inject_Z_plus.
    rewrite <- Zle_Qle. lia. }
  set (x := inject_Z T / inject_Z n).
  assert (x * inject_Z n == inject_Z T) as Hx by (unfold x; field; lra).
  assert (0 <= x) as X0.
  { unfold x. apply Qle_shift_div_l; [exact Qn | lra]. }
  destruct (round_err x X0) as [_ Hup].
  change eps with (1 # 9007199254740992) in Hup.
  change (fdiv (inject_Z T) (inject_Z n)) with (round x).
  set (p := round x) in *.
  assert (inject_Z k <= p + (1 # 2)) as Lo.
  { destruct (Z.eq_dec k 0) as [-> | Kpos].
    - pose proof (round_nonneg x X0) as P0. fold p in P0.
      change (inject_Z 0) with 0. lra.
    - assert (inject_Z (2 * k - 1) * pow2 (-1) <= p) as P1.
      { apply round_ge_repr.
        + change (pow2 (-1)) with (1 # 2).
          assert (0 <= inject_Z (2 * k - 1))
            by (change 0 with (inject_Z 0); rewrite <- Zle_Qle; lia).
          lra.
        + change (pow2 (-1)) with (1 # 2).
          unfold x. apply Qle_shift_div_l; [exact Qn |].
          unfold Zminus. rewrite inject_Z_plus, inject_Z_mult.
          change (inject_Z 2) with 2. change (inject_Z (- (1))) with (- (1)).
          nra.
        + apply representable_scaled.
          assert (2 * n * k <= 2 * n * (T + 1))%Z by nia.
          assert (k <= T + 1)%Z by nia. lia. }
      change (pow2 (-1)) with (1 # 2) in P1.
      unfold Zminus in P1. rewrite inject_Z_plus, inject_Z_mult in P1.
      change (inject_Z 2) with 2 in P1.
      change (inject_Z (- (1))) with (- (1)) in P1.
      lra. }
  assert (p + (1 # 2) < inject_Z (k + 1)) as Hi.
  { rewrite inject_Z_plus. change (inject_Z 1) with 1.
    apply Qle_lt_trans with (x + x * (1 # 9007199254740992) + (1 # 2));
      [lra |].
    apply Qmult_lt_r with (inject_Z n); [exact Qn |].
    assert ((x + x * (1 # 9007199254740992) + (1 # 2)) * inject_Z n
            == inject_Z T + inject_Z T * (1 # 9007199254740992)
               + (1 # 2) * inject_Z n) as E1.
    { rewrite <- Hx. ring. }
    rewrite E1. nra. }
  unfold Math_round. apply Z.le_antisymm.
  - assert (Qfloor (p + (1 # 2)) < k + 1)%Z; [|lia].
    rewrite Zlt_Qlt. pose proof (Qfloor_le (p + (1 # 2))). lra.
  - apply floor_ge_int. exact Lo.
Qed.

Lemma total_from (scores : list Score) (start : Z) :
  fold_left (fun sum score => (sum + value score)%Z) scores start
  = (start + total scores)%Z.
Proof.
  unfold total. revert start.
  induction scores as [|s l IH]; intros start; simpl.
  - lia.
  - rewrite (IH (start + value s)%Z), (IH (0 + value s)%Z). lia.
Qed.

Lemma total_cons (s : Score) (scores : list Score) :
  total (s :: scores) = (value s + total scores)%Z.
Proof. unfold total at 1. simpl. apply total_from. Qed.

Lemma total_bounds (scores : list Score) (lo hi : Z) :
  Forall (fun s => (lo <= value s <= hi)%Z) scores ->
  (Z.of_nat (length scores) * lo <= total scores
   <= Z.of_nat (length scores) * hi)%Z.
Proof.
  induction 1 as [|s l Hs Hl IH].
  - unfold total. simpl. lia.
  - rewrite total_cons. simpl length. lia.
Qed.

(** X9. The average of a non-empty list of scores is the exact mean of the
    values rounded half up, (2 * total + n) div (2 * n): the division in
    double precision loses nothing here.  It lies between any two bounds
    that all the values lie between; the average of no score is 0. *)
Theorem average_is_rounded_mean (scores : list Score) (lo hi : Z) :
  scores <> [] ->
  Forall (fun s => (lo <= value s <= hi)%Z) scores ->
  (0 <= lo)%Z -> (total scores < 2 ^ 52)%Z ->
  calculateAverageScore scores
  = ((2 * total scores + Z.of_nat (length scores))
     / (2 * Z.of_nat (length scores)))%Z
  /\ (lo <= calculateAverageScore scores <= hi)%Z
  /\ calculateAverageScore [] = 0%Z.
Proof.
  intros Hne Hall Hlo Htot.
  pose proof (total_bounds scores lo hi Hall) as [B1 B2].
  assert (0 < Z.of_nat (length scores))%Z as Hn
    by (destruct scores; [congruence | simpl; lia]).
  assert (0 <= total scores)%Z as HT by nia.
  assert (calculateAverageScore scores
          = ((2 * total scores + Z.of_nat (length scores))
             / (2 * Z.of_nat (length scores)))%Z) as E.
  { destruct scores as [|s l]; [congruence |].
    unfold calculateAverageScore. apply average_exact; [lia | exact Hn]. }
  split; [exact E | split; [| reflexivity]]. rewrite E. split.
  - apply Z.div_le_lower_bound; lia.
  - apply Z.lt_succ_r. apply Z.div_lt_upper_bound; lia.
Qed.

Lemma average_is_rounded_mean_witness :
  (85 <= calculateAverageScore
           [mkScore 85 "grammar" "first"; mkScore 90 "grammar" "second"]
   <= 90)%Z.
Proof.
  refine (proj1 (proj2 (average_is_rounded_mean
                          [mkScore 85 "grammar" "first";
                           mkScore 90 "grammar" "second"] 85 90 _ _ _ _))).
  - discriminate.
  - repeat constructor; simpl; lia.
  - lia.
  - reflexivity.
Defined.

(** X10. A report for a session without scores (no entry, or an entry with
    two empty lists) shows the defaults: grammar 80, fluency 75, overall
    78, 'No data available', user 0, praise for the grammar and the two
    fluency suggestions. *)
Theorem report_without_scores (sessionId : nat)
    (data : gmap nat SessionScores) :
  data !! sessionId = None
  \/ data !! sessionId = Some (mkSessionScores [] []) ->
  provideSessionFeedback sessionId data
  = mkReport sessionId 0
      (mkScore 80 "grammar" "No data available")
      (mkScore 75 "fluency" "No data available")
      78
      ["Excellent grammar usage!"; "Your fluency is developing well."]
      ["Practice speaking without long pauses";
       "Read aloud daily to improve flow"].
Proof.
  intros [H | H]; unfold provideSessionFeedback; rewrite H; vm_compute;
    reflexivity.
Qed.

Lemma report_without_scores_witness :
  overallScore (provideSessionFeedback 7 ∅) = 78%Z.
Proof.
  assert ((∅ : gmap nat SessionScores) !! 7%nat = None) as H by reflexivity.
  rewrite (report_without_scores 7 ∅ (or_introl H)). reflexivity.
Defined.

(** X11. Adding a score changes no report of another session, and a score
    whose category is neither 'grammar' nor 'fluency' changes no report
    at all: the switch drops it, and the empty entry it may create reads
    like no entry. *)
Theorem unrelated_score_changes_no_report (sessionId other : nat)
    (score : Score) (data : gmap nat SessionScores) :
  other <> sessionId
  \/ (category score <> "grammar" /\ category score <> "fluency") ->
  provideSessionFeedback other (addSessionScore sessionId score data)
  = provideSessionFeedback other data.
Proof.
  intros H. destruct (decide (other = sessionId)) as [-> | Hne].
  - destruct H as [H | [Hg Hf]]; [congruence |].
    unfold provideSessionFeedback, addSessionScore.
    apply String.eqb_neq in Hg, Hf. rewrite Hg, Hf.
    rewrite lookup_insert_eq.
    destruct (data !! sessionId); reflexivity.
  - unfold provideSessionFeedback, addSessionScore.
    rewrite lookup_insert_ne by congruence. reflexivity.
Qed.

Lemma unrelated_score_changes_no_report_witness :
  provideSessionFeedback 3
    (addSessionScore 3 (mkScore 10 "pronunciation" "unknown") ∅)
  = provideSessionFeedback 3 ∅.
Proof.
  apply unrelated_score_changes_no_report. right.
  split; discriminate.
Defined.

Lemma averaged_snoc (default : Score) (scores : list Score) (s : Score) :
  averaged default (scores ++ [s])
  = mkScore (calculateAverageScore (scores ++ [s])) (category s) (details s).
Proof.
  unfold averaged. rewrite List.last_last.
  destruct scores; reflexivity.
Qed.

(** X12. After a grammar score is added to a session, the report of that
    session shows the category and details of this latest score beside
    the average over all grammar scores of the session, and its fluency
    part is as before; likewise with the two roles exchanged. *)
Theorem report_follows_latest_score (sessionId : nat) (score : Score)
    (data : gmap nat SessionScores) :
  let before :=
    match data !! sessionId with
    | Some d => d
    | None => mkSessionScores [] []
    end in
  let report :=
    provideSessionFeedback sessionId (addSessionScore sessionId score data) in
  (category score = "grammar" ->
   grammarScore report
   = mkScore (calculateAverageScore (grammarScores before ++ [score]))
       "grammar" (details score)
   /\ fluencyScore report
      = fluencyScore (provideSessionFeedback sessionId data))
  /\ (category score = "fluency" ->
      fluencyScore report
      = mkScore (calculateAverageScore (fluencyScores before ++ [score]))
          "fluency" (details score)
      /\ grammarScore report
         = grammarScore (provideSessionFeedback sessionId data)).
Proof.
  intros before report. unfold report, before.
  unfold provideSessionFeedback, addSessionScore.
  rewrite lookup_insert_eq. split; intros Hc; rewrite Hc; simpl.
  - rewrite averaged_snoc, Hc.
    split; [reflexivity | destruct (data !! sessionId); reflexivity].
  - rewrite averaged_snoc, Hc.
    split; [reflexivity | destruct (data !! sessionId); reflexivity].
Qed.

Lemma report_follows_latest_score_witness :
  grammarScore
    (provideSessionFeedback 3
       (addSessionScore 3 (mkScore 90 "grammar" "second")
          (addSessionScore 3 (mkScore 85 "grammar" "first") ∅)))
  = mkScore 88 "grammar" "second".
Proof.
  rewrite (proj1 (proj1 (report_follows_latest_score 3
                           (mkScore 90 "grammar" "second")
                           (addSessionScore 3 (mkScore 85 "grammar" "first")
                              ∅)) eq_refl)).
  vm_compute. reflexivity.
Defined.

Lemma addSessionScore_sorted (sessionId : nat) (score : Score)
    (data : gmap nat SessionScores) :
  sorted_scores data -> sorted_scores (addSessionScore sessionId score data).
Proof.
  intros Inv other d. unfold addSessionScore.
  destruct (decide (other = sessionId)) as [-> | Hne].
  - rewrite lookup_insert_eq. intros [= <-].
    assert (Forall (fun s => category s = "grammar")
              (grammarScores
                 match data !! sessionId with
                 | Some d => d
                 | None => mkSessionScores [] []
                 end)
            /\ Forall (fun s => category s = "fluency")
                 (fluencyScores
                    match data !! sessionId with
                    | Some d => d
                    | None => mkSessionScores [] []
                    end)) as [Hg Hf].
    { destruct (data !! sessionId) as [d|] eqn:E.
      - exact (Inv sessionId d E).
      - split; constructor. }
    destruct (String.eqb (category score) "grammar") eqn:Eg.
    + apply String.eqb_eq in Eg. simpl. split; [|exact Hf].
      apply Forall_app. split; [exact Hg | repeat constructor; exact Eg].
    + destruct (String.eqb (category score) "fluency") eqn:Ef.
      * apply String.eqb_eq in Ef. simpl. split; [exact Hg |].
        apply Forall_app. split; [exact Hf | repeat constructor; exact Ef].
      * split; assumption.
  - rewrite lookup_insert_ne by congruence. apply Inv.
Qed.

Lemma recorded_sorted (calls : list (nat * Score)) :
  sorted_scores (recorded calls).
Proof.
  unfold recorded.
  assert (sorted_scores (∅ : gmap nat SessionScores)) as H0.
  { intros sessionId d H. rewrite lookup_empty in H. discriminate. }
  revert H0. generalize (∅ : gmap nat SessionScores).
  induction calls as [|c cs IH]; intros data Inv; simpl.
  - exact Inv.
  - apply IH. apply addSessionScore_sorted. exact Inv.
Qed.

Lemma averaged_category (default : Score) (scores : list Score)
    (name : string) :
  category default = name ->
  Forall (fun s => category s = name) scores ->
  category (averaged default scores) = name.
Proof.
  intros Hd Hall. destruct scores as [|s l]; [exact Hd |].
  destruct (List.exists_last (l := s :: l) ltac:(discriminate))
    as (front & latest & E).
  rewrite E in *. rewrite averaged_snoc. simpl category.
  apply Forall_app in Hall. destruct Hall as [_ Hl].
  inversion Hl; assumption.
Qed.

(** X13. Whatever scores were added in whatever order, every report keeps its
    two parts apart: the grammar part has category 'grammar' and the
    fluency part has category 'fluency', the session number is the one
    asked for and the user number is 0. *)
Theorem report_parts_keep_their_category (calls : list (nat * Score))
    (sessionId : nat) :
  let report := provideSessionFeedback sessionId (recorded calls) in
  category (grammarScore report) = "grammar"
  /\ category (fluencyScore report) = "fluency"
  /\ reportSessionId report = sessionId
  /\ reportUserId report = 0%nat.
Proof.
  intros report. unfold report, provideSessionFeedback.
  simpl grammarScore. simpl fluencyScore.
  pose proof (recorded_sorted calls sessionId) as Inv.
  destruct (recorded calls !! sessionId) as [d|].
  - destruct (Inv d eq_refl) as [Hg Hf].
    repeat split; try reflexivity; apply averaged_category;
      first [reflexivity | assumption].
  - repeat split; reflexivity.
Qed.

End SessionReport.

(** ** Reachable states: the engine, the controller and the replies *)

Section Reachable.
Import AIEngine Server FeedbackReport SessionStatus.
Local Open Scope Z_scope.

Lemma boot_consistent (topics : list nat) : consistent (boot topics).
Proof. unfold consistent, boot. simpl. repeat split; lia. Qed.

Lemma setTopic_keeps (topicId : nat) (c : Controller) :
  currentUser (setTopic topicId c) = currentUser c
  /\ currentSession (setTopic topicId c) = currentSession c
  /\ isRecording (setTopic topicId c) = isRecording c.
Proof.
  unfold setTopic. destruct (existsb _ _); repeat split.
Qed.

Lemma startRecording_without_user (c : Controller) :
  currentUser c = None -> startRecording c = c.
Proof. intros H. unfold startRecording. rewrite H. reflexivity. Qed.

Lemma analyzeAndRespond_engine (g : GeminiResult) (e : Engine) :
  let e' := fst (analyzeAndRespond g e) in
  userMessageCount e' = userMessageCount e
  /\ length (conversationHistory e') = S (length (conversationHistory e))
  /\ incorrectCount e <= incorrectCount e' <= incorrectCount e + 1
  /\ (60 <= lastScore e <= 100 -> 60 <= lastScore e' <= 100)
  /\ currentSessionId e' = currentSessionId e.
Proof.
  destruct g as [|response parsed]; simpl.
  - rewrite length_app. simpl. repeat split; lia.
  - rewrite length_app. simpl.
    destruct (_ && _); repeat split; lia.
Qed.

Lemma handle_consistent (st : State) (r : Request) :
  consistent st -> consistent (handle st r).
Proof.
  intros Inv. pose proof Inv as (Hu & Hs & Hr & Hc & Hh & Hi & Hl).
  destruct r as [q | q | u]; simpl.
  - unfold start. destruct (startUser q); [|exact Inv].
    destruct (startTopicId q =? 0)%nat; [exact Inv|].
    destruct (setTopic_keeps (startTopicId q) (controller st))
      as (K1 & K2 & K3).
    rewrite startRecording_without_user by congruence.
    unfold consistent.
    destruct (createdConversation q); simpl;
      rewrite K1, K2, K3; repeat split; try assumption; lia.
  - unfold chat. destruct (chatUser q); [|exact Inv].
    destruct (chatGuard st); [exact Inv|].
    pose proof (analyzeAndRespond_engine (gemini q)
                  (recordUserMessage (chatText q) (engine st)))
      as (A1 & A2 & A3 & A4 & _).
    destruct (analyzeAndRespond _ _) as [eng' analysis].
    simpl in A1, A2, A3, A4. rewrite length_app in A2. simpl in A2.
    unfold consistent. simpl.
    repeat split; try assumption; try lia; try (apply A4; lia).
  - unfold finish. destruct u; [|exact Inv].
    unfold sessionEnded. rewrite Hs. unfold consistent. simpl.
    repeat split; try assumption; lia.
Qed.

Lemma run_consistent (rs : list Request) (st : State) :
  consistent st -> consistent (run st rs).
Proof.
  revert st. induction rs as [|r rs IH]; intros st Inv; [exact Inv|].
  simpl. apply IH, handle_consistent, Inv.
Qed.

(** X15. The session controller of the server is never given a user, so it
    never opens a session and never records: at every reachable state the
    status endpoint answers inactive with no session, the practice
    endpoint rejects, there is no session report, and every accepted
    start answers session number 0 and starts the AI conversation 0. *)
Theorem controller_never_records (topics : list nat) (rs : list Request)
    (data : gmap nat SessionScores) (q : StartRequest) (user : TokenUser) :
  let st := run (boot topics) rs in
  status st = (false, None)
  /\ practiceRejected st = true
  /\ getSessionReport (controller st) data = None
  /\ (startUser q = Some user -> startTopicId q <> 0%nat ->
      snd (start st q) = Ok 0%nat
      /\ currentSessionId (engine (fst (start st q))) = Some 0%nat
      /\ status (fst (start st q)) = (false, None)).
Proof.
  intros st.
  destruct (run_consistent rs (boot topics) (boot_consistent topics))
    as (Hu & Hs & Hr & _).
  fold st in Hu, Hs, Hr.
  unfold status, practiceRejected, getSessionReport, isSessionRecording.
  rewrite Hs, Hr.
  split; [reflexivity | split; [reflexivity | split; [reflexivity |]]].
  intros Huser Htopic. apply Nat.eqb_neq in Htopic.
  destruct (setTopic_keeps (startTopicId q) (controller st))
    as (K1 & K2 & K3).
  unfold start. rewrite Huser, Htopic.
  rewrite startRecording_without_user by congruence.
  rewrite K2, Hs.
  destruct (createdConversation q); simpl; rewrite K2, K3, Hs, Hr;
    repeat split.
Qed.

Lemma controller_never_records_witness :
  snd (start (run (boot [1; 2; 3]%nat) Samples.scenarioC)
         (mkStart (Some Samples.bob) 2 Samples.daily (Some 11%nat)))
  = Ok 0%nat.
Proof.
  refine (proj1 (proj2 (proj2 (proj2
            (controller_never_records [1; 2; 3]%nat Samples.scenarioC ∅
               (mkStart (Some Samples.bob) 2 Samples.daily (Some 11%nat))
               Samples.bob))) _ _)).
  - reflexivity.
  - simpl. lia.
Defined.

Lemma handle_tallied (st : State) (seen : bool * Z) (r : Request) :
  consistent st -> tallied st seen -> tallied (handle st r) (tally seen r).
Proof.
  intros (Hu & Hs & Hr & _) [T1 T2]. unfold tallied, tally.
  destruct r as [q | q | u]; simpl.
  - unfold start. destruct (startUser q); [|split; assumption].
    destruct (startTopicId q =? 0)%nat; simpl negb; [split; assumption|].
    destruct (createdConversation q); split; reflexivity.
  - unfold chat. destruct (chatUser q); [|split; assumption].
    unfold chatGuard, isSessionRecording. rewrite Hr.
    destruct (currentTopicInfo st) eqn:Et; simpl negb; rewrite T1; simpl.
    + destruct (analyzeAndRespond _ _) as [eng' analysis]. simpl.
      rewrite ?Et. split; [first [reflexivity | exact T1] | lia].
    + rewrite ?Et. split; [first [reflexivity | exact T1] | exact T2].
  - rewrite finish_keeps_topic. unfold finish.
    destruct u; [|split; assumption].
    destruct (sessionEnded _ _). simpl. split; assumption.
Qed.

Lemma run_tallied (rs : list Request) (st : State) (seen : bool * Z) :
  consistent st -> tallied st seen ->
  tallied (run st rs) (fold_left tally rs seen).
Proof.
  revert st seen. induction rs as [|r rs IH]; intros st seen Inv T;
    [exact T|].
  simpl. apply IH; [apply handle_consistent, Inv | apply handle_tallied; assumption].
Qed.

Lemma tally_started (rs : list Request) (seen : bool * Z) :
  fst (fold_left tally rs seen) = fst seen || existsb acceptedStart rs.
Proof.
  revert seen. induction rs as [|r l IH]; intros seen; simpl.
  - rewrite orb_false_r. reflexivity.
  - rewrite IH. unfold tally.
    destruct (acceptedStart r); simpl.
    + rewrite orb_true_r. reflexivity.
    + destruct (authenticatedChat r && fst seen); reflexivity.
Qed.

(** X16. The message counter of the server is the number of chat requests of
    logged-in users since the latest accepted start, whoever sent them
    and whatever was said or answered; end requests and rejected requests
    do not change it.  A chat request is rejected for want of a session
    exactly as long as no start has been accepted. *)
Theorem counter_is_turns_since_start (topics : list nat)
    (rs : list Request) :
  serverMessageCount (run (boot topics) rs) = snd (turnsSinceStart rs)
  /\ chatGuard (run (boot topics) rs) = negb (fst (turnsSinceStart rs))
  /\ (chatGuard (run (boot topics) rs) = true
      <-> existsb acceptedStart rs = false).
Proof.
  pose proof (run_consistent rs (boot topics) (boot_consistent topics))
    as Inv.
  assert (tallied (boot topics) (false, 0)) as T0 by (split; reflexivity).
  destruct (run_tallied rs (boot topics) (false, 0)
              (boot_consistent topics) T0) as [T1 T2].
  fold (turnsSinceStart rs) in T1, T2.
  destruct Inv as (_ & _ & Hr & _).
  assert (chatGuard (run (boot topics) rs) = negb (fst (turnsSinceStart rs)))
    as G.
  { unfold chatGuard, isSessionRecording. rewrite Hr, T1.
    destruct (currentTopicInfo _); reflexivity. }
  split; [symmetry; exact T2 | split; [exact G |]].
  rewrite G.
  unfold turnsSinceStart. rewrite tally_started. simpl.
  destruct (existsb acceptedStart rs); simpl; split; congruence.
Qed.

Lemma counter_is_turns_since_start_witness :
  chatGuard (run (boot [1; 2; 3]%nat) [ReqEnd (Some Samples.alice)]) = true.
Proof.
  apply (proj2 (proj2 (proj2 (counter_is_turns_since_start [1; 2; 3]%nat
                                [ReqEnd (Some Samples.alice)])))).
  reflexivity.
Defined.

(** X17. An end request resets nothing that is counted: the counters, the
    topic and the engine statistics stay, so any later end request, by
    any user, reports the same totals and the same score until the next
    start. *)
Theorem end_reports_repeat (topics : list nat) (rs : list Request)
    (user other : TokenUser) :
  let st := run (boot topics) rs in
  let st' := fst (finish st (Some user)) in
  serverMessageCount st' = serverMessageCount st
  /\ serverIncorrectCount st' = serverIncorrectCount st
  /\ currentTopicInfo st' = currentTopicInfo st
  /\ engine st' = engine st
  /\ endReport st' other = endReport st user
  /\ activeSessions st' = delete (id user) (activeSessions st).
Proof.
  intros st st'.
  destruct (run_consistent rs (boot topics) (boot_consistent topics))
    as (_ & Hs & _).
  fold st in Hs. unfold st', endReport, finish, sessionEnded.
  rewrite Hs. simpl. rewrite Hs. simpl. repeat split.
Qed.

Lemma engine_analysis_shape (g : GeminiResult) (e : Engine) :
  let a := snd (analyzeAndRespond g e) in
  an_short_feedback a = None /\ an_feedback_type a = None
  /\ an_grammar_category a = None
  /\ (exists status, an_sentence_status a = Some status /\ status <> "")
  /\ exists ms, an_mistakes a = Some ms.
Proof.
  destruct g as [|response parsed]; simpl;
    (split; [reflexivity |]); (split; [reflexivity |]);
    (split; [reflexivity |]); (split; [| eexists; reflexivity]).
  - exists "correct". split; [reflexivity | discriminate].
  - destruct parsed as [p|].
    + destruct (p_sentence_status p) as [[|c s]|]; simpl.
      * exists "correct". split; [reflexivity | discriminate].
      * exists (String c s). split; [reflexivity | discriminate].
      * exists "correct". split; [reflexivity | discriminate].
    + exists "correct". split; [reflexivity | discriminate].
Qed.

(** X18. A turn the chat handler answers without a correction always has the
    same shape: short feedback 'Perfect! No grammar mistakes detected.',
    feedback type 'success', no mistakes, no category, the legacy grammar
    score 100, and the incorrect counter left alone. *)
Theorem reply_of_correct_turn (st st' : State) (req : ChatRequest)
    (body : ChatBody) :
  chat st req = (st', Ok body) ->
  trackedHadCorrection body = false ->
  shortFeedback (turn body) = "Perfect! No grammar mistakes detected."
  /\ feedbackType (turn body) = "success"
  /\ mistakes (turn body) = []
  /\ grammarCategory (turn body) = None
  /\ legacyGrammar body = 100
  /\ mistakeCount body = 0%nat
  /\ serverIncorrectCount st' = serverIncorrectCount st.
Proof.
  unfold chat. intros H.
  destruct (chatUser req) as [user|]; [|discriminate].
  destruct (chatGuard st); [discriminate|].
  pose proof (engine_analysis_shape (gemini req)
                (recordUserMessage (chatText req) (engine st)))
    as (A1 & A2 & A3 & (status & A4 & Hne) & (ms & A5)).
  destruct (analyzeAndRespond _ _) as [eng' analysis].
  simpl in A1, A2, A3, A4, A5.
  inversion H; subst; clear H. simpl. intros Hc.
  revert Hc. unfold countsAsIncorrect, classify.
  rewrite A1, A2, A3, A4, A5.
  assert (Str.orElse (Some status) "correct" = status) as Es.
  { destruct status; [congruence | reflexivity]. }
  rewrite Es. simpl Str.orElse. simpl Str.truthy. cbv iota.
  destruct ms as [|m rest].
  - simpl structuredGuard. cbv iota.
    destruct (TurnClassifier.detect (an_feedback analysis)) as [p|] eqn:Ed.
    + unfold extractionGuard. simpl andb.
      destruct (String.eqb status "correct") eqn:Ec; simpl.
      * intros Hc. exfalso. revert Hc.
        match goal with
        | |- hadCorrection (withDefaultFeedback ?c) = false -> False =>
            rewrite (proj1 (withDefaultFeedback_verdict c))
        end.
        unfold hadCorrection. simpl. discriminate.
      * intros Hc. exfalso. revert Hc.
        match goal with
        | |- hadCorrection (withDefaultFeedback ?c) = false -> False =>
            rewrite (proj1 (withDefaultFeedback_verdict c))
        end.
        unfold hadCorrection. simpl. rewrite orb_true_r. discriminate.
    + unfold extractionGuard. simpl andb. cbv iota.
      unfold withDefaultFeedback, hadCorrection. simpl.
      destruct (String.eqb status "has_errors") eqn:Eh; simpl;
        rewrite ?Eh; simpl; [discriminate|].
      intros _.
      destruct (String.eqb status "correct"); simpl; repeat split.
  - intros Hc. exfalso. revert Hc.
    destruct (structuredGuard (m :: rest));
      [| destruct (extractionGuard _ _ _)];
      match goal with
      | |- hadCorrection (withDefaultFeedback ?c) = false -> False =>
          rewrite (proj1 (withDefaultFeedback_verdict c))
      end;
      unfold hadCorrection; simpl; rewrite ?orb_true_r; discriminate.
Qed.

Lemma reply_of_correct_turn_witness :
  exists st' body,
    chat Samples.aliceStarted Samples.helloTurn = (st', Ok body)
    /\ shortFeedback (turn body) = "Perfect! No grammar mistakes detected.".
Proof.
  eexists. eexists.
  assert (chat Samples.aliceStarted Samples.helloTurn = _) as H
    by (vm_compute; reflexivity).
  split; [exact H|].
  exact (proj1 (reply_of_correct_turn _ _ _ _ H eq_refl)).
Defined.

(** X19. A sentence status from the AI that is neither 'correct' nor
    'has_errors', with no mistake list, is answered like a correct turn:
    'Perfect! No grammar mistakes detected.', type 'success', no
    mistakes.  The server still counts the turn as incorrect when the
    feedback holds a correction phrase, and the AI engine counts it as
    incorrect in any case, with a last score of 100. *)
Theorem unknown_status_is_praised (st : State) (req : ChatRequest)
    (user : TokenUser) (response status : string) (p : ParsedJson) :
  chatGuard st = false -> chatUser req = Some user ->
  gemini req = GeminiText response (Some p) ->
  p_sentence_status p = Some status ->
  status <> "" -> status <> "correct" -> status <> "has_errors" ->
  p_mistakes p = None \/ p_mistakes p = Some [] ->
  exists st' body,
    chat st req = (st', Ok body)
    /\ shortFeedback (turn body) = "Perfect! No grammar mistakes detected."
    /\ feedbackType (turn body) = "success"
    /\ mistakes (turn body) = []
    /\ trackedCountsAsIncorrect body
       = match TurnClassifier.detect (Str.orElse (p_feedback p) response) with
         | Some _ => true
         | None => false
         end
    /\ incorrectCount (engine st') = incorrectCount (engine st) + 1
    /\ lastScore (engine st') = 100.
Proof.
  intros Hg Hu Hgem Hs Hne Hc Hh Hm.
  assert (Str.orElse (Some status) "correct" = status) as Es.
  { destruct status; [congruence | reflexivity]. }
  apply String.eqb_neq in Hc, Hh.
  unfold chat. rewrite Hu, Hg, Hgem. unfold analyzeAndRespond.
  rewrite Hs, Es, Hc.
  assert (match p_mistakes p with Some ms => ms | None => [] end = []) as Em
    by (destruct Hm as [-> | ->]; reflexivity).
  rewrite Em. simpl andb. cbv iota.
  eexists. eexists. split; [reflexivity |].
  unfold classify, countsAsIncorrect.
  cbn [an_feedback an_short_feedback an_feedback_type an_sentence_status
       an_mistakes an_grammar_category turn trackedCountsAsIncorrect
       engine incorrectCount lastScore recordUserMessage].
  rewrite Es. simpl Str.orElse at 1. simpl structuredGuard.
  unfold extractionGuard. rewrite Hc, andb_false_r. simpl andb. cbv iota.
  unfold withDefaultFeedback, hadCorrection, isFlencyOnly.
  simpl. rewrite Hh. simpl. rewrite Hh. simpl.
  repeat split; try reflexivity.
  destruct (TurnClassifier.detect _); reflexivity.
Qed.

Lemma unknown_status_is_praised_witness :
  exists st' body,
    chat Samples.aliceStarted
      (mkChat (Some Samples.alice) "I goed home"
         (GeminiText "raw"
            (Some (mkParsed (Some "Nice try.") (Some "incorrect") None))))
    = (st', Ok body)
    /\ shortFeedback (turn body) = "Perfect! No grammar mistakes detected.".
Proof.
  destruct (unknown_status_is_praised Samples.aliceStarted
              (mkChat (Some Samples.alice) "I goed home"
                 (GeminiText "raw"
                    (Some (mkParsed (Some "Nice try.") (Some "incorrect")
                             None))))
              Samples.alice "raw" "incorrect"
              (mkParsed (Some "Nice try.") (Some "incorrect") None)
              eq_refl eq_refl eq_refl eq_refl
              ltac:(discriminate) ltac:(discriminate) ltac:(discriminate)
              (or_introl eq_refl))
    as (st' & body & H & S & _).
  exists st', body. split; assumption.
Defined.

End Reachable.

(** ** The email check *)

Section EmailFormat.
Import Str Regex Accounts.

Lemma append_nil_r_local (s : string) : (s ++ "")%string = s.
Proof.
  induction s as [|c s IH]; [reflexivity |].
  change (String c (s ++ "") = String c s). f_equal. exact IH.
Qed.

Lemma plainChar_step {R : Type} (prev : option ascii) (d : ascii)
    (s : string) (cs : caps) (k : option ascii -> string -> caps -> option R) :
  run false plainChar prev (String d s) cs k
  = if plain d then k (Some d) s cs else None.
Proof.
  unfold plainChar, plain. simpl. unfold clsMatch. simpl.
  unfold chrEq. rewrite orb_false_r. reflexivity.
Qed.

Lemma star_plain_nil {R : Type} (prev : option ascii) (cs : caps)
    (k : option ascii -> string -> caps -> option R) :
  run false (Star plainChar) prev "" cs k = k prev "" cs.
Proof. reflexivity. Qed.

Lemma star_plain_cons {R : Type} (prev : option ascii) (d : ascii)
    (s : string) (cs : caps) (k : option ascii -> string -> caps -> option R) :
  run false (Star plainChar) prev (String d s) cs k
  = if plain d then
      match run false (Star plainChar) (Some d) s cs k with
      | Some x => Some x
      | None => k prev (String d s) cs
      end
    else k prev (String d s) cs.
Proof.
  change (run false (Star plainChar) prev (String d s) cs k)
    with (match run false plainChar prev (String d s) cs
                  (fun p' s' cs' =>
                     if (String.length s' <? String.length (String d s))%nat
                     then run false (Star plainChar) p' s' cs' k
                     else None) with
          | Some x => Some x
          | None => k prev (String d s) cs
          end).
  rewrite plainChar_step.
  destruct (plain d); [|reflexivity].
  assert ((String.length s <? String.length (String d s))%nat = true) as E
    by (apply Nat.ltb_lt; simpl; lia).
  rewrite E. reflexivity.
Qed.

Lemma star_plain_matches {R : Type} (s : string) (prev : option ascii)
    (cs : caps) (k : option ascii -> string -> caps -> option R) :
  run false (Star plainChar) prev s cs k <> None
  <-> exists m r,
        s = (m ++ r)%string /\ allPlain m = true
        /\ k (lastOr prev m) r cs <> None.
Proof.
  revert prev. induction s as [|d s IH]; intros prev.
  - rewrite star_plain_nil. split.
    + intros H. exists "", "". repeat split. exact H.
    + intros (m & r & E & _ & H).
      destruct m; [|discriminate]. destruct r; [|discriminate]. exact H.
  - rewrite star_plain_cons. split.
    + intros H. destruct (plain d) eqn:Pd.
      * destruct (run false (Star plainChar) (Some d) s cs k) as [x|]
          eqn:Inner.
        -- assert (run false (Star plainChar) (Some d) s cs k <> None)
             as Hi by (rewrite Inner; discriminate).
           apply IH in Hi. destruct Hi as (m & r & -> & Pm & Hk).
           exists (String d m), r. simpl. rewrite Pd, Pm.
           repeat split. exact Hk.
        -- exists "", (String d s). repeat split. exact H.
      * exists "", (String d s). repeat split. exact H.
    + intros (m & r & E & Pm & Hk). destruct m as [|c m].
      * change (String d s = r) in E. simpl in Hk. subst r.
        destruct (plain d); [|exact Hk].
        destruct (run false (Star plainChar) (Some d) s cs k);
          [discriminate | exact Hk].
      * change (String d s = String c (m ++ r)) in E. simpl in Pm, Hk.
        injection E as <- ->.
        apply andb_true_iff in Pm. destruct Pm as [Pd Pm].
        rewrite Pd.
        assert (run false (Star plainChar) (Some d) (m ++ r) cs k <> None)
          as Hi by (apply IH; exists m, r; repeat split; assumption).
        destruct (run false (Star plainChar) (Some d) (m ++ r) cs k);
          [discriminate | congruence].
Qed.

Lemma plus_plain_matches {R : Type} (s : string) (prev : option ascii)
    (cs : caps) (k : option ascii -> string -> caps -> option R) :
  run false (Plus plainChar) prev s cs k <> None
  <-> exists m r,
        s = (m ++ r)%string /\ m <> "" /\ allPlain m = true
        /\ k (lastOr prev m) r cs <> None.
Proof.
  change (run false (Plus plainChar) prev s cs k)
    with (run false plainChar prev s cs
            (fun p' s' cs' => run false (Star plainChar) p' s' cs' k)).
  destruct s as [|d s].
  - split; [intros H; exfalso; apply H; reflexivity |].
    intros (m & r & E & Hne & _). destruct m; [congruence | discriminate].
  - rewrite plainChar_step. split.
    + intros H. destruct (plain d) eqn:Pd; [|congruence].
      apply star_plain_matches in H. destruct H as (m & r & -> & Pm & Hk).
      exists (String d m), r. simpl. rewrite Pd, Pm.
      repeat split; [discriminate | exact Hk].
    + intros (m & r & E & Hne & Pm & Hk).
      destruct m as [|c m]; [congruence|].
      change (String d s = String c (m ++ r)) in E. simpl in Pm, Hk.
      injection E as <- ->.
      apply andb_true_iff in Pm. destruct Pm as [Pd Pm]. rewrite Pd.
      apply star_plain_matches. exists m, r. repeat split; assumption.
Qed.

Lemma chr_matches {R : Type} (c : ascii) (s : string) (prev : option ascii)
    (cs : caps) (k : option ascii -> string -> caps -> option R) :
  run false (Chr c) prev s cs k <> None
  <-> exists r, s = String c r /\ k (Some c) r cs <> None.
Proof.
  simpl. destruct s as [|d s].
  - split; [congruence | intros (r & E & _); discriminate].
  - unfold chrEq. destruct (Ascii.eqb c d) eqn:E.
    + apply Ascii.eqb_eq in E. subst d. split.
      * intros H. exists s. split; [reflexivity | exact H].
      * intros (r & [= ->] & H). exact H.
    + apply Ascii.eqb_neq in E. split; [congruence |].
      intros (r & [= C _] & _). congruence.
Qed.

(** X20. The email check accepts exactly the strings of the form
    local@domain.tail in which the three parts are not empty and hold
    neither white space nor '@' (dots are allowed in every part): so an
    accepted email has exactly one '@', no white space, and a dot after
    the '@' with something on both sides. *)
Theorem email_format_accepts_exactly (email : string) :
  validateEmailFormat email = true
  <-> exists local domain tail,
        email = (local ++ "@" ++ domain ++ "." ++ tail)%string
        /\ local <> "" /\ domain <> "" /\ tail <> ""
        /\ allPlain local = true /\ allPlain domain = true
        /\ allPlain tail = true.
Proof.
  unfold validateEmailFormat.
  set (finish := fun (_ : option ascii) (left : string) (_ : caps) =>
                   match left with
                   | EmptyString => Some tt
                   | String _ _ => None
                   end).
  assert (run false emailRegex None email [] finish <> None
          <-> exists local domain tail,
                email = (local ++ "@" ++ domain ++ "." ++ tail)%string
                /\ local <> "" /\ domain <> "" /\ tail <> ""
                /\ allPlain local = true /\ allPlain domain = true
                /\ allPlain tail = true) as H.
  { change (run false emailRegex None email [] finish)
      with (run false (Plus plainChar) None email []
              (fun p1 s1 cs1 =>
                 run false (Chr "@") p1 s1 cs1
                   (fun p2 s2 cs2 =>
                      run false (Plus plainChar) p2 s2 cs2
                        (fun p3 s3 cs3 =>
                           run false (Chr ".") p3 s3 cs3
                             (fun p4 s4 cs4 =>
                                run false (Plus plainChar) p4 s4 cs4
                                  finish))))).
    rewrite plus_plain_matches. split.
    - intros (a & r1 & -> & Na & Pa & H1).
      apply chr_matches in H1. destruct H1 as (r2 & -> & H2).
      apply plus_plain_matches in H2.
      destruct H2 as (b & r3 & -> & Nb & Pb & H3).
      apply chr_matches in H3. destruct H3 as (r4 & -> & H4).
      apply plus_plain_matches in H4.
      destruct H4 as (c & r5 & -> & Nc & Pc & H5).
      destruct r5; [|exfalso; apply H5; reflexivity].
      exists a, b, c. rewrite append_nil_r_local. repeat split; assumption.
    - intros (a & b & c & -> & Na & Nb & Nc & Pa & Pb & Pc).
      exists a, ("@" ++ b ++ "." ++ c)%string.
      repeat split; try assumption.
      apply chr_matches. exists (b ++ "." ++ c)%string.
      split; [reflexivity |].
      apply plus_plain_matches. exists b, ("." ++ c)%string.
      repeat split; try assumption.
      apply chr_matches. exists c. split; [reflexivity |].
      apply plus_plain_matches. exists c, "".
      rewrite append_nil_r_local. repeat split; try assumption.
      discriminate. }
  rewrite <- H.
  destruct (run false emailRegex None email [] finish); split;
    congruence.
Qed.

Lemma email_format_accepts_exactly_witness :
  validateEmailFormat "al@x.org" = true.
Proof.
  apply (proj2 (email_format_accepts_exactly "al@x.org")).
  exists "al", "x", "org".
  repeat split; try reflexivity; discriminate.
Defined.

End EmailFormat.

(** ** Registration and login on the in-memory accounts *)

Section Registration.
Import Str Accounts.

Lemma find_email_none (email : string) (l : list User) :
  List.find (fun user => String.eqb (getEmail user) email) l = None
  <-> existsb (fun existing => String.eqb (getEmail existing) email) l
      = false.
Proof.
  induction l as [|u l IH]; simpl; [tauto|].
  destruct (String.eqb (getEmail u) email); simpl; [split; discriminate|].
  exact IH.
Qed.

Lemma find_email_none_In (email : string) (l : list User) :
  List.find (fun user => String.eqb (getEmail user) email) l = None
  <-> ~ In email (map getEmail l).
Proof.
  induction l as [|u l IH]; simpl; [tauto|].
  destruct (String.eqb (getEmail u) email) eqn:E.
  - apply String.eqb_eq in E. split; [discriminate | tauto].
  - apply String.eqb_neq in E. rewrite IH. tauto.
Qed.

Lemma mapSet_fresh {V : Type} (key : nat) (v : V)
    (entries : list (nat * V)) :
  ~ In key (map fst entries) -> mapSet key v entries = entries ++ [(key, v)].
Proof.
  induction entries as [|[k old] rest IH]; simpl; intros H; [reflexivity|].
  destruct (Nat.eqb k key) eqn:E.
  - apply Nat.eqb_eq in E. tauto.
  - rewrite IH by tauto. reflexivity.
Qed.

Lemma createUser_refused
    (name email password : option string) (a : AuthController) :
  snd (createUser name email password a) = false ->
  fst (createUser name email password a) = a.
Proof.
  unfold createUser.
  destruct (negb (truthy name) || negb (truthy email)
            || negb (truthy password)); [reflexivity|].
  destruct (negb (validateEmailFormat (given email))); [reflexivity|].
  destruct (negb (validatePasswordStrength (given password)));
    [reflexivity|].
  destruct (getUserByEmail (given email) (database a)) eqn:E;
    [reflexivity|].
  unfold generateUserId, storeUser. simpl.
  unfold getUserByEmail in E. apply find_email_none in E. rewrite E.
  simpl. discriminate.
Qed.

(** X21. A registration that is refused changes nothing: neither the users
    nor the next user number nor the current user.  (The number is drawn
    before the user is stored, but storing cannot fail once the email
    was found to be new.) *)
Theorem refused_registration_changes_nothing
    (name email password : option string) (a : AuthController) :
  snd (createUser name email password a) = false ->
  fst (createUser name email password a) = a
  /\ database (fst (createUser name email password a)) = database a
  /\ currentUser (fst (createUser name email password a)) = currentUser a.
Proof.
  intros H. rewrite (createUser_refused name email password a H).
  repeat split.
Qed.

Lemma refused_registration_changes_nothing_witness :
  fst (createUser (Some "Al") (Some "al@x.org") (Some "secret2")
         (after [CallCreateUser (Some "Al") (Some "al@x.org")
                   (Some "secret1")]))
  = after [CallCreateUser (Some "Al") (Some "al@x.org") (Some "secret1")].
Proof.
  exact (proj1 (refused_registration_changes_nothing (Some "Al")
                  (Some "al@x.org") (Some "secret2")
                  (after [CallCreateUser (Some "Al") (Some "al@x.org")
                            (Some "secret1")])
                  eq_refl)).
Defined.

Lemma createUser_accepted (name email password : option string)
    (a : AuthController) :
  sound (database a) ->
  snd (createUser name email password a) = true ->
  truthy name = true /\ truthy email = true /\ truthy password = true
  /\ validateEmailFormat (given email) = true
  /\ validatePasswordStrength (given password) = true
  /\ ~ In (given email) (map getEmail (values (users (database a))))
  /\ fst (createUser name email password a)
     = mkAuth
         (mkDatabase
            (users (database a)
             ++ [(nextUserId (database a),
                  newUser (nextUserId (database a)) (given name)
                    (given email) (given password))])
            (S (nextUserId (database a))))
         (currentUser a).
Proof.
  intros (Hids & Hnext & _ & _). unfold createUser.
  destruct (truthy name); simpl; [|discriminate].
  destruct (truthy email); simpl; [|discriminate].
  destruct (truthy password); simpl; [|discriminate].
  destruct (validateEmailFormat (given email)); simpl; [|discriminate].
  destruct (validatePasswordStrength (given password)); simpl;
    [|discriminate].
  destruct (getUserByEmail (given email) (database a)) eqn:E;
    [discriminate|].
  unfold getUserByEmail in E. pose proof E as E'.
  apply find_email_none in E. apply find_email_none_In in E'.
  unfold storeUser. simpl. rewrite E. simpl. intros _.
  repeat split; try assumption.
  rewrite mapSet_fresh; [reflexivity|].
  rewrite Hids, Hnext. rewrite in_seq. lia.
Qed.

Lemma createUser_sound (name email password : option string)
    (a : AuthController) :
  sound (database a) ->
  sound (database (fst (createUser name email password a))).
Proof.
  intros Hs.
  destruct (snd (createUser name email password a)) eqn:E.
  - destruct (createUser_accepted name email password a Hs E)
      as (_ & _ & _ & Hf & Hp & Hnew & ->).
    destruct Hs as (Hids & Hnext & Hemails & Hall).
    unfold sound. simpl. unfold values in *.
    rewrite !map_app, length_app. simpl.
    repeat split.
    + rewrite Hids, Hnext.
      replace (length (users (database a)) + 1)%nat
        with (S (length (users (database a)))) by lia.
      rewrite seq_S. reflexivity.
    + lia.
    + simpl. apply List.NoDup_app.
      * exact Hemails.
      * constructor; [simpl; tauto | constructor].
      * intros x Hx [<- | []]. exact (Hnew Hx).
    + apply Forall_app. split; [exact Hall |].
      constructor; [|constructor]. simpl. repeat split; assumption.
  - rewrite (createUser_refused _ _ _ _ E). exact Hs.
Qed.

Lemma processCredentials_database (email password : option string)
    (a : AuthController) :
  database (fst (processCredentials email password a)) = database a.
Proof.
  unfold processCredentials.
  repeat match goal with
         | |- context [if ?b then _ else _] => destruct b
         | |- context [match getUserByEmail ?e ?d with _ => _ end] =>
             destruct (getUserByEmail e d)
         end; reflexivity.
Qed.

Lemma login_database (email password : string) (a : AuthController) :
  database (login email password a) = database a.
Proof.
  unfold login.
  pose proof (processCredentials_database (Some email) (Some password) a)
    as H.
  destruct (processCredentials (Some email) (Some password) a)
    as [a' isValid].
  simpl in H. destruct isValid; [|exact H].
  destruct (getUserByEmail email (database a')); exact H.
Qed.

Lemma perform_sound (a : AuthController) (c : Call) :
  sound (database a) -> sound (database (perform a c)).
Proof.
  intros Hs. destruct c as [name email password | email password |]; simpl.
  - apply createUser_sound, Hs.
  - rewrite login_database. exact Hs.
  - unfold logout. destruct (currentUser a); exact Hs.
Qed.

Lemma after_sound (calls : list Call) : sound (database (after calls)).
Proof.
  unfold after.
  assert (sound (database newAuthController)) as H0.
  { unfold sound. simpl. repeat split; constructor. }
  revert H0. generalize newAuthController.
  induction calls as [|c cs IH]; intros a Hs; [exact Hs|].
  simpl. apply IH, perform_sound, Hs.
Qed.

Lemma given_some (s : string) : given (Some s) = s.
Proof. destruct s; reflexivity. Qed.

Lemma truthy_some (s : string) : s <> "" -> truthy (Some s) = true.
Proof. destruct s; [congruence | reflexivity]. Qed.

Lemma unique_email (l : list User) (u v : User) :
  NoDup (map getEmail l) -> In u l -> In v l -> getEmail u = getEmail v ->
  u = v.
Proof.
  induction l as [|w l IH]; simpl; intros Hnd Hu Hv E; [tauto|].
  inversion Hnd as [|x xs Hnot Hnd']; subst.
  destruct Hu as [-> | Hu]; destruct Hv as [-> | Hv].
  - reflexivity.
  - exfalso. apply Hnot. rewrite E. apply in_map, Hv.
  - exfalso. apply Hnot. rewrite <- E. apply in_map, Hu.
  - apply IH; assumption.
Qed.

Lemma sound_stored (db : Database) (u : User) :
  sound db -> In u (values (users db)) ->
  validateEmailFormat (getEmail u) = true
  /\ validatePasswordStrength (getPassword u) = true.
Proof.
  intros (_ & _ & _ & Hall) Hin. unfold values in Hin.
  apply in_map_iff in Hin. destruct Hin as (entry & <- & Hin).
  rewrite Forall_forall in Hall.
  destruct (Hall entry Hin) as (_ & H1 & H2).
  split; assumption.
Qed.

Lemma login_finds (email password : string) (a : AuthController) :
  sound (database a) ->
  currentUser (login email password a)
  = List.find
      (fun user =>
         String.eqb (getEmail user) email
         && String.eqb (getPassword user) password)
      (values (users (database a))).
Proof.
  intros Hs.
  destruct (List.find _ (values (users (database a)))) as [u|] eqn:F.
  - apply find_some in F. destruct F as [Hin Hm].
    apply andb_true_iff in Hm. destruct Hm as [He Hp].
    apply String.eqb_eq in He, Hp.
    destruct (sound_stored _ u Hs Hin) as [Hf Hst].
    rewrite He in Hf. rewrite Hp in Hst.
    assert (email <> "") as Ne by (intros ->; discriminate Hf).
    assert (password <> "") as Np by (intros ->; discriminate Hst).
    assert (validateUserCredentials email password (database a) = true)
      as Hv.
    { unfold validateUserCredentials. apply existsb_exists. exists u.
      split; [exact Hin |]. rewrite He, Hp, !String.eqb_refl. reflexivity. }
    assert (getUserByEmail email (database a) = Some u) as Hg.
    { unfold getUserByEmail.
      destruct (List.find _ (values (users (database a)))) as [v|] eqn:G.
      - apply find_some in G. destruct G as [Hv' Ev].
        apply String.eqb_eq in Ev. f_equal.
        destruct Hs as (_ & _ & Hnd & _).
        apply (unique_email _ v u Hnd Hv' Hin). congruence.
      - exfalso. apply find_email_none_In in G. apply G.
        rewrite <- He. apply in_map, Hin. }
    unfold login, processCredentials.
    rewrite !truthy_some by assumption. rewrite !given_some.
    rewrite Hf, Hst, Hv, Hg. simpl. rewrite Hg. reflexivity.
  - assert (validateUserCredentials email password (database a) = false)
      as Hv.
    { unfold validateUserCredentials.
      destruct (existsb _ _) eqn:E; [|reflexivity].
      apply existsb_exists in E. destruct E as (u & Hin & Hm).
      pose proof (find_none _ _ F u Hin) as C. simpl in C. congruence. }
    unfold login, processCredentials. rewrite !given_some, Hv.
    repeat match goal with
           | |- context [if ?b then _ else _] => destruct b
           end; reflexivity.
Qed.

(** X22. Logging in on a controller reached by any calls makes the current
    user the stored user with exactly this email and this password, and
    nobody if there is none: a failed login logs the previous user out.
    The database is not changed. *)
Theorem login_checks_stored_password (calls : list Call)
    (email password : string) :
  currentUser (login email password (after calls))
  = List.find
      (fun user =>
         String.eqb (getEmail user) email
         && String.eqb (getPassword user) password)
      (values (users (database (after calls))))
  /\ database (login email password (after calls)) = database (after calls)
  /\ isLoggedIn (login email password (after calls))
     = validateUserCredentials email password (database (after calls)).
Proof.
  pose proof (login_finds email password (after calls) (after_sound calls))
    as H.
  split; [exact H | split; [apply login_database |]].
  unfold isLoggedIn. rewrite H. unfold validateUserCredentials.
  destruct (List.find _ _) as [u|] eqn:F.
  - symmetry. apply existsb_exists. exists u. apply find_some in F. exact F.
  - destruct (existsb _ _) eqn:E; [|reflexivity].
    apply existsb_exists in E. destruct E as (u & Hin & Hm).
    pose proof (find_none _ _ F u Hin) as C. simpl in C. congruence.
Qed.

(** X23. The users are numbered 1, 2, 3, ... in the order they registered,
    the next number is the one after the last, and no two stored users
    share an email, whatever calls were made. *)
Theorem accounts_are_numbered_and_unique (calls : list Call) :
  let db := database (after calls) in
  map fst (users db) = seq 1 (length (users db))
  /\ map getUserId (values (users db)) = seq 1 (length (users db))
  /\ nextUserId db = S (length (users db))
  /\ NoDup (map getEmail (values (users db))).
Proof.
  intros db. destruct (after_sound calls) as (H1 & H2 & H3 & H4).
  fold db in H1, H2, H3, H4.
  repeat split; try assumption.
  rewrite <- H1. unfold values. rewrite !map_map.
  apply map_ext_in. intros entry Hin.
  rewrite Forall_forall in H4.
  destruct (H4 entry Hin) as (E & _).
  symmetry. exact E.
Qed.

(** X24. On a controller reached by any calls a registration is accepted
    exactly when name, email and password are given and not empty, the
    email has the required form, the password has at least six
    characters and no stored user has this email; the new user is then
    appended with the next number. *)
Theorem registration_is_accepted_iff (calls : list Call)
    (name email password : string) :
  let a := after calls in
  (snd (createUser (Some name) (Some email) (Some password) a) = true
   <-> name <> "" /\ validateEmailFormat email = true
       /\ (6 <= String.length password)%nat
       /\ ~ In email (map getEmail (values (users (database a)))))
  /\ (snd (createUser (Some name) (Some email) (Some password) a) = true ->
      users (database
               (fst (createUser (Some name) (Some email) (Some password) a)))
      = users (database a)
        ++ [(S (length (users (database a))),
             newUser (S (length (users (database a)))) name email password)]).
Proof.
  intros a. pose proof (after_sound calls) as Hs. fold a in Hs.
  split.
  - split.
    + intros H.
      destruct (createUser_accepted _ _ _ a Hs H)
        as (Hn & _ & _ & Hf & Hp & Hnew & _).
      rewrite !given_some in *.
      repeat split; try assumption.
      * intros ->. discriminate Hn.
      * apply Nat.leb_le. exact Hp.
    + intros (Hn & Hf & Hp & Hnew).
      assert (email <> "") as Ne by (intros ->; discriminate Hf).
      assert (password <> "") as Np by (intros ->; simpl in Hp; lia).
      unfold createUser. rewrite !truthy_some by assumption.
      rewrite !given_some, Hf. unfold validatePasswordStrength.
      rewrite (proj2 (Nat.leb_le _ _) Hp). simpl.
      apply find_email_none_In in Hnew. unfold getUserByEmail.
      rewrite Hnew. apply find_email_none in Hnew.
      unfold storeUser. simpl. rewrite Hnew. reflexivity.
  - intros H.
    destruct (createUser_accepted _ _ _ a Hs H) as (_ & _ & _ & _ & _ & _ & E).
    rewrite E, !given_some. cbn [database users].
    destruct Hs as (_ & -> & _). reflexivity.
Qed.

Lemma registration_is_accepted_iff_witness :
  snd (createUser (Some "Al") (Some "al@x.org") (Some "secret1") (after []))
  = true.
Proof.
  apply (proj2 (proj1 (registration_is_accepted_iff [] "Al" "al@x.org"
                         "secret1"))).
  split; [discriminate | split; [reflexivity | split; [simpl; lia |]]].
  simpl. tauto.
Defined.

Lemma perform_keeps_users (a : AuthController) (c : Call) :
  sound (database a) ->
  exists extra,
    users (database (perform a c)) = users (database a) ++ extra.
Proof.
  intros Hs. destruct c as [name email password | email password |]; simpl.
  - destruct (snd (createUser name email password a)) eqn:E.
    + destruct (createUser_accepted _ _ _ a Hs E)
        as (_ & _ & _ & _ & _ & _ & ->).
      simpl. eexists. reflexivity.
    + rewrite (createUser_refused _ _ _ _ E).
      exists []. rewrite app_nil_r. reflexivity.
  - rewrite login_database. exists []. rewrite app_nil_r. reflexivity.
  - unfold logout. destruct (currentUser a); exists [];
      rewrite app_nil_r; reflexivity.
Qed.

Lemma later_keeps_users (later : list Call) (a : AuthController) :
  sound (database a) ->
  sound (database (fold_left perform later a))
  /\ exists extra,
       users (database (fold_left perform later a))
       = users (database a) ++ extra.
Proof.
  revert a. induction later as [|c cs IH]; intros a Hs; simpl.
  - split; [exact Hs |]. exists []. rewrite app_nil_r. reflexivity.
  - destruct (IH (perform a c) (perform_sound a c Hs)) as [Hs' [x Hx]].
    split; [exact Hs' |].
    destruct (perform_keeps_users a c Hs) as [y Hy].
    exists (y ++ x). rewrite Hx, Hy, app_assoc. reflexivity.
Qed.

(** X25. Registration and login round trip: once a registration was accepted,
    a login with the same email and password succeeds at any later time,
    whatever registrations, logins and logouts came in between, and the
    current user is then the registered one, with the name, email and
    number given at registration. *)
Theorem registered_user_can_log_in (before later : list Call)
    (name email password : string) :
  let a := after before in
  let registered :=
    fst (createUser (Some name) (Some email) (Some password) a) in
  snd (createUser (Some name) (Some email) (Some password) a) = true ->
  currentUser (login email password (fold_left perform later registered))
  = Some (newUser (S (length (users (database a)))) name email password).
Proof.
  intros a registered Hok.
  pose proof (after_sound before) as Hs. fold a in Hs.
  pose proof (createUser_sound (Some name) (Some email) (Some password) a Hs)
    as Hr. fold registered in Hr.
  destruct (createUser_accepted _ _ _ a Hs Hok)
    as (_ & _ & _ & _ & _ & _ & E).
  fold registered in E. rewrite !given_some in E.
  destruct (later_keeps_users later registered Hr) as [Hl [extra Hx]].
  rewrite (login_finds email password _ Hl).
  set (u := newUser (S (length (users (database a)))) name email password).
  assert (In u (values (users (database (fold_left perform later
                                           registered))))) as Hin.
  { rewrite Hx, E. cbn [database users]. unfold values.
    rewrite !map_app. apply in_or_app. left. apply in_or_app. right.
    destruct Hs as (_ & -> & _). left. reflexivity. }
  destruct (List.find _ _) as [v|] eqn:F.
  - apply find_some in F. destruct F as [Hv Hm].
    apply andb_true_iff in Hm. destruct Hm as [He _].
    apply String.eqb_eq in He. f_equal.
    destruct Hl as (_ & _ & Hnd & _).
    apply (unique_email _ v u Hnd Hv Hin). exact He.
  - pose proof (find_none _ _ F u Hin) as C. simpl in C.
    rewrite !String.eqb_refl in C. discriminate C.
Qed.

Lemma registered_user_can_log_in_witness :
  currentUser
    (login "al@x.org" "secret1"
       (fold_left perform
          [CallCreateUser (Some "Bo") (Some "bo@x.org") (Some "secret2");
           CallLogin "bo@x.org" "secret2"; CallLogout]
          (fst (createUser (Some "Al") (Some "al@x.org") (Some "secret1")
                  (after [])))))
  = Some (newUser 1 "Al" "al@x.org" "secret1").
Proof.
  exact (registered_user_can_log_in []
           [CallCreateUser (Some "Bo") (Some "bo@x.org") (Some "secret2");
            CallLogin "bo@x.org" "secret2"; CallLogout]
           "Al" "al@x.org" "secret1" eq_refl).
Defined.

End Registration.

(** ** Tokens *)

Section TokenStore.
Import Str Server Accounts Tokens.

Lemma getEntry_set_same {V : Type} (key : string) (v : V)
    (entries : list (string * V)) :
  getEntry key (setEntry key v entries) = Some v.
Proof.
  induction entries as [|[k old] rest IH]; simpl.
  - rewrite String.eqb_refl. reflexivity.
  - destruct (String.eqb k key) eqn:E; simpl; rewrite E; [reflexivity | exact IH].
Qed.

Lemma getEntry_set_other {V : Type} (key other : string) (v : V)
    (entries : list (string * V)) :
  other <> key ->
  getEntry other (setEntry key v entries) = getEntry other entries.
Proof.
  intros Hne. induction entries as [|[k old] rest IH]; simpl.
  - apply String.eqb_neq in Hne. rewrite String.eqb_sym, Hne. reflexivity.
  - destruct (String.eqb k key) eqn:E; simpl.
    + apply String.eqb_eq in E. subst k.
      assert (String.eqb key other = false) as E'
        by (apply String.eqb_neq; congruence).
      rewrite E'. reflexivity.
    + rewrite IH. reflexivity.
Qed.

Lemma getEntry_none {V : Type} (key : string) (entries : list (string * V)) :
  ~ In key (map fst entries) -> getEntry key entries = None.
Proof.
  induction entries as [|[k v] rest IH]; simpl; intros H; [reflexivity|].
  destruct (String.eqb k key) eqn:E.
  - apply String.eqb_eq in E. tauto.
  - apply IH. tauto.
Qed.

Lemma getEntry_some_In {V : Type} (key : string) (v : V)
    (entries : list (string * V)) :
  getEntry key entries = Some v -> In (key, v) entries.
Proof.
  induction entries as [|[k w] rest IH]; simpl; [discriminate|].
  destruct (String.eqb k key) eqn:E.
  - apply String.eqb_eq in E. intros [= ->]. left. congruence.
  - intros H. right. apply IH, H.
Qed.

Lemma In_getEntry {V : Type} (key : string) (v : V)
    (entries : list (string * V)) :
  NoDup (map fst entries) -> In (key, v) entries ->
  getEntry key entries = Some v.
Proof.
  induction entries as [|[k w] rest IH]; simpl; intros Hnd Hin; [tauto|].
  inversion Hnd as [|x xs Hnot Hnd']; subst.
  destruct Hin as [[= -> ->] | Hin].
  - rewrite String.eqb_refl. reflexivity.
  - destruct (String.eqb k key) eqn:E.
    + apply String.eqb_eq in E. subst k. exfalso. apply Hnot.
      apply (in_map fst) in Hin. exact Hin.
    + apply IH; assumption.
Qed.

Lemma keys_delete {V : Type} (key : string) (entries : list (string * V)) :
  NoDup (map fst entries) ->
  NoDup (map fst (deleteEntry key entries))
  /\ (forall other, In other (map fst (deleteEntry key entries))
                    <-> In other (map fst entries) /\ other <> key).
Proof.
  induction entries as [|[k v] rest IH]; simpl; intros Hnd.
  - split; [constructor | tauto].
  - inversion Hnd as [|x xs Hnot Hnd']; subst.
    destruct (IH Hnd') as [IH1 IH2].
    destruct (String.eqb k key) eqn:E.
    + apply String.eqb_eq in E. subst k. split; [exact Hnd' |].
      intros other. split.
      * intros H. split; [right; exact H | intros ->; tauto].
      * intros [[-> | H] Hne]; [congruence | exact H].
    + apply String.eqb_neq in E. simpl. split.
      * constructor; [|exact IH1]. rewrite IH2. tauto.
      * intros other. rewrite IH2. split.
        -- intros [-> | [H Hne]]; [split; [left; reflexivity | congruence]
                                  | split; [right; exact H | exact Hne]].
        -- intros [[-> | H] Hne]; [left; reflexivity | right; tauto].
Qed.

Lemma getEntry_delete_same {V : Type} (key : string)
    (entries : list (string * V)) :
  NoDup (map fst entries) -> getEntry key (deleteEntry key entries) = None.
Proof.
  intros Hnd. apply getEntry_none.
  destruct (keys_delete key entries Hnd) as [_ H]. rewrite H. tauto.
Qed.

Lemma getEntry_delete_other {V : Type} (key other : string)
    (entries : list (string * V)) :
  other <> key ->
  getEntry other (deleteEntry key entries) = getEntry other entries.
Proof.
  intros Hne. induction entries as [|[k v] rest IH]; simpl; [reflexivity|].
  destruct (String.eqb k key) eqn:E; simpl.
  - apply String.eqb_eq in E. subst k.
    assert (String.eqb key other = false) as E'
      by (apply String.eqb_neq; congruence).
    rewrite E'. reflexivity.
  - rewrite IH. reflexivity.
Qed.

Lemma keys_set {V : Type} (key : string) (v : V)
    (entries : list (string * V)) :
  map fst (setEntry key v entries)
  = if existsb (String.eqb key) (map fst entries)
    then map fst entries else map fst entries ++ [key].
Proof.
  induction entries as [|[k old] rest IH]; simpl; [reflexivity|].
  rewrite (String.eqb_sym key k).
  destruct (String.eqb k key) eqn:E; simpl; [reflexivity|].
  rewrite IH. destruct (existsb _ _); reflexivity.
Qed.

Lemma keys_set_NoDup {V : Type} (key : string) (v : V)
    (entries : list (string * V)) :
  NoDup (map fst entries) -> NoDup (map fst (setEntry key v entries)).
Proof.
  intros Hnd. rewrite keys_set.
  destruct (existsb _ _) eqn:E; [exact Hnd|].
  apply List.NoDup_app; [exact Hnd | constructor; [simpl; tauto | constructor] |].
  intros x Hx [Hk | []]. subst x.
  assert (existsb (String.eqb key) (map fst entries) = true) as C.
  { apply existsb_exists. exists key.
    split; [exact Hx | apply String.eqb_refl]. }
  congruence.
Qed.

Lemma keys_delete_eq {V W : Type} (key : string)
    (a : list (string * V)) (b : list (string * W)) :
  map fst a = map fst b ->
  map fst (deleteEntry key a) = map fst (deleteEntry key b).
Proof.
  revert b. induction a as [|[k v] a IH]; intros [|[k' w] b]; simpl;
    try discriminate; [reflexivity|].
  intros [= -> H]. destruct (String.eqb k' key); simpl; [exact H|].
  f_equal. apply IH, H.
Qed.

Lemma remember_aligned (token : string) (user : TokenUser) (l : Logins) :
  aligned l -> aligned (remember token user l).
Proof.
  intros (Hk & Hnd & Hv). unfold aligned, remember. simpl.
  split; [| split].
  - rewrite !keys_set, Hk. reflexivity.
  - apply keys_set_NoDup, Hnd.
  - intros t. destruct (String.eqb t token) eqn:E.
    + apply String.eqb_eq in E. subst t.
      rewrite !getEntry_set_same. reflexivity.
    + apply String.eqb_neq in E.
      rewrite !getEntry_set_other by exact E. apply Hv.
Qed.

Lemma forget_aligned (token : string) (l : Logins) :
  aligned l ->
  aligned (mkLogins (deleteEntry token (tokenStore l))
             (deleteEntry token (loggedInUsers l)) (authController l)).
Proof.
  intros (Hk & Hnd & Hv). unfold aligned. simpl.
  split; [| split].
  - apply keys_delete_eq, Hk.
  - apply keys_delete, Hnd.
  - intros t. destruct (String.eqb t token) eqn:E.
    + apply String.eqb_eq in E. subst t.
      rewrite !getEntry_delete_same; [reflexivity | exact Hnd |].
      rewrite <- Hk. exact Hnd.
    + apply String.eqb_neq in E.
      rewrite !getEntry_delete_other by exact E. apply Hv.
Qed.

Lemma cleanup_aligned (tokens : list string) (l : Logins) :
  aligned l ->
  let cleaned :=
    fold_left
      (fun acc token =>
         mkLogins (deleteEntry token (tokenStore acc))
           (deleteEntry token (loggedInUsers acc)) (authController acc))
      tokens l in
  aligned cleaned
  /\ authController cleaned = authController l
  /\ forall t,
       getEntry t (tokenStore cleaned)
       = if existsb (String.eqb t) tokens then None
         else getEntry t (tokenStore l).
Proof.
  revert l. induction tokens as [|token rest IH]; intros l Ha; simpl.
  - split; [exact Ha | split; [reflexivity | reflexivity]].
  - destruct (IH _ (forget_aligned token l Ha)) as (I1 & I2 & I3).
    split; [exact I1 | split; [exact I2 |]].
    intros t. rewrite I3. simpl.
    destruct (String.eqb t token) eqn:E; simpl.
    + apply String.eqb_eq in E. subst t.
      destruct (existsb _ rest); [reflexivity|].
      apply getEntry_delete_same. apply Ha.
    + apply String.eqb_neq in E.
      rewrite getEntry_delete_other by exact E. reflexivity.
Qed.

Lemma loginRoute_keeps (mysql : bool) (req : LoginRequest) (l : Logins) :
  aligned l -> sound (database (authController l)) ->
  aligned (fst (loginRoute mysql req l))
  /\ sound (database (authController (fst (loginRoute mysql req l)))).
Proof.
  intros Ha Hs. unfold loginRoute.
  destruct (negb (truthy (loginEmail req))
            || negb (truthy (loginPassword req))); [split; assumption|].
  destruct mysql.
  - destruct (userRow req) as [row|]; [|split; assumption].
    destruct (cleanup_aligned (tokensOf (id row) (loggedInUsers l)) l Ha)
      as (C1 & C2 & _).
    simpl. split; [apply remember_aligned, C1 |].
    simpl. rewrite C2. exact Hs.
  - assert (aligned
              (mkLogins (tokenStore l) (loggedInUsers l)
                 (Accounts.login (given (loginEmail req))
                    (given (loginPassword req)) (authController l))))
      as Ha' by exact Ha.
    destruct (currentUser _); simpl.
    + split; [apply remember_aligned, Ha' |].
      simpl. rewrite login_database. exact Hs.
    + split; [exact Ha' |]. rewrite login_database. exact Hs.
Qed.

Lemma serve_keeps (mysql : bool) (ls : Logins * State) (r : AuthRequest) :
  aligned (fst ls) -> sound (database (authController (fst ls))) ->
  aligned (fst (serve mysql ls r))
  /\ sound (database (authController (fst (serve mysql ls r)))).
Proof.
  intros Ha Hs. destruct ls as [l st]. simpl in Ha, Hs.
  destruct r as [req | header | name email password]; simpl.
  - apply loginRoute_keeps; assumption.
  - unfold logoutRoute.
    destruct (tokenAuthMiddleware header l); [|split; assumption].
    destruct header as [h|]; [|split; assumption].
    destruct (nonEmpty h); [|split; assumption].
    simpl. split; [apply forget_aligned, Ha | exact Hs].
  - destruct mysql; [split; assumption|].
    unfold registerRoute.
    destruct (negb (truthy name) || negb (truthy email)
              || negb (truthy password)); [split; assumption|].
    pose proof (createUser_sound name email password (authController l) Hs)
      as Hc.
    destruct (createUser name email password (authController l))
      as [auth success].
    simpl in *. split; [exact Ha | exact Hc].
Qed.

Lemma served_keeps (mysql : bool) (rs : list AuthRequest) (st : State) :
  aligned (fst (served mysql rs st))
  /\ sound (database (authController (fst (served mysql rs st)))).
Proof.
  unfold served.
  assert (aligned (fst (noLogins, st))
          /\ sound (database (authController (fst (noLogins, st))))) as H0.
  { split.
    - unfold aligned. simpl. split; [reflexivity | split; [constructor |]].
      reflexivity.
    - unfold sound. simpl. repeat split; constructor. }
  revert H0. generalize (noLogins, st).
  induction rs as [|r rs IH]; intros ls H; [exact H|].
  simpl. apply IH. destruct H as [Ha Hs]. apply serve_keeps; assumption.
Qed.

Lemma bearer_token (token : string) (l : Logins) :
  tokenAuthMiddleware (Some ("Bearer " ++ token)%string) l
  = getEntry token (tokenStore l).
Proof. destruct token; reflexivity. Qed.

(** X26. After any login, logout and registration requests the two token maps
    go together: they hold the same tokens in the same order, no token
    twice, and a token stands for a user in [tokenStore] exactly when
    [loggedInUsers] holds this user's number, name and email under the
    same token. *)
Theorem token_maps_stay_aligned (mysql : bool) (rs : list AuthRequest)
    (st : State) (token : string) (user : TokenUser) :
  let l := fst (served mysql rs st) in
  map fst (tokenStore l) = map fst (loggedInUsers l)
  /\ NoDup (map fst (tokenStore l))
  /\ (getEntry token (tokenStore l) = Some user
      <-> getEntry token (loggedInUsers l)
          = Some (mkLoggedIn (id user) (name user) (email user) token)).
Proof.
  intros l. destruct (served_keeps mysql rs st) as [(Hk & Hnd & Hv) _].
  fold l in Hk, Hnd, Hv.
  split; [exact Hk | split; [exact Hnd |]].
  rewrite Hv. destruct (getEntry token (tokenStore l)) as [u|]; simpl.
  - split; [intros [= ->]; reflexivity |].
    destruct u, user. simpl. intros [= -> -> ->]. reflexivity.
  - split; discriminate.
Qed.

Lemma token_maps_stay_aligned_witness :
  getEntry "t1"
    (loggedInUsers
       (fst (served true
               [AuthLogin (mkLoginRequest (Some "alice@example.org")
                             (Some "secret1") (Some Samples.alice) "t1")]
               Samples.booted)))
  = Some (mkLoggedIn 1 "alice" "alice@example.org" "t1").
Proof.
  apply (proj1 (proj2 (proj2 (token_maps_stay_aligned true
                                [AuthLogin (mkLoginRequest
                                              (Some "alice@example.org")
                                              (Some "secret1")
                                              (Some Samples.alice) "t1")]
                                Samples.booted "t1" Samples.alice)))).
  reflexivity.
Defined.

(** X27. Logging out with a header that names a stored token revokes exactly
    this token: the same header no longer stands for a user, so a chat
    request sent with it is answered 401; every other token works as
    before, also the other tokens of the same user; and the user is
    removed from the active sessions.  With any other header, logout
    changes nothing. *)
Theorem logout_revokes_the_token (mysql : bool) (rs : list AuthRequest)
    (st0 st : State) (header : string) (user : TokenUser) :
  let l := fst (served mysql rs st0) in
  tokenAuthMiddleware (Some header) l = Some user ->
  let l' := fst (logoutRoute (Some header) l st) in
  let st' := snd (logoutRoute (Some header) l st) in
  tokenAuthMiddleware (Some header) l' = None
  /\ (forall text answer,
        chat st' (mkChat (tokenAuthMiddleware (Some header) l') text answer)
        = (st', Unauthorized))
  /\ (forall other,
        other <> substring 7 header ->
        getEntry other (tokenStore l') = getEntry other (tokenStore l))
  /\ activeSessions st' = delete (id user) (activeSessions st)
  /\ serverMessageCount st' = serverMessageCount st
  /\ (forall unknown,
        tokenAuthMiddleware unknown l = None ->
        logoutRoute unknown l st = (l, st)).
Proof.
  intros l Hauth l' st'.
  destruct (served_keeps mysql rs st0) as [(Hk & Hnd & Hv) _].
  fold l in Hk, Hnd, Hv.
  assert (nonEmpty header && startsWith header "Bearer " = true) as Hh.
  { revert Hauth. unfold tokenAuthMiddleware.
    destruct (nonEmpty header && startsWith header "Bearer ");
      [reflexivity | discriminate]. }
  assert (nonEmpty header = true) as Hn
    by (apply andb_true_iff in Hh; tauto).
  assert (logoutRoute (Some header) l st
          = (mkLogins (deleteEntry (substring 7 header) (tokenStore l))
               (deleteEntry (substring 7 header) (loggedInUsers l))
               (authController l),
             mkState (currentTopicInfo st) (serverMessageCount st)
               (serverIncorrectCount st)
               (delete (id user) (activeSessions st))
               (currentConversationId st) (controller st) (engine st)))
    as E.
  { unfold logoutRoute. rewrite Hauth, Hn. reflexivity. }
  unfold l', st'. rewrite E. cbn [fst snd].
  assert (tokenAuthMiddleware (Some header)
            (mkLogins (deleteEntry (substring 7 header) (tokenStore l))
               (deleteEntry (substring 7 header) (loggedInUsers l))
               (authController l)) = None) as Hgone.
  { unfold tokenAuthMiddleware. rewrite Hh. simpl.
    apply getEntry_delete_same, Hnd. }
  split; [exact Hgone |].
  split; [intros text answer; rewrite Hgone; reflexivity |].
  split; [intros other Hne; apply getEntry_delete_other, Hne |].
  split; [reflexivity | split; [reflexivity |]].
  intros unknown Hu. unfold logoutRoute. rewrite Hu. reflexivity.
Qed.

Lemma logout_revokes_the_token_witness :
  tokenAuthMiddleware (Some "Bearer t1")
    (fst (logoutRoute (Some "Bearer t1")
            (fst (served true
                    [AuthLogin (mkLoginRequest (Some "alice@example.org")
                                  (Some "secret1") (Some Samples.alice) "t1")]
                    Samples.aliceStarted))
            Samples.aliceStarted))
  = None.
Proof.
  exact (proj1 (logout_revokes_the_token true
                  [AuthLogin (mkLoginRequest (Some "alice@example.org")
                                (Some "secret1") (Some Samples.alice) "t1")]
                  Samples.aliceStarted Samples.aliceStarted "Bearer t1"
                  Samples.alice eq_refl)).
Defined.

Lemma tokensOf_spec (userId : nat) (token : string)
    (entries : list (string * LoggedInUser)) :
  NoDup (map fst entries) ->
  existsb (String.eqb token) (tokensOf userId entries)
  = match getEntry token entries with
    | Some entry => Nat.eqb (loggedUserId entry) userId
    | None => false
    end.
Proof.
  induction entries as [|[k e] rest IH]; simpl; intros Hnd; [reflexivity|].
  inversion Hnd as [|x xs Hnot Hnd']; subst.
  unfold tokensOf in *. simpl.
  destruct (String.eqb k token) eqn:E.
  - apply String.eqb_eq in E. subst k.
    destruct (Nat.eqb (loggedUserId e) userId) eqn:Ei; simpl.
    + rewrite String.eqb_refl. reflexivity.
    + rewrite (IH Hnd'). rewrite getEntry_none by exact Hnot. reflexivity.
  - destruct (Nat.eqb (loggedUserId e) userId); simpl.
    + rewrite String.eqb_sym, E. simpl. apply IH, Hnd'.
    + apply IH, Hnd'.
Qed.

(** X28. A login on the MySQL branch gives the user a new token and revokes
    every older token of the same user; the tokens of all other users
    keep standing for them. *)
Theorem mysql_login_revokes_older_tokens (rs : list AuthRequest)
    (st0 : State) (req : LoginRequest) (row : TokenUser) :
  let l := fst (served true rs st0) in
  truthy (loginEmail req) = true -> truthy (loginPassword req) = true ->
  userRow req = Some row ->
  let l' := fst (loginRoute true req l) in
  snd (loginRoute true req l) = Ok (newToken req, row)
  /\ tokenAuthMiddleware (Some ("Bearer " ++ newToken req)%string) l'
     = Some row
  /\ forall token,
       token <> newToken req ->
       getEntry token (tokenStore l')
       = match getEntry token (tokenStore l) with
         | Some user => if Nat.eqb (id user) (id row) then None else Some user
         | None => None
         end.
Proof.
  intros l He Hp Hrow l'.
  destruct (served_keeps true rs st0) as [Ha _]. fold l in Ha.
  unfold l', loginRoute. rewrite He, Hp, Hrow. simpl negb. simpl orb.
  cbv iota. cbn [fst snd].
  destruct (cleanup_aligned (tokensOf (id row) (loggedInUsers l)) l Ha)
    as (_ & _ & C).
  assert (mkUser (id row) (name row) (email row) = row) as Er
    by (destruct row; reflexivity).
  rewrite Er. split; [reflexivity |].
  split.
  - rewrite bearer_token. unfold remember. simpl.
    apply getEntry_set_same.
  - intros token Hne. unfold remember. simpl.
    rewrite getEntry_set_other by exact Hne.
    rewrite C. destruct Ha as (Hk & Hnd & Hv).
    rewrite tokensOf_spec by (rewrite <- Hk; exact Hnd).
    rewrite Hv. destruct (getEntry token (tokenStore l)) as [u|]; simpl;
      [|reflexivity].
    destruct (Nat.eqb (id u) (id row)); reflexivity.
Qed.

Lemma mysql_login_revokes_older_tokens_witness :
  getEntry "t1"
    (tokenStore
       (fst (loginRoute true
               (mkLoginRequest (Some "alice@example.org") (Some "secret1")
                  (Some Samples.alice) "t2")
               (fst (served true
                       [AuthLogin (mkLoginRequest (Some "alice@example.org")
                                     (Some "secret1") (Some Samples.alice)
                                     "t1")]
                       Samples.booted)))))
  = None.
Proof.
  rewrite (proj2 (proj2 (mysql_login_revokes_older_tokens
                           [AuthLogin (mkLoginRequest
                                         (Some "alice@example.org")
                                         (Some "secret1")
                                         (Some Samples.alice) "t1")]
                           Samples.booted
                           (mkLoginRequest (Some "alice@example.org")
                              (Some "secret1") (Some Samples.alice) "t2")
                           Samples.alice eq_refl eq_refl eq_refl)) "t1");
    [reflexivity | discriminate].
Defined.

(** X29. A login on the in-memory branch is answered with a token exactly
    when a stored user has the email and the password of the request,
    and the token then stands for this user; otherwise the answer is
    401.  No other token is touched: older tokens of the same user keep
    working. *)
Theorem memory_login_issues_token_for_stored_user (rs : list AuthRequest)
    (st0 : State) (req : LoginRequest) (email password : string) :
  let l := fst (served false rs st0) in
  loginEmail req = Some email -> loginPassword req = Some password ->
  email <> "" -> password <> "" ->
  let l' := fst (loginRoute false req l) in
  let found :=
    List.find
      (fun user =>
         String.eqb (getEmail user) email
         && String.eqb (getPassword user) password)
      (values (users (database (authController l)))) in
  snd (loginRoute false req l)
  = match found with
    | Some user =>
        Ok (newToken req,
            mkUser (getUserId user) (getName user) (getEmail user))
    | None => Unauthorized
    end
  /\ tokenAuthMiddleware (Some ("Bearer " ++ newToken req)%string) l'
     = match found with
       | Some user =>
           Some (mkUser (getUserId user) (getName user) (getEmail user))
       | None => getEntry (newToken req) (tokenStore l)
       end
  /\ forall token,
       token <> newToken req ->
       getEntry token (tokenStore l') = getEntry token (tokenStore l).
Proof.
  intros l He Hp Hne Hnp l' found.
  destruct (served_keeps false rs st0) as [_ Hs]. fold l in Hs.
  pose proof (login_finds email password (authController l) Hs) as Hl.
  fold found in Hl.
  unfold l', loginRoute. rewrite He, Hp.
  rewrite !truthy_some by assumption. rewrite !given_some.
  simpl negb. simpl orb. cbv iota. rewrite Hl.
  destruct found as [u|]; cbn [fst snd].
  - split; [reflexivity |]. split.
    + rewrite bearer_token. unfold remember. simpl.
      apply getEntry_set_same.
    + intros token Hn. unfold remember. simpl.
      apply getEntry_set_other, Hn.
  - split; [reflexivity |]. split.
    + rewrite bearer_token. reflexivity.
    + intros token Hn. reflexivity.
Qed.

Lemma memory_login_issues_token_for_stored_user_witness :
  snd (loginRoute false
         (mkLoginRequest (Some "al@x.org") (Some "secret1") None "t1")
         (fst (served false
                 [AuthRegister (Some "Al") (Some "al@x.org")
                    (Some "secret1")]
                 Samples.booted)))
  = Ok ("t1", mkUser 1 "Al" "al@x.org").
Proof.
  rewrite (proj1 (memory_login_issues_token_for_stored_user
                    [AuthRegister (Some "Al") (Some "al@x.org")
                       (Some "secret1")]
                    Samples.booted
                    (mkLoginRequest (Some "al@x.org") (Some "secret1") None
                       "t1")
                    "al@x.org" "secret1" eq_refl eq_refl
                    ltac:(discriminate) ltac:(discriminate))).
  reflexivity.
Defined.

Lemma unique_In (ids : list nat) (i : nat) :
  In i (unique ids) <-> In i ids.
Proof.
  induction ids as [|j rest IH]; simpl; [tauto|].
  rewrite filter_In, IH, negb_true_iff, Nat.eqb_neq.
  destruct (Nat.eq_dec j i); [tauto|]. split.
  - intros [H | [H _]]; tauto.
  - intros [H | H]; [tauto | right; split; [exact H | congruence]].
Qed.

Lemma unique_NoDup (ids : list nat) : NoDup (unique ids).
Proof.
  induction ids as [|j rest IH]; simpl; constructor.
  - rewrite filter_In, negb_true_iff, Nat.eqb_neq. tauto.
  - apply List.NoDup_filter, IH.
Qed.

Lemma unique_length (ids : list nat) :
  (length (unique ids) <= length ids)%nat.
Proof.
  induction ids as [|j rest IH]; simpl; [lia|].
  pose proof (List.filter_length_le (fun k => negb (Nat.eqb k j))
                (unique rest)).
  lia.
Qed.

(** X30. The list of online users names every user once, however many tokens
    the user holds: a number is listed exactly when some stored token
    stands for a user with this number, and the list is never longer
    than the token store. *)
Theorem online_users_are_token_holders (mysql : bool)
    (rs : list AuthRequest) (st : State) (userId : nat) :
  let l := fst (served mysql rs st) in
  NoDup (onlineUserIds l)
  /\ (In userId (onlineUserIds l)
      <-> exists token user,
            getEntry token (tokenStore l) = Some user /\ id user = userId)
  /\ (length (onlineUserIds l) <= length (tokenStore l))%nat.
Proof.
  intros l. destruct (served_keeps mysql rs st) as [(Hk & Hnd & Hv) _].
  fold l in Hk, Hnd, Hv.
  assert (NoDup (map fst (loggedInUsers l))) as Hnd'
    by (rewrite <- Hk; exact Hnd).
  unfold onlineUserIds.
  split; [apply unique_NoDup | split].
  - rewrite unique_In, in_map_iff. split.
    + intros ([token entry] & Hid & Hin). simpl in Hid.
      pose proof (In_getEntry token entry _ Hnd' Hin) as Hg.
      rewrite Hv in Hg.
      destruct (getEntry token (tokenStore l)) as [user|] eqn:Hu;
        [|discriminate].
      simpl in Hg. injection Hg as <-. simpl in Hid.
      exists token, user. split; [exact Hu | exact Hid].
    + intros (token & user & Hg & Hid).
      exists (token, mkLoggedIn (id user) (name user) (email user) token).
      split; [exact Hid |].
      apply getEntry_some_In. rewrite Hv, Hg. reflexivity.
  - etransitivity; [apply unique_length |].
    rewrite length_map, <- (length_map fst (loggedInUsers l)), <- Hk,
      length_map.
    reflexivity.
Qed.

Lemma online_users_are_token_holders_witness :
  In 1%nat
    (onlineUserIds
       (fst (served true
               [AuthLogin (mkLoginRequest (Some "alice@example.org")
                             (Some "secret1") (Some Samples.alice) "t1")]
               Samples.booted))).
Proof.
  apply (proj2 (proj1 (proj2 (online_users_are_token_holders true
                                [AuthLogin (mkLoginRequest
                                              (Some "alice@example.org")
                                              (Some "secret1")
                                              (Some Samples.alice) "t1")]
                                Samples.booted 1%nat)))).
  exists "t1", Samples.alice. split; reflexivity.
Defined.

End TokenStore.

(** ** The chat handler with its failing paths, and overlapping requests *)

Section FailingPaths.
Import Str AIEngine TurnClassifier Server Spec Samples SessionStatus.
Import ChatHandler.
Local Open Scope Z_scope.

Lemma objects_map (ms : list AiMistake) :
  objects (map ObjectEntry ms) = Some ms.
Proof.
  induction ms as [|m rest IH]; [reflexivity|]. simpl. rewrite IH. reflexivity.
Qed.

Lemma objects_counted (entries : list Entry) (ms : list AiMistake) :
  objects entries = Some ms ->
  map counted entries = ms /\ existsb isNull entries = false.
Proof.
  revert ms. induction entries as [|[|m] rest IH]; intros ms H.
  - inversion H. split; reflexivity.
  - discriminate H.
  - simpl in H. destruct (objects rest) as [ms'|]; [|discriminate].
    inversion H; subst. destruct (IH ms' eq_refl) as [E1 E2].
    simpl. rewrite E1, E2. split; reflexivity.
Qed.

Lemma objects_none (entries : list Entry) :
  objects entries = None <-> existsb isNull entries = true.
Proof.
  induction entries as [|[|m] rest IH]; simpl.
  - split; discriminate.
  - split; reflexivity.
  - destruct (objects rest); split; intros H; try discriminate.
    + apply IH in H. discriminate H.
    + apply IH. reflexivity.
    + reflexivity.
Qed.

Lemma withMistakes_same (a : Analysis) (ms : list AiMistake) :
  an_mistakes a = Some ms -> withMistakes ms a = a.
Proof. intros H. destruct a. simpl in *. subst. reflexivity. Qed.

(** On entries that are all objects the classification is [classify]. *)
Lemma classifyEntries_objects (text : string) (a : Analysis)
    (entries : list Entry) (ms : list AiMistake) :
  objects entries = Some ms ->
  classifyEntries text a entries = Some (classify text (withMistakes ms a)).
Proof.
  intros H. destruct (objects_counted _ _ H) as [E _].
  unfold classifyEntries. destruct entries as [|[|first] rest].
  - inversion H. reflexivity.
  - discriminate H.
  - rewrite H, E. destruct (structuredGuard [first]); reflexivity.
Qed.

(** Where the classification throws. *)
Lemma classifyEntries_throws (text : string) (a : Analysis)
    (entries : list Entry) :
  classifyEntries text a entries = None
  <-> (exists rest, entries = NullEntry :: rest)
      \/ (exists first rest,
            entries = ObjectEntry first :: rest
            /\ structuredGuard [first] = true
            /\ existsb isNull rest = true).
Proof.
  unfold classifyEntries. destruct entries as [|[|first] rest].
  - split; [discriminate|].
    intros [(r & F) | (f & r & F & _)]; discriminate F.
  - split; [intros _; left; eexists; reflexivity | reflexivity].
  - destruct (structuredGuard [first]) eqn:Sg.
    + destruct (objects (ObjectEntry first :: rest)) as [ms|] eqn:Eo.
      * split; [discriminate|].
        intros [(r & F) | (f & r & F & _ & N)]; [discriminate F|].
        inversion F; subst.
        destruct (objects_counted _ _ Eo) as [_ E]. simpl in E.
        congruence.
      * split; [|reflexivity]. intros _. right. exists first, rest.
        apply objects_none in Eo. simpl in Eo.
        repeat split; assumption.
    + split; [discriminate|].
      intros [(r & F) | (f & r & F & G & _)]; [discriminate F|].
      inversion F; subst. congruence.
Qed.

Lemma toEngine_entries (g : RawResult) (e : Engine) :
  an_mistakes (snd (analyzeAndRespond (toEngine g) e))
  = Some (map counted (entriesOf g)).
Proof.
  destruct g as [|response [p|]]; try reflexivity.
  simpl. destruct (raw_mistakes p); reflexivity.
Qed.

Lemma plainResult_entries (g : GeminiResult) :
  toEngine (plainResult g) = g
  /\ objects (entriesOf (plainResult g))
     = Some (match g with
             | GeminiText _ (Some p) =>
                 match p_mistakes p with Some ms => ms | None => [] end
             | _ => []
             end).
Proof.
  destruct g as [|response [p|]]; try (split; reflexivity).
  destruct p as [f s [ms|]]; simpl.
  - rewrite objects_map. split; [|reflexivity].
    rewrite map_map. simpl. rewrite map_id. reflexivity.
  - split; reflexivity.
Qed.

(** On a request of [Server.chat] the handler with its failing paths
    answers what [Server.chat] answers, and reaches the same state. *)
Lemma chatRaw_plain (st : State) (req : ChatRequest) :
  fst (chatRaw st (plainChat req)) = fst (chat st req)
  /\ match snd (chatRaw st (plainChat req)), snd (chat st req) with
     | Replied Unauthorized, Unauthorized => True
     | Replied (BadRequest m), BadRequest m' => m = m'
     | Replied (Ok b), Ok b' =>
         body b = b' /\ repliedMistakes b = map Some (mistakes (turn b'))
     | _, _ => False
     end.
Proof.
  unfold chatRaw, chat, plainChat. simpl.
  destruct (chatUser req) as [user|]; [|split; [reflexivity | exact I]].
  destruct (chatGuard st); [split; reflexivity|].
  rewrite andb_false_r.
  destruct (plainResult_entries (gemini req)) as [E1 E2].
  rewrite E1.
  pose proof (toEngine_entries (plainResult (gemini req))
                (recordUserMessage (chatText req) (engine st))) as Hm.
  rewrite E1 in Hm.
  destruct (objects_counted _ _ E2) as [E3 E4]. rewrite E3 in Hm.
  destruct (analyzeAndRespond (gemini req) _) as [eng' analysis].
  simpl in Hm.
  rewrite (classifyEntries_objects _ _ _ _ E2).
  rewrite (withMistakes_same _ _ Hm).
  unfold saveFails, repliedList. simpl. rewrite E4. simpl.
  rewrite andb_false_r. simpl. split; [reflexivity|]. split; reflexivity.
Qed.

(** The counters after a chat request that passes the two guards. *)
Lemma chatRaw_counters (st : State) (req : RawChat) (user : TokenUser) :
  rawUser req = Some user -> chatGuard st = false ->
  let st' := fst (chatRaw st req) in
  serverMessageCount st' = serverMessageCount st + 1
  /\ serverIncorrectCount st <= serverIncorrectCount st'
     <= serverIncorrectCount st + 1
  /\ userMessageCount (engine st') = userMessageCount (engine st) + 1
  /\ incorrectCount (engine st) <= incorrectCount (engine st')
     <= incorrectCount (engine st) + 1
  /\ (S (length (conversationHistory (engine st)))
      <= length (conversationHistory (engine st'))
      <= S (S (length (conversationHistory (engine st)))))%nat
  /\ ((stored st && incrementThrows req) = false ->
      length (conversationHistory (engine st'))
      = S (S (length (conversationHistory (engine st)))))
  /\ currentTopicInfo st' = currentTopicInfo st
  /\ activeSessions st' = activeSessions st
  /\ currentConversationId st' = currentConversationId st
  /\ controller st' = controller st.
Proof.
  intros Hu Hg. cbv zeta. unfold chatRaw. rewrite Hu, Hg.
  destruct (stored st && incrementThrows req).
  - simpl. rewrite length_app. simpl.
    repeat split; try lia; try discriminate.
  - pose proof (analyzeAndRespond_engine (toEngine (rawGemini req))
                  (recordUserMessage (rawText req) (engine st)))
      as (A1 & A2 & A3 & _).
    destruct (analyzeAndRespond _ _) as [eng' analysis].
    simpl in A1, A2, A3. rewrite length_app in A2. simpl in A2.
    destruct (classifyEntries _ _ _) as [c|]; simpl.
    + destruct (saveFails st req c); simpl;
        destruct (countsAsIncorrect c); repeat split; lia.
    + repeat split; lia.
Qed.

Lemma applySegment_kept (st : State) (s : Segment) :
  kept st -> kept (applySegment st s).
Proof.
  intros Inv. pose proof Inv as (Hs & Hu & Hc & Hh & Hi & Hn).
  destruct s as [q | cid | user q cid | text | g | | user |]; simpl;
    try exact Inv.
  - unfold start. simpl. destruct (startUser q); [|exact Inv].
    destruct (startTopicId q =? 0)%nat; [exact Inv|].
    destruct (setTopic_keeps (startTopicId q) (controller st))
      as (K1 & K2 & K3).
    rewrite startRecording_without_user by congruence.
    unfold kept. simpl. rewrite K1, K2. repeat split; try assumption; lia.
  - unfold kept. simpl. rewrite length_app. simpl.
    repeat split; try assumption; lia.
  - pose proof (analyzeAndRespond_engine (toEngine g) (engine st))
      as (A1 & A2 & A3 & _).
    unfold kept. simpl. repeat split; try assumption; lia.
  - unfold kept. simpl. repeat split; try assumption; lia.
  - unfold finish, sessionEnded. rewrite Hs. exact Inv.
Qed.

Lemma applySegments_kept (segs : list Segment) (st : State) :
  kept st -> kept (applySegments st segs).
Proof.
  revert st. induction segs as [|s segs IH]; intros st Inv; [exact Inv|].
  simpl. apply IH, applySegment_kept, Inv.
Qed.

Lemma boot_followed (topics : list nat) :
  followed (boot topics) /\ paired (boot topics).
Proof. unfold followed, kept, paired, boot. simpl. repeat split; lia. Qed.

(** A request handled alone is the sequence of its pieces. *)
Lemma handleRaw_segments (st : State) (r : RawRequest) :
  handleRaw st r = applySegments st (segmentsOf st r).
Proof.
  destruct r as [q createThrows | q | u completeThrows]; simpl.
  - unfold startRaw, applySegments.
    destruct (startUser q) as [user|] eqn:Eu.
    2: { destruct createThrows; unfold start; simpl; rewrite Eu; reflexivity. }
    destruct (startTopicId q =? 0)%nat eqn:Et.
    { destruct createThrows; unfold start; simpl; rewrite Eu, Et;
        reflexivity. }
    destruct createThrows; [reflexivity|].
    destruct (createdConversation q) as [cid|] eqn:Ec; simpl;
      unfold start; simpl; rewrite Eu, Et, Ec; reflexivity.
  - unfold chatRaw. destruct (rawUser q); [|reflexivity].
    destruct (chatGuard st); [reflexivity|].
    destruct (stored st && incrementThrows q); [reflexivity|].
    simpl. unfold withEngine. simpl.
    destruct (analyzeAndRespond _ _) as [eng' analysis]. simpl.
    destruct (classifyEntries _ _ _) as [c|]; [|reflexivity].
    destruct (saveFails st q c); destruct (countsAsIncorrect c); reflexivity.
  - unfold endRaw. destruct u as [user|]; [|reflexivity].
    destruct (stored st && negb completeThrows); reflexivity.
Qed.

Lemma handleRaw_followed (st : State) (r : RawRequest) :
  followed st -> followed (handleRaw st r).
Proof.
  intros Inv. pose proof Inv as (K & Hh & Hi & Hn).
  assert (kept (handleRaw st r)) as K'.
  { rewrite handleRaw_segments. apply applySegments_kept, K. }
  pose proof K as (Hs & Hu & Hc & Hl & Hi0 & Hn0).
  split; [exact K'|].
  destruct r as [q createThrows | q | u completeThrows]; simpl.
  - unfold startRaw, start.
    destruct (startUser (if createThrows then withoutConversation q else q));
      [|repeat split; assumption].
    destruct (startTopicId _ =? 0)%nat; [repeat split; assumption|].
    destruct (createdConversation _); simpl; repeat split; lia.
  - destruct (rawUser q) as [user|] eqn:Eu.
    + destruct (chatGuard st) eqn:Eg.
      * unfold chatRaw. rewrite Eu, Eg. repeat split; assumption.
      * destruct (chatRaw_counters st q user Eu Eg)
          as (C1 & C2 & C3 & C4 & C5 & _).
        repeat split; lia.
    + unfold chatRaw. rewrite Eu. repeat split; assumption.
  - unfold endRaw. destruct u as [user|]; [|repeat split; assumption].
    unfold finish, sessionEnded. rewrite Hs. simpl.
    repeat split; assumption.
Qed.

Lemma handleRaw_paired (st : State) (r : RawRequest) :
  kept st -> paired st -> throwsEarly r = false -> paired (handleRaw st r).
Proof.
  intros (Hs & _) P Ht. unfold paired in *.
  destruct r as [q createThrows | q | u completeThrows]; simpl.
  - unfold startRaw, start.
    destruct (startUser (if createThrows then withoutConversation q else q));
      [|exact P].
    destruct (startTopicId _ =? 0)%nat; [exact P|].
    destruct (createdConversation _); reflexivity.
  - simpl in Ht. destruct (rawUser q) as [user|] eqn:Eu.
    + destruct (chatGuard st) eqn:Eg.
      * unfold chatRaw. rewrite Eu, Eg. exact P.
      * destruct (chatRaw_counters st q user Eu Eg)
          as (C1 & _ & _ & _ & _ & C6 & _).
        rewrite C6 by (rewrite Ht; apply andb_false_r). lia.
    + unfold chatRaw. rewrite Eu. exact P.
  - unfold endRaw. destruct u as [user|]; [|exact P].
    unfold finish, sessionEnded. rewrite Hs. exact P.
Qed.

Lemma runRaw_followed (rs : list RawRequest) (st : State) :
  followed st -> followed (runRaw st rs).
Proof.
  revert st. induction rs as [|r rs IH]; intros st Inv; [exact Inv|].
  simpl. apply IH, handleRaw_followed, Inv.
Qed.

Lemma runRaw_paired (rs : list RawRequest) (st : State) :
  followed st -> paired st -> forallb (fun r => negb (throwsEarly r)) rs = true ->
  paired (runRaw st rs).
Proof.
  revert st. induction rs as [|r rs IH]; intros st Inv P Hall; [exact P|].
  simpl in Hall. apply andb_true_iff in Hall. destruct Hall as [Hr Hall].
  simpl. apply IH.
  - apply handleRaw_followed, Inv.
  - apply handleRaw_paired; [apply Inv | exact P |].
    apply negb_true_iff, Hr.
  - exact Hall.
Qed.

Lemma runRaw_segments (rs : list RawRequest) (st : State) :
  exists segs, runRaw st rs = applySegments st segs.
Proof.
  revert st. induction rs as [|r rs IH]; intros st.
  - exists []. reflexivity.
  - simpl. destruct (IH (handleRaw st r)) as (segs & E).
    exists (segmentsOf st r ++ segs).
    unfold applySegments. rewrite fold_left_app.
    rewrite E, handleRaw_segments. reflexivity.
Qed.

Lemma classifyEntries_unread (text : string) (a : Analysis)
    (entries : list Entry) (c : Classified) :
  classifyEntries text a entries = Some c ->
  existsb isNull entries = true ->
  c = classify text (withMistakes (map counted entries) a)
  /\ structuredGuard (map counted entries) = false
  /\ hadCorrection c = true
  /\ countsAsIncorrect c
     = negb match aiCategory a with
            | Some g => String.eqb g "fluency_naturalness"
            | None => false
            end.
Proof.
  intros H N. unfold classifyEntries in H.
  destruct entries as [|[|first] rest]; try discriminate.
  assert (structuredGuard [first] = false) as Sg.
  { destruct (structuredGuard [first]) eqn:Sg; [|reflexivity].
    apply objects_none in N. rewrite N in H. discriminate H. }
  rewrite Sg in H. injection H as <-.
  set (ms := map counted (ObjectEntry first :: rest)).
  assert (structuredGuard ms = false) as Sg' by exact Sg.
  destruct (classify_passthrough text (withMistakes ms a) ms eq_refl
              ltac:(discriminate) Sg') as (_ & _ & G & T & V).
  cbv zeta in G, T, V.
  split; [reflexivity|]. split; [exact Sg'|]. split; [exact V|].
  change (aiCategory (withMistakes ms a)) with (aiCategory a) in G.
  unfold countsAsIncorrect, isFlencyOnly.
  change (first :: map counted rest) with ms.
  rewrite V, G, T. simpl. rewrite orb_false_r. reflexivity.
Qed.

(** C8 (amended). The classification reads a structured list through its
    first entry.  It throws exactly when the first entry is [null], or
    the first entry carries both fragments and a later entry is [null];
    the request is then answered 500, after the total counter was
    incremented and with the incorrect counter as it was.  On a
    non-empty list of objects it does not fail: the structured path is
    taken exactly when the first entry carries both fragments, and later
    entries are not examined; otherwise neither the structured path nor
    fragment extraction is taken, the list is passed on as the AI
    supplied it, status and category stay the AI's, and the handler
    finds a correction.  A [null] behind a first entry that lacks a
    fragment is passed on unread; the request then fails only where the
    mistakes are saved to a stored conversation. *)
Theorem malformed_list_is_passed_through
    (text : string) (a : Analysis) (entries : list Entry) :
  entries <> [] ->
  (classifyEntries text a entries = None
   <-> (exists rest, entries = NullEntry :: rest)
       \/ (exists first rest,
             entries = ObjectEntry first :: rest
             /\ wellFormed first = true
             /\ existsb isNull rest = true))
  /\ (forall ms, objects entries = Some ms ->
      let c := classify text (withMistakes ms a) in
      classifyEntries text a entries = Some c
      /\ (structuredGuard ms = true
          <-> exists m rest, ms = m :: rest /\ wellFormed m = true)
      /\ (structuredGuard ms = true ->
          mistakes c = map (normalize (aiCategory a)) ms)
      /\ (structuredGuard ms = false ->
          mistakes c = map ofAi ms
          /\ errorSubType c = "general"
          /\ grammarCategory c = aiCategory a
          /\ sentenceStatus c = orElse (an_sentence_status a) "correct"
          /\ hadCorrection c = true))
  /\ (forall first rest,
        entries = ObjectEntry first :: rest -> wellFormed first = false ->
        exists c,
          classifyEntries text a entries = Some c
          /\ length (mistakes c) = length entries
          /\ sentenceStatus c = orElse (an_sentence_status a) "correct"
          /\ grammarCategory c = aiCategory a
          /\ hadCorrection c = true)
  /\ (forall (st : State) (req : RawChat) (user : TokenUser),
        rawUser req = Some user -> chatGuard st = false ->
        (stored st && incrementThrows req) = false ->
        let analysis :=
          snd (analyzeAndRespond (toEngine (rawGemini req))
                 (recordUserMessage (rawText req) (engine st))) in
        let classified :=
          classifyEntries (rawText req) analysis (entriesOf (rawGemini req)) in
        (classified = None ->
         snd (chatRaw st req) = ServerError
         /\ serverMessageCount (fst (chatRaw st req))
            = serverMessageCount st + 1
         /\ serverIncorrectCount (fst (chatRaw st req))
            = serverIncorrectCount st)
        /\ (forall c, classified = Some c ->
            existsb isNull (entriesOf (rawGemini req)) = true ->
            (snd (chatRaw st req) = ServerError <-> stored st = true)
            /\ (stored st = false ->
                exists b,
                  snd (chatRaw st req) = Replied (Ok b)
                  /\ repliedMistakes b
                     = map (fun e =>
                              match e with
                              | NullEntry => None
                              | ObjectEntry m => Some (ofAi m)
                              end) (entriesOf (rawGemini req)))
            /\ serverIncorrectCount (fst (chatRaw st req))
               = serverIncorrectCount st + 1)).
Proof.
  intros Hne. split; [|split; [|split]].
  - rewrite classifyEntries_throws. unfold wellFormed, structuredGuard.
    reflexivity.
  - intros ms Ho c.
    assert (ms <> []) as Hms.
    { destruct entries as [|[|m] rest]; [congruence | discriminate Ho |].
      simpl in Ho. destruct (objects rest); inversion Ho. discriminate. }
    split; [apply classifyEntries_objects, Ho|].
    split; [|split].
    + destruct ms as [|m rest]; [congruence|]. simpl. split.
      * intros H. exists m, rest. split; [reflexivity | exact H].
      * intros (m' & rest' & E & H). inversion E; subst. exact H.
    + intros Hg.
      apply (classify_structured text (withMistakes ms a) ms eq_refl Hg).
    + intros Hg.
      destruct (classify_passthrough text (withMistakes ms a) ms eq_refl
                  Hms Hg) as (M & S & G & T & V).
      repeat split; assumption.
  - intros first rest -> Hw.
    assert (structuredGuard (map counted (ObjectEntry first :: rest)) = false)
      as Sg by exact Hw.
    destruct (classify_passthrough text
                (withMistakes (map counted (ObjectEntry first :: rest)) a)
                _ eq_refl ltac:(discriminate) Sg) as (M & S & G & T & V).
    eexists. split.
    + unfold classifyEntries.
      change (structuredGuard [first]) with (wellFormed first).
      rewrite Hw. reflexivity.
    + rewrite M, !length_map. repeat split; assumption.
  - intros st req user Hu Hg Hi analysis classified. split.
    + intros Hc. unfold chatRaw. rewrite Hu, Hg, Hi.
      subst classified analysis.
      destruct (analyzeAndRespond _ _) as [eng' an]. simpl in Hc.
      rewrite Hc. simpl. repeat split.
    + intros c Hc N.
      destruct (classifyEntries_unread _ _ _ _ Hc N) as (_ & _ & V & K).
      assert (countsAsIncorrect c = true) as K'.
      { rewrite K. unfold aiCategory. subst analysis.
        rewrite engine_analysis_category. reflexivity. }
      unfold chatRaw. rewrite Hu, Hg, Hi.
      subst classified analysis.
      destruct (analyzeAndRespond _ _) as [eng' an]. simpl in Hc.
      rewrite Hc. unfold saveFails. rewrite V, N, K'. simpl.
      destruct (stored st); simpl.
      * repeat split; try reflexivity. discriminate.
      * split; [split; discriminate|]. split; [|reflexivity].
        intros _. eexists. split; [reflexivity|].
        simpl. unfold repliedList. rewrite N. reflexivity.
Qed.

Lemma malformed_list_is_passed_through_witness :
  classifyEntries schoolText lackingAnalysis nullBehind = None
  /\ mistakes (classify schoolText lackingAnalysis) = map ofAi [lacking]
  /\ snd (chatRaw aliceStarted nullFirst) = ServerError
  /\ serverMessageCount (fst (chatRaw aliceStarted nullFirst)) = 1
  /\ serverIncorrectCount (fst (chatRaw aliceStarted nullFirst)) = 0.
Proof.
  split; [|split].
  - apply (proj1 (malformed_list_is_passed_through schoolText lackingAnalysis
                    nullBehind ltac:(discriminate))).
    right. exists complete, [NullEntry]. repeat split.
  - apply (proj1 (proj2 (malformed_list_is_passed_through schoolText
                           lackingAnalysis [ObjectEntry lacking]
                           ltac:(discriminate))) [lacking] eq_refl).
    reflexivity.
  - apply (proj2 (proj2 (proj2 (malformed_list_is_passed_through schoolText
                                  lackingAnalysis nullBehind
                                  ltac:(discriminate))))
             aliceStarted nullFirst alice eq_refl eq_refl eq_refl).
    reflexivity.
Defined.

(** X14. In whatever order the pieces of start, chat and end requests run
    (requests in flight together, a chat ending in its [catch]), the
    total of the AI engine is the server's message count, the history
    holds at least one line per counted message, and no counter is
    negative.  When every request is handled to its end before the next
    one begins, the history holds at most two lines per counted message,
    the engine's incorrect count is at most its total (so the number of
    correct sentences is not negative), the server's incorrect counter is
    at most its message counter, and, where no call of
    [incrementMessageCount] threw, the history holds exactly two lines
    per counted message. *)
Theorem engine_counts_follow_server (topics : list nat)
    (segs : list Segment) (rs : list RawRequest) :
  (let st := applySegments (boot topics) segs in
   statsTotal (getCurrentStats (engine st)) = serverMessageCount st
   /\ scoreTotalSentences (endConversation (engine st))
      = serverMessageCount st
   /\ 0 <= serverMessageCount st
      <= Z.of_nat (length (getConversationHistory (engine st)))
   /\ 0 <= statsIncorrect (getCurrentStats (engine st))
   /\ 0 <= serverIncorrectCount st)
  /\ (let st := runRaw (boot topics) rs in
      (exists pieces, st = applySegments (boot topics) pieces)
      /\ Z.of_nat (length (getConversationHistory (engine st)))
         <= 2 * serverMessageCount st
      /\ statsIncorrect (getCurrentStats (engine st))
         <= statsTotal (getCurrentStats (engine st))
      /\ 0 <= correctSentenceCount (endConversation (engine st))
      /\ correctSentenceCount (endConversation (engine st))
         + scoreIncorrectSentences (endConversation (engine st))
         = serverMessageCount st
      /\ serverIncorrectCount st <= serverMessageCount st
      /\ (forallb (fun r => negb (throwsEarly r)) rs = true ->
          Z.of_nat (length (getConversationHistory (engine st)))
          = 2 * serverMessageCount st)).
Proof.
  destruct (boot_followed topics) as [F P]. split.
  - intros st.
    destruct (applySegments_kept segs (boot topics) (proj1 F))
      as (_ & _ & Hc & Hh & Hi & Hn).
    fold st in Hc, Hh, Hi, Hn.
    unfold getCurrentStats, endConversation, getConversationHistory. simpl.
    repeat split; try assumption; lia.
  - intros st.
    destruct (runRaw_followed rs (boot topics) F)
      as ((_ & _ & Hc & Hh & Hi & Hn) & Hl & Hb & Hs).
    fold st in Hc, Hh, Hi, Hn, Hl, Hb, Hs.
    split; [apply runRaw_segments|].
    unfold getCurrentStats, endConversation, getConversationHistory. simpl.
    repeat split; try assumption; try lia.
    intros Hall. apply (runRaw_paired rs (boot topics) F P Hall).
Qed.

Lemma engine_counts_follow_server_witness :
  forallb (fun r => negb (throwsEarly r)) brokenSession = true
  /\ serverMessageCount (runRaw booted brokenSession) = 2
  /\ Z.of_nat
       (length (getConversationHistory (engine (runRaw booted brokenSession))))
     = 2 * serverMessageCount (runRaw booted brokenSession).
Proof.
  split; [reflexivity|]. split; [reflexivity|].
  apply (proj2 (engine_counts_follow_server [1; 2; 3]%nat [] brokenSession)).
  reflexivity.
Defined.

(** A throw of [incrementMessageCount] leaves one history line for a
    counted message; and a start that runs while a chat waits for the AI
    leaves the engine with an incorrect sentence out of none. *)
Example early_throw_and_overlap :
  (let st :=
     runRaw aliceStarted
       [RawChatting (mkRawChat (Some alice) "Hello" RawThrows true false)] in
   serverMessageCount st = 1
   /\ length (getConversationHistory (engine st)) = 1%nat)
  /\ (let st :=
        applySegments booted
          [ SegReset (mkStart (Some alice) 1 daily None);
            SegRecorded "I go home";
            SegReset (mkStart (Some bob) 2 daily None);
            SegAnswered (rawGemini nullFirst) ] in
      statsTotal (getCurrentStats (engine st)) = 0
      /\ statsIncorrect (getCurrentStats (engine st)) = 1).
Proof. repeat split; vm_compute; reflexivity. Qed.

End FailingPaths.
